(** * typedload: the recursive, type-directed loader ([typedload/dataloader.py])

    A shallow embedding of [Loader] and of the handlers of [dataloader.py],
    followed by the properties of the dispatch table, of the decoding
    engine, of the union resolver and of the record loader. *)

From Stdlib Require Import ZArith List String Ascii Bool Lia.
Import ListNotations.
Open Scope string_scope.
Open Scope Z_scope.

Set Implicit Arguments.
Set Warnings "-register-all".
Set Warnings "-automation".


(* ===================================================================== *)
(** * Dynamic values *)
(* ===================================================================== *)

(** The untyped input and the typed output of a load: the JSON-like data
    (null, booleans, numbers, strings, sequences, mappings), the other
    containers the handlers build, and instances of user classes.  A float
    [VFloat m e] is the finite binary fraction [m * 2^e].  A dict keeps its
    insertion order; a set is listed in its iteration order. *)
Inductive value : Type :=
| VNone
| VBool (b : bool)
| VInt (n : Z)
| VFloat (m e : Z)
| VStr (s : string)
| VList (l : list value)
| VTuple (l : list value)
| VSet (l : list value)
| VFrozenSet (l : list value)
| VDict (d : list (value * value))
| VEnum (cls member : string)
| VObj (cls : string) (attrs : list (string * value))
| VNamespace (kwargs : list (string * value)).

(** The type of values, for where a variable is named [value] as in the
    source. *)
Abbreviation pyvalue := value (only parsing).

(** Numbers compare by value in Python: [True == 1], [1 == 1.0]. *)
Definition numeric (v : value) : option (Z * Z) :=
  match v with
  | VBool b => Some (Z.b2z b, 0)
  | VInt n => Some (n, 0)
  | VFloat m e => Some (m, e)
  | _ => None
  end.

Definition num_eqb (x y : Z * Z) : bool :=
  let '(m1, e1) := x in
  let '(m2, e2) := y in
  let e := Z.min e1 e2 in
  Z.shiftl m1 (e1 - e) =? Z.shiftl m2 (e2 - e).

(** Python's [==] on the modelled values. *)
Fixpoint py_eq (a b : value) {struct a} : bool :=
  let fix eq_list (l l' : list value) {struct l} : bool :=
    match l, l' with
    | [], [] => true
    | x :: xs, y :: ys => py_eq x y && eq_list xs ys
    | _, _ => false
    end in
  let fix sub_set (l l' : list value) {struct l} : bool :=
    match l with
    | [] => true
    | x :: xs => existsb (py_eq x) l' && sub_set xs l'
    end in
  let fix sub_dict (d d' : list (value * value)) {struct d} : bool :=
    match d with
    | [] => true
    | (k, v) :: xs =>
        existsb (fun kv => py_eq k (fst kv) && py_eq v (snd kv)) d'
        && sub_dict xs d'
    end in
  let fix eq_attrs (l l' : list (string * value)) {struct l} : bool :=
    match l, l' with
    | [], [] => true
    | (n, x) :: xs, (n', y) :: ys =>
        String.eqb n n' && py_eq x y && eq_attrs xs ys
    | _, _ => false
    end in
  match numeric a, numeric b with
  | Some x, Some y => num_eqb x y
  | _, _ =>
      match a, b with
      | VNone, VNone => true
      | VStr s, VStr s' => String.eqb s s'
      | VList l, VList l' => eq_list l l'
      | VTuple l, VTuple l' => eq_list l l'
      | VSet l, VSet l' => Nat.eqb (List.length l) (List.length l') && sub_set l l'
      | VSet l, VFrozenSet l' => Nat.eqb (List.length l) (List.length l') && sub_set l l'
      | VFrozenSet l, VSet l' => Nat.eqb (List.length l) (List.length l') && sub_set l l'
      | VFrozenSet l, VFrozenSet l' =>
          Nat.eqb (List.length l) (List.length l') && sub_set l l'
      | VDict d, VDict d' =>
          Nat.eqb (List.length d) (List.length d') && sub_dict d d'
      | VEnum c m, VEnum c' m' => String.eqb c c' && String.eqb m m'
      | VObj c l, VObj c' l' => String.eqb c c' && eq_attrs l l'
      | VNamespace l, VNamespace l' => eq_attrs l l'
      | _, _ => false
      end
  end.

(** [x in xs] for a tuple, list or set of values. *)
Definition py_in (x : value) (xs : list value) : bool := existsb (py_eq x) xs.

(** Structural identity of two values (same kind, same content). *)
Fixpoint value_eqb (a b : value) {struct a} : bool :=
  let fix eq_list (l l' : list value) {struct l} : bool :=
    match l, l' with
    | [], [] => true
    | x :: xs, y :: ys => value_eqb x y && eq_list xs ys
    | _, _ => false
    end in
  let fix eq_dict (d d' : list (value * value)) {struct d} : bool :=
    match d, d' with
    | [], [] => true
    | (k, v) :: xs, (k', v') :: ys =>
        value_eqb k k' && value_eqb v v' && eq_dict xs ys
    | _, _ => false
    end in
  let fix eq_attrs (l l' : list (string * value)) {struct l} : bool :=
    match l, l' with
    | [], [] => true
    | (n, x) :: xs, (n', y) :: ys =>
        String.eqb n n' && value_eqb x y && eq_attrs xs ys
    | _, _ => false
    end in
  match a, b with
  | VNone, VNone => true
  | VBool x, VBool y => Bool.eqb x y
  | VInt x, VInt y => x =? y
  | VFloat m e, VFloat m' e' => (m =? m') && (e =? e')
  | VStr s, VStr s' => String.eqb s s'
  | VList l, VList l' => eq_list l l'
  | VTuple l, VTuple l' => eq_list l l'
  | VSet l, VSet l' => eq_list l l'
  | VFrozenSet l, VFrozenSet l' => eq_list l l'
  | VDict d, VDict d' => eq_dict d d'
  | VEnum c m, VEnum c' m' => String.eqb c c' && String.eqb m m'
  | VObj c l, VObj c' l' => String.eqb c c' && eq_attrs l l'
  | VNamespace l, VNamespace l' => eq_attrs l l'
  | _, _ => false
  end.

(* ===================================================================== *)
(** * Target types *)
(* ===================================================================== *)

(** A target type is a class object, named as Python names it ([int], [str],
    [NoneType], a user class), or one of the constructs of [typing].
    [Tuple[X, ...]] has the arguments [[X; TEllipsis]], as [__args__] has. *)
Inductive ty : Type :=
| TClass (name : string)
| TAny
| TEllipsis
| TUnion (args : list ty)
| TTuple (args : list ty)
| TList (t : ty)
| TDict (k v : ty)
| TSet (t : ty)
| TFrozenSet (t : ty)
| TForwardRef (forward_arg : string)
| TLiteral (vals : list value)
| TNewType (name : string) (supertype : ty).

Fixpoint ty_eqb (a b : ty) {struct a} : bool :=
  let fix eq_list (l l' : list ty) {struct l} : bool :=
    match l, l' with
    | [], [] => true
    | x :: xs, y :: ys => ty_eqb x y && eq_list xs ys
    | _, _ => false
    end in
  match a, b with
  | TClass n, TClass n' => String.eqb n n'
  | TAny, TAny => true
  | TEllipsis, TEllipsis => true
  | TUnion l, TUnion l' => eq_list l l'
  | TTuple l, TTuple l' => eq_list l l'
  | TList t, TList t' => ty_eqb t t'
  | TDict k v, TDict k' v' => ty_eqb k k' && ty_eqb v v'
  | TSet t, TSet t' => ty_eqb t t'
  | TFrozenSet t, TFrozenSet t' => ty_eqb t t'
  | TForwardRef n, TForwardRef n' => String.eqb n n'
  | TLiteral l, TLiteral l' =>
      (fix eq_vals (l l' : list value) {struct l} : bool :=
         match l, l' with
         | [], [] => true
         | x :: xs, y :: ys => value_eqb x y && eq_vals xs ys
         | _, _ => false
         end) l l'
  | TNewType n t, TNewType n' t' => String.eqb n n' && ty_eqb t t'
  | _, _ => false
  end.

(** [t in ts] for a set or tuple of types. *)
Definition ty_in (t : ty) (ts : list ty) : bool := existsb (ty_eqb t) ts.

Definition Tint : ty := TClass "int".
Definition Tbool : ty := TClass "bool".
Definition Tfloat : ty := TClass "float".
Definition Tstr : ty := TClass "str".
Definition NONETYPE : ty := TClass "NoneType".

(** [type(value)]. *)
Definition type_of (v : value) : ty :=
  match v with
  | VNone => NONETYPE
  | VBool _ => Tbool
  | VInt _ => Tint
  | VFloat _ _ => Tfloat
  | VStr _ => Tstr
  | VList _ => TClass "list"
  | VTuple _ => TClass "tuple"
  | VSet _ => TClass "set"
  | VFrozenSet _ => TClass "frozenset"
  | VDict _ => TClass "dict"
  | VEnum c _ => TClass c
  | VObj c _ => TClass c
  | VNamespace _ => TClass "Namespace"
  end.

(** Truth value of an object ([if name:], [if not namesmap:]). *)
Definition truthy (v : value) : bool :=
  match v with
  | VNone => false
  | VBool b => b
  | VInt n => negb (n =? 0)
  | VFloat m _ => negb (m =? 0)
  | VStr s => negb (String.eqb s "")
  | VList l | VTuple l | VSet l | VFrozenSet l =>
      match l with [] => false | _ => true end
  | VDict d => match d with [] => false | _ => true end
  | VEnum _ _ | VObj _ _ | VNamespace _ => true
  end.

(* ===================================================================== *)
(** * Failures and traces ([typedload/exceptions.py]) *)
(* ===================================================================== *)

(** Modelled from the spec: the exception classes of [exceptions.py], which
    is not part of the sources at hand.  The engine's recognized failure
    kinds are [TypedloadException] and its three subclasses; each subclass
    also derives from the builtin exception it is named after, which is why
    [_listload] has to tell a [TypedloadException] apart inside
    [except TypeError].  [OtherError] stands for any exception class that is
    none of the listed ones nor a subclass of them. *)
Inductive exn_class : Type :=
| ValueError
| TypeError
| AttributeError
| KeyError
| AssertionError
| OtherError (name : string)
| TypedloadException
| TypedloadValueError
| TypedloadTypeError
| TypedloadAttributeError.

(** [isinstance(e, TypedloadException)] and the like, on the class of [e]. *)
Definition is_TypedloadException (c : exn_class) : bool :=
  match c with
  | TypedloadException | TypedloadValueError
  | TypedloadTypeError | TypedloadAttributeError => true
  | _ => false
  end.

Definition is_ValueError (c : exn_class) : bool :=
  match c with ValueError | TypedloadValueError => true | _ => false end.

Definition is_TypeError (c : exn_class) : bool :=
  match c with TypeError | TypedloadTypeError => true | _ => false end.

Definition is_AttributeError (c : exn_class) : bool :=
  match c with AttributeError | TypedloadAttributeError => true | _ => false end.

(** Modelled from the spec: the positional annotations of a trace entry
    ([AnnotationType] and [Annotation] of [exceptions.py]): sequence index,
    mapping key, mapping value, record field, union alternative,
    forward-reference name.  An annotation pairs the kind with the index,
    key, value, field name, type or name it refers to. *)
Inductive AnnotationType : Type := FIELD | INDEX | KEY | VALUE | UNION | FORWARDREF.

Inductive pyobj : Type :=
| OVal (v : value)
| OType (t : ty).

Definition Annotation : Type := (AnnotationType * pyobj)%type.

(** Modelled from the spec: a trace entry is (offending value, offending
    target type, positional annotation). *)
Record TraceItem : Type := mkTraceItem {
  ti_value : value;
  ti_type : ty;
  ti_annotation : option Annotation
}.

(** The description of a failure, kept as the source builds it: a literal,
    the [repr] or the [str] of a value, a number, a set of names, pieces
    joined by a separator or concatenated, a [%]-template with its arguments, or
    another exception given as (or printed into) the description. *)
Inductive message : Type :=
| Msg (s : string)
| Repr (v : value)
| Str (v : value)
| Num (n : Z)
| NameSet (names : list string)
| Join (sep : string) (parts : list message)
| Cat (a b : message)
| Fmt (template : string) (args : list message)
| OfExn (c : exn_class) (m : message).

(** Modelled from the spec: an exception object.  A [TypedloadException] is
    built from a description, the offending value and type and the nested
    causes, and starts with an empty trace; an exception of another class
    has only its description. *)
Inductive exn : Type := Exn {
  e_class : exn_class;
  e_descr : message;
  e_trace : list TraceItem;
  e_value : option value;
  e_type : option ty;
  e_exceptions : list exn
}.

(** [Cls(description, value=..., type_=..., exceptions=...)]. *)
Definition new_exn (c : exn_class) (d : message) (v : option value)
    (t : option ty) (excs : list exn) : exn :=
  Exn c d [] v t excs.

(** An exception raised by code outside the loader. *)
Definition foreign (c : exn_class) (d : message) : exn :=
  Exn c d [] None None [].

Definition recognized (e : exn) : bool := is_TypedloadException (e_class e).

(** [e.trace.insert(0, item)]. *)
Definition trace_insert0 (item : TraceItem) (e : exn) : exn :=
  Exn (e_class e) (e_descr e) (item :: e_trace e) (e_value e) (e_type e)
      (e_exceptions e).

(* ===================================================================== *)
(** * Classes *)
(* ===================================================================== *)

(** The result of calling a class: an instance, an exception, or a call
    whose behaviour is left out of the model. *)
Inductive ctor_result : Type :=
| CtorOk (v : value)
| CtorRaise (c : exn_class) (m : message)
| CtorUndef.

(** A field of [__dataclass_fields__]; [None] stands for [MISSING]. *)
Record dc_field : Type := mkField {
  f_name : string;
  f_type : ty;
  f_init : bool;
  f_default : option value;
  f_default_factory : option value;
  f_metadata : list (string * value)
}.

(** An attribute of [__attrs_attrs__]; the default [None] stands for the
    marker [attr.NOTHING] of an attribute without default. *)
Record attr_attribute : Type := mkAttribute {
  a_name : string;
  a_type : ty;
  a_default : option value;
  a_init : bool;
  a_metadata : list (string * value)
}.

(** What the loader reads from a class object. *)
Inductive class_kind : Type :=
| KPlain
| KEnum (members : list (string * value)) (hints : list (string * ty))
| KNamedTuple (annotations : list (string * ty))
              (field_defaults : list (string * value))
| KDataclass (fields : list dc_field)
| KTypedDict (annotations : list (string * ty))
             (required_keys : option (list string)) (total : bool)
| KAttrs (attrs : list attr_attribute).

(** A class object: its shape, whether its instances have a hash, and its
    constructor [type_( *args, **kwargs)]. *)
Record pyclass : Type := mkClass {
  c_kind : class_kind;
  c_hashable : bool;
  c_call : list value -> list (string * value) -> ctor_result
}.

Definition class_table : Type := string -> pyclass.

(* ===================================================================== *)
(** * The loader object *)
(* ===================================================================== *)

(** The options of a [Loader], as [__init__] sets them.  No handler of the
    module assigns to them, so a load reads them from the loader [l] it is
    given.  The handlers are kept apart, since their type mentions the
    loader. *)
Record Loader : Type := mkLoader {
  basictypes : list ty;
  basiccast : bool;
  failonextra : bool;
  raiseconditionerrors : bool;
  dictequivalence : bool;
  mangle_key : string;
  uniondebugconflict : bool;
  strconstructed : list ty
}.

(** The two attributes a load updates in place: the forward-reference table
    ([None] disables it) and the handler cache. *)
Record state : Type := mkState {
  frefs : option (list (string * ty));
  _indexcache : list (ty * nat)
}.

(** The outcome of a call: a result, an exception, or [Undef] when the fuel
    of the recursion is exhausted or an unmodelled constructor is reached. *)
Inductive outcome (A : Type) : Type :=
| Ret (a : A)
| Raise (e : exn)
| Undef.
Arguments Raise {A} e.
Arguments Undef {A}.

(** A computation reads and updates the state of the loader. *)
Definition M (A : Type) : Type := state -> outcome A * state.

Definition ret {A} (a : A) : M A := fun l => (Ret a, l).
Definition raise {A} (e : exn) : M A := fun l => (Raise e, l).
Definition undef {A} : M A := fun l => (Undef, l).
Definition bind {A B} (m : M A) (k : A -> M B) : M B :=
  fun l => match m l with
           | (Ret a, l') => k a l'
           | (Raise e, l') => (Raise e, l')
           | (Undef, l') => (Undef, l')
           end.
Definition get_state : M state := fun st => (Ret st, st).
Definition lift {A} (o : outcome A) : M A := fun st => (o, st).

Notation "x <- m ;; k" := (bind m (fun x => k))
  (at level 100, m at next level, right associativity).

(** [l.load(value, type_, annotation=...)], as the handlers see it. *)
Definition load_t : Type := value -> ty -> option Annotation -> M value.

(** A handler's loading function [f(l, value, type_)]: it is given the
    loader's options and [l.load]. *)
Definition loader_fn : Type := Loader -> load_t -> value -> ty -> M value.

(** A handler's condition, which may raise. *)
Definition cond_fn : Type := Loader -> ty -> outcome bool.

Definition handler : Type := (cond_fn * loader_fn)%type.

(* ===================================================================== *)
(** * Helpers of the Python runtime *)
(* ===================================================================== *)

(** Modelled from the spec: [helpers.tname], the printed name of a type,
    used to name a type in a failure's description. *)
Fixpoint tname (t : ty) : string :=
  let fix names (l : list ty) {struct l} : string :=
    match l with
    | [] => ""
    | x :: xs =>
        match xs with
        | [] => tname x
        | _ => tname x ++ ", " ++ names xs
        end
    end in
  match t with
  | TClass n => n
  | TAny => "Any"
  | TEllipsis => "..."
  | TUnion l => "Union[" ++ names l ++ "]"
  | TTuple l => "Tuple[" ++ names l ++ "]"
  | TList t' => "List[" ++ tname t' ++ "]"
  | TDict k v => "Dict[" ++ tname k ++ ", " ++ tname v ++ "]"
  | TSet t' => "Set[" ++ tname t' ++ "]"
  | TFrozenSet t' => "FrozenSet[" ++ tname t' ++ "]"
  | TForwardRef n => "ForwardRef('" ++ n ++ "')"
  | TLiteral _ => "Literal"
  | TNewType n _ => n
  end.

(** [str(e)]: the description of a foreign exception; a failure of the
    engine prints more than its description, which [OfExn] stands for. *)
Definition str_exn (e : exn) : message :=
  if recognized e then OfExn (e_class e) (e_descr e) else e_descr e.

(** [isinstance(value, dict)]. *)
Definition is_dict_instance (v : value) : bool :=
  match v with VDict _ => true | _ => false end.

(** Dicts, with keys compared by [==]. *)
Fixpoint dict_get (k : value) (d : list (value * value)) : option value :=
  match d with
  | [] => None
  | (k', v) :: d' => if py_eq k k' then Some v else dict_get k d'
  end.

Definition dict_has (k : value) (d : list (value * value)) : bool :=
  match dict_get k d with Some _ => true | None => false end.

(** [d[k] = v]: an existing key keeps its place. *)
Fixpoint dict_set (k v : value) (d : list (value * value)) : list (value * value) :=
  match d with
  | [] => [(k, v)]
  | (k', v') :: d' =>
      if py_eq k k' then (k', v) :: d' else (k', v') :: dict_set k v d'
  end.

(** [s.add(x)] on a set listed in iteration order. *)
Definition set_add (x : value) (s : list value) : list value :=
  if py_in x s then s else (s ++ [x])%list.

(** Lookup in a mapping from names ([type_hints[k]], [frefs.get(name)]). *)
Fixpoint assoc {A} (k : string) (m : list (string * A)) : option A :=
  match m with
  | [] => None
  | (k', a) :: m' => if String.eqb k k' then Some a else assoc k m'
  end.

Definition name_in (k : string) (s : list string) : bool :=
  existsb (String.eqb k) s.

Section WithClasses.

(** The classes of the program: [classes n] is the class object named [n]. *)
Variable classes : class_table.

(** [hash(v)] succeeds. *)
Fixpoint hashable (v : value) : bool :=
  match v with
  | VNone | VBool _ | VInt _ | VFloat _ _ | VStr _ | VFrozenSet _ => true
  | VTuple l => forallb hashable l
  | VList _ | VSet _ | VDict _ | VNamespace _ => false
  | VEnum _ _ => true
  | VObj c _ => c_hashable (classes c)
  end.

(** The characters of a string, as one-character strings. *)
Fixpoint chars (s : string) : list value :=
  match s with
  | EmptyString => []
  | String c s' => VStr (String c EmptyString) :: chars s'
  end.

(** Iterating over a value ([enumerate(value)], [*value]); an object that
    is not iterable raises [TypeError]. *)
Definition iterate (v : value) : outcome (list value) :=
  match v with
  | VList l | VTuple l | VSet l | VFrozenSet l => Ret l
  | VStr s => Ret (chars s)
  | VDict d => Ret (map fst d)
  | _ => Raise (foreign TypeError
                  (Fmt "'%s' object is not iterable" [Msg (tname (type_of v))]))
  end.

(** [len(value)]. *)
Definition py_len (v : value) : outcome nat :=
  match v with
  | VList l | VTuple l | VSet l | VFrozenSet l => Ret (List.length l)
  | VStr s => Ret (String.length s)
  | VDict d => Ret (List.length d)
  | _ => Raise (foreign TypeError
                  (Fmt "object of type '%s' has no len()" [Msg (tname (type_of v))]))
  end.

(** [value.items()] and [value.keys()]: only a dict has them. *)
Definition no_attribute (v : value) (name : string) : exn :=
  foreign AttributeError
    (Fmt "'%s' object has no attribute '%s'" [Msg (tname (type_of v)); Msg name]).

Definition py_items (v : value) : outcome (list (value * value)) :=
  match v with
  | VDict d => Ret d
  | _ => Raise (no_attribute v "items")
  end.

Definition py_keys (v : value) : outcome (list value) :=
  match v with
  | VDict d => Ret (map fst d)
  | _ => Raise (no_attribute v "keys")
  end.

(** [type_( *args, **kwargs)].  Only a class is called through the class
    table; calling a construct of [typing] is left out of the model. *)
Definition call (t : ty) (args : list value) (kwargs : list (string * value))
  : ctor_result :=
  match t with
  | TClass n => c_call (classes n) args kwargs
  | _ => CtorUndef
  end.

(** What the loader reads from a type that is a class. *)
Definition kind_of (t : ty) : class_kind :=
  match t with
  | TClass n => c_kind (classes n)
  | _ => KPlain
  end.

(** [type_.__args__], where a type has it. *)
Definition type_args (t : ty) : outcome (list ty) :=
  match t with
  | TUnion l | TTuple l => Ret l
  | TList a | TSet a | TFrozenSet a => Ret [a]
  | TDict k v => Ret [k; v]
  | _ => Raise (foreign AttributeError (Msg "__args__"))
  end.

(** [type_.__args__[0]]. *)
Definition type_arg0 (t : ty) : outcome ty :=
  match type_args t with
  | Ret (a :: _) => Ret a
  | Ret [] => Raise (foreign (OtherError "IndexError") (Msg "tuple index out of range"))
  | Raise e => Raise e
  | Undef => Undef
  end.

(* ===================================================================== *)
(** * The type checks ([typedload/typechecks.py]) *)
(* ===================================================================== *)

(** Modelled from the spec: the shape predicates of [typechecks.py], the
    classification oracle of the dispatch table, which is not part of the
    sources at hand.  Each answers whether a target type has one shape. *)
Definition is_nonetype (t : ty) : bool := ty_eqb t NONETYPE.
Definition is_union (t : ty) : bool :=
  match t with TUnion _ => true | _ => false end.
Definition is_enum (t : ty) : bool :=
  match kind_of t with KEnum _ _ => true | _ => false end.
Definition is_tuple (t : ty) : bool :=
  match t with TTuple _ => true | _ => false end.
Definition is_list (t : ty) : bool :=
  match t with TList _ => true | _ => false end.
Definition is_dict (t : ty) : bool :=
  match t with TDict _ _ => true | _ => false end.
Definition is_set (t : ty) : bool :=
  match t with TSet _ => true | _ => false end.
Definition is_frozenset (t : ty) : bool :=
  match t with TFrozenSet _ => true | _ => false end.
Definition is_namedtuple (t : ty) : bool :=
  match kind_of t with KNamedTuple _ _ => true | _ => false end.
Definition is_dataclass (t : ty) : bool :=
  match kind_of t with KDataclass _ => true | _ => false end.
Definition is_forwardref (t : ty) : bool :=
  match t with TForwardRef _ => true | _ => false end.
Definition is_literal (t : ty) : bool :=
  match t with TLiteral _ => true | _ => false end.
Definition is_typeddict (t : ty) : bool :=
  match kind_of t with KTypedDict _ _ _ => true | _ => false end.
Definition is_attrs (t : ty) : bool :=
  match kind_of t with KAttrs _ => true | _ => false end.
Definition is_any (t : ty) : bool :=
  match t with TAny => true | _ => false end.
Definition is_newtype (t : ty) : bool :=
  match t with TNewType _ _ => true | _ => false end.

(** The [TypeError] of hashing a value that has no hash. *)
Definition unhashable (v : value) : exn :=
  foreign TypeError (Fmt "unhashable type: '%s'" [Msg (tname (type_of v))]).

(** [set(values)]: every element is hashed, so the first one without a hash
    raises [TypeError].  The set is listed as the elements were given: it is
    only asked whether a value is in it, which a repeated element does not
    change. *)
Definition set_of (values : list value) : outcome (list value) :=
  match find (fun v => negb (hashable v)) values with
  | Some v => Raise (unhashable v)
  | None => Ret values
  end.

(** [value in s] for a set [s]: the value is hashed, which raises
    [TypeError] when it has no hash, and then compared by [==]. *)
Definition set_contains (value : value) (s : list pyvalue) : outcome bool :=
  if hashable value then Ret (py_in value s) else Raise (unhashable value).

(** Modelled from the spec: [typechecks.uniontypes], the alternatives of a
    union, and [typechecks.literalvalues], the set of the declared values
    of a literal type; both raise [ValueError] on another type. *)
Definition uniontypes (t : ty) : outcome (list ty) :=
  match t with
  | TUnion l => Ret l
  | _ => Raise (foreign ValueError (Msg ("Not a union: " ++ tname t)))
  end.

Definition literalvalues (t : ty) : outcome (list value) :=
  match t with
  | TLiteral vs => set_of vs
  | _ => Raise (foreign ValueError (Msg ("Not a Literal: " ++ tname t)))
  end.

(* ===================================================================== *)
(** * The handlers *)
(* ===================================================================== *)

(** [Annotation(AnnotationType.INDEX, i)]. *)
Definition index_annotation (i : nat) : option Annotation :=
  Some (INDEX, OVal (VInt (Z.of_nat i))).

(** [[l.load(v, t, annotation=Annotation(INDEX, i)) for i, v in
    enumerate(value)]], from index [i] on. *)
Fixpoint load_each (load : load_t) (t : ty) (i : nat) (vs : list value)
  : M (list value) :=
  match vs with
  | [] => ret []
  | v :: vs' =>
      r <- load v t (index_annotation i) ;;
      rs <- load_each load t (S i) vs' ;;
      ret (r :: rs)
  end.

(** The same, collecting the results into a set: an unhashable result
    raises [TypeError] when it is added. *)
Fixpoint load_each_set (load : load_t) (t : ty) (i : nat) (vs acc : list value)
  : M (list value) :=
  match vs with
  | [] => ret acc
  | v :: vs' =>
      r <- load v t (index_annotation i) ;;
      if hashable r
      then load_each_set load t (S i) vs' (set_add r acc)
      else raise (foreign TypeError
                    (Fmt "unhashable type: '%s'" [Msg (tname (type_of r))]))
  end.

(** [tuple(l.load(v, t, ...) for i, (v, t) in enumerate(zip(value, args)))]. *)
Fixpoint load_zip (load : load_t) (i : nat) (vs : list value) (ts : list ty)
  : M (list value) :=
  match vs, ts with
  | v :: vs', t :: ts' =>
      r <- load v t (index_annotation i) ;;
      rs <- load_zip load (S i) vs' ts' ;;
      ret (r :: rs)
  | _, _ => ret []
  end.

Definition _anyload : loader_fn :=
  fun l load value type_ => ret value.

(** Checks if the value is within the allowed literals and returns it. *)
Definition _literalload : loader_fn :=
  fun l load value type_ =>
    vals <- lift (literalvalues type_) ;;
    found <- lift (set_contains value vals) ;;
    if found then ret value
    else raise (new_exn TypedloadValueError
                  (Fmt "Not one of the allowed values in %s" [Msg (tname type_)])
                  (Some value) (Some type_) []).

Definition _noneload : loader_fn :=
  fun l load value type_ =>
    match value with
    | VNone => ret VNone
    | _ => raise (new_exn TypedloadValueError (Msg "Not None")
                    (Some value) (Some type_) [])
    end.

Definition _basicload : loader_fn :=
  fun l load value type_ =>
    if negb (ty_eqb (type_of value) type_) then
      if basiccast l then
        match call type_ [value] [] with
        | CtorOk v => ret v
        | CtorRaise c m =>
            if is_ValueError c then
              raise (new_exn TypedloadValueError m (Some value) (Some type_) [])
            else if is_TypeError c then
              raise (new_exn TypedloadTypeError m (Some value) (Some type_) [])
            else
              raise (new_exn TypedloadException m (Some value) (Some type_) [])
        | CtorUndef => undef
        end
      else
        raise (new_exn TypedloadValueError
                 (Fmt "Got %s of type %s, expected %s"
                    [Repr value; Msg (tname (type_of value)); Msg (tname type_)])
                 (Some value) (Some type_) [])
    else ret value.

(** [except TypeError as e] of [_listload]: a failure of the engine is
    raised again, another [TypeError] is wrapped. *)
Definition listload_except (value : value) (type_ : ty) (e : exn) : exn :=
  if is_TypeError (e_class e) then
    if recognized e then e
    else new_exn TypedloadTypeError (str_exn e) (Some value) (Some type_) []
  else e.

Definition _listload : loader_fn :=
  fun l load value type_ =>
    if is_dict_instance value then
      raise (new_exn TypedloadTypeError (Msg "Unable to load dictionary as a list")
               (Some value) (Some type_) [])
    else
      t <- lift (type_arg0 type_) ;;
      fun st =>
        match (vs <- lift (iterate value) ;; load_each load t 0 vs) st with
        | (Ret rs, st') => (Ret (VList rs), st')
        | (Raise e, st') => (Raise (listload_except value type_ e), st')
        | (Undef, st') => (Undef, st')
        end.

Definition _setload : loader_fn :=
  fun l load value type_ =>
    if is_dict_instance value then
      raise (new_exn TypedloadTypeError (Msg "Unable to load dictionary as a set")
               (Some value) (Some type_) [])
    else
      t <- lift (type_arg0 type_) ;;
      vs <- lift (iterate value) ;;
      rs <- load_each_set load t 0 vs [] ;;
      ret (VSet rs).

Definition _frozensetload : loader_fn :=
  fun l load value type_ =>
    if is_dict_instance value then
      raise (new_exn TypedloadTypeError
               (Msg "Unable to load dictionary as a frozenset")
               (Some value) (Some type_) [])
    else
      t <- lift (type_arg0 type_) ;;
      vs <- lift (iterate value) ;;
      rs <- load_each_set load t 0 vs [] ;;
      ret (VFrozenSet rs).

(** [len(args) == 2 and args[1] == ...]. *)
Definition is_variadic (args : list ty) : option ty :=
  match args with
  | [a; b] => if ty_eqb b TEllipsis then Some a else None
  | _ => None
  end.

Definition _tupleload : loader_fn :=
  fun l load value type_ =>
    if is_dict_instance value then
      raise (new_exn TypedloadTypeError (Msg "Unable to load dictionary as a tuple")
               (Some value) (Some type_) [])
    else
      args <- lift (type_args type_) ;;
      match is_variadic args with
      | Some a =>
          vs <- lift (iterate value) ;;
          rs <- load_each load a 0 vs ;;
          ret (VTuple rs)
      | None =>
          n <- lift (py_len value) ;;
          if failonextra l && (List.length args <? n)%nat then
            raise (new_exn TypedloadValueError
                     (Fmt "Value is too long for type %s" [Msg (tname type_)])
                     (Some value) (Some type_) [])
          else if (n <? List.length args)%nat then
            raise (new_exn TypedloadValueError
                     (Fmt "Value is too short for type %s" [Msg (tname type_)])
                     (Some value) (Some type_) [])
          else
            vs <- lift (iterate value) ;;
            rs <- load_zip load 0 vs args ;;
            ret (VTuple rs)
      end.

(** Helper function to convert classes that are functionally the same as a
    dict into a dict; only [argparse.Namespace] has [_get_kwargs]. *)
Definition _dictequivalence (l : Loader) : value -> value := fun value =>
  match value with
  | VNamespace kw =>
      if dictequivalence l
      then VDict (map (fun kv => (VStr (fst kv), snd kv)) kw)
      else value
  | _ => value
  end.

(** [newvalue is value], for [newvalue = _dictequivalence(l, value)]. *)
Definition dictequivalence_same (l : Loader) (value : value) : bool :=
  match value with
  | VNamespace _ => negb (dictequivalence l)
  | _ => true
  end.

(** The dict comprehension of [_dictload]: key first, then value. *)
Fixpoint load_items (load : load_t) (key_type value_type : ty)
    (items acc : list (value * value)) : M (list (value * value)) :=
  match items with
  | [] => ret acc
  | (k, v) :: items' =>
      rk <- load k key_type (Some (KEY, OVal k)) ;;
      rv <- load v value_type (Some (VALUE, OVal v)) ;;
      if hashable rk
      then load_items load key_type value_type items' (dict_set rk rv acc)
      else raise (foreign TypeError
                    (Fmt "unhashable type: '%s'" [Msg (tname (type_of rk))]))
  end.

Definition _dictload : loader_fn :=
  fun l load value type_ =>
    args <- lift (type_args type_) ;;
    match args with
    | [key_type; value_type] =>
        let value := _dictequivalence l value in
        fun st =>
          match (items <- lift (py_items value) ;;
                 load_items load key_type value_type items []) st with
          | (Ret d, st') => (Ret (VDict d), st')
          | (Raise e, st') =>
              if is_AttributeError (e_class e)
              then (Raise (new_exn TypedloadAttributeError (str_exn e)
                             (Some value) (Some type_) []), st')
              else (Raise e, st')
          | (Undef, st') => (Undef, st')
          end
    | _ => raise (foreign ValueError (Msg "wrong number of values to unpack"))
    end.

Definition _datetimeload : loader_fn :=
  fun l load value type_ =>
    let wrap (c : exn_class) (m : message) : M _ :=
      if is_TypeError c
      then raise (new_exn TypedloadTypeError m (Some value) (Some type_) [])
      else raise (foreign c m) in
    match iterate value with
    | Ret args =>
        match call type_ args [] with
        | CtorOk v => ret v
        | CtorRaise c m => wrap c m
        | CtorUndef => undef
        end
    | Raise e => wrap (e_class e) (e_descr e)
    | Undef => undef
    end.

Definition _strconstructload : loader_fn :=
  fun l load value type_ =>
    match call type_ [value] [] with
    | CtorOk v => ret v
    | CtorRaise c m =>
        if is_ValueError c then
          raise (new_exn TypedloadValueError m (Some value) (Some type_) [])
        else if is_TypeError c then
          raise (new_exn TypedloadTypeError m (Some value) (Some type_) [])
        else
          raise (new_exn TypedloadException m (Some value)
                   (Some (TClass "type")) [])
    | CtorUndef => undef
    end.

Definition _forwardrefload : loader_fn :=
  fun l load value type_ =>
    st <- get_state ;;
    match frefs st with
    | None =>
        raise (new_exn TypedloadException
                 (Msg "ForwardRef resolving is disabled for the loader")
                 (Some value) (Some type_) [])
    | Some table =>
        match type_ with
        | TForwardRef tname =>
            match assoc tname table with
            | None =>
                raise (new_exn TypedloadValueError
                         (Fmt "ForwardRef '%s' unknown" [Msg tname])
                         (Some value) (Some type_) [])
            | Some t => load value t (Some (FORWARDREF, OVal (VStr tname)))
            end
        | _ => raise (foreign AttributeError (Msg "__forward_arg__"))
        end
    end.

Definition _newtypeload : loader_fn :=
  fun l load value type_ =>
    match type_ with
    | TNewType _ supertype => load value supertype None
    | _ => raise (foreign AttributeError (Msg "__supertype__"))
    end.

(* --------------------------------------------------------------------- *)
(** ** Records *)
(* --------------------------------------------------------------------- *)

(** The loop of [_mangle_names]; [r] is the new dictionary. *)
Fixpoint mangle_loop (namesmap : list (value * value)) (skip : list value)
    (failonextra : bool) (items r : list (value * value))
  : outcome (list (value * value)) :=
  match items with
  | [] => Ret r
  | (k, v) :: items' =>
      if py_in k skip && negb (dict_has k namesmap) then
        if failonextra
        then Raise (foreign ValueError (Fmt "Extra field: %s" [Str k]))
        else mangle_loop namesmap skip failonextra items' r
      else
        let k' := match dict_get k namesmap with
                  | Some pyname => pyname
                  | None => k
                  end in
        mangle_loop namesmap skip failonextra items' (dict_set k' v r)
  end.

(** Mangling names of a dictionary.  [namesmap] is the mapping to be
    applied, in the format [dataname] = pyname. *)
Definition _mangle_names (namesmap : list (value * value))
  : value -> bool -> outcome value := fun value failonextra =>
  match namesmap with
  | [] => Ret value
  | _ =>
      let r := [] in
      let skip := map snd namesmap in
      match py_items value with
      | Ret items =>
          match mangle_loop namesmap skip failonextra items r with
          | Ret r' => Ret (VDict r')
          | Raise e => Raise e
          | Undef => Undef
          end
      | Raise e => Raise e
      | Undef => Undef
      end
  end.

(** Sets of field names against the keys of the value. *)
Definition names_inter (names : list string) (keys : list value) : list string :=
  filter (fun n => py_in (VStr n) keys) names.

Definition names_diff (names : list string) (keys : list value) : list string :=
  filter (fun n => negb (py_in (VStr n) keys)) names.

Definition names_minus (names others : list string) : list string :=
  filter (fun n => negb (name_in n others)) names.

Definition names_eqb (a b : list string) : bool :=
  forallb (fun n => name_in n b) a && forallb (fun n => name_in n a) b.

(** [k in fields], with the name when it is one. *)
Definition field_name (k : value) (fields : list string) : option string :=
  match k with
  | VStr s => if name_in s fields then Some s else None
  | _ => None
  end.

(** [', '.join(keys)]: every item has to be a string. *)
Fixpoint join_names (keys : list value) : option (list string) :=
  match keys with
  | [] => Some []
  | VStr s :: keys' =>
      match join_names keys' with
      | Some names => Some (s :: names)
      | None => None
      end
  | _ => None
  end.

(** [params[k] = v]. *)
Fixpoint params_set (k : string) (v : value) (params : list (string * value))
  : list (string * value) :=
  match params with
  | [] => [(k, v)]
  | (k', v') :: params' =>
      if String.eqb k k' then (k', v) :: params'
      else (k', v') :: params_set k v params'
  end.

(** The loop of [_objloader] over [value.items()]. *)
Fixpoint objloader_loop (l : Loader) (load : load_t) (fields : list string)
    (type_hints : list (string * ty)) (vfields : list value) (type_ : ty)
    (v0 : value) (items : list (value * value)) (params : list (string * value))
  : M (list (string * value)) :=
  match items with
  | [] => ret params
  | (k, v) :: items' =>
      match field_name k fields with
      | None =>
          if failonextra l then
            match join_names
                    (filter (fun k' => match field_name k' fields with
                                       | None => true
                                       | Some _ => false
                                       end) vfields) with
            | Some extra =>
                raise (new_exn TypedloadValueError
                         (Fmt "Dictionary has unrecognized fields: %s and cannot be loaded into %s"
                            [Join ", " (map Msg extra); Msg (tname type_)])
                         (Some v0) (Some type_) [])
            | None =>
                raise (foreign TypeError (Msg "sequence item: expected str instance"))
            end
          else objloader_loop l load fields type_hints vfields type_ v0 items' params
      | Some name =>
          match assoc name type_hints with
          | None => raise (foreign KeyError (Repr k))
          | Some t =>
              r <- load v t (Some (FIELD, OVal k)) ;;
              objloader_loop l load fields type_hints vfields type_ v0 items'
                (params_set name r params)
          end
      end
  end.

(** [type_( **params)] with the two [except] clauses of [_objloader]. *)
Definition construct (type_ : ty) (params : list (string * value)) : M value :=
  match call type_ [] params with
  | CtorOk v => ret v
  | CtorRaise c m =>
      if is_TypeError c then
        raise (new_exn TypedloadTypeError (OfExn c m) None None [])
      else if is_ValueError c then
        raise (new_exn TypedloadValueError (OfExn c m) None None [])
      else raise (foreign c m)
  | CtorUndef => undef
  end.

(** Helper function to load dict-like data into an object. *)
Definition _objloader (l : Loader) (load : load_t)
    (fields necessary_fields : list string) (type_hints : list (string * ty))
  : value -> ty -> M value := fun value type_ =>
  let keyed : outcome (pyvalue * list pyvalue) :=
    match py_keys value with
    | Ret vfields => Ret (value, vfields)
    | Raise e =>
        let newvalue := _dictequivalence l value in
        if dictequivalence_same l value then
          Raise (new_exn TypedloadAttributeError (str_exn e)
                   (Some value) (Some type_) [])
        else
          match py_keys newvalue with
          | Ret vfields => Ret (newvalue, vfields)
          | Raise e' => Raise e'
          | Undef => Undef
          end
    | Undef => Undef
    end in
  p <- lift keyed ;;
  let '(value, vfields) := p in
  if negb (names_eqb (names_inter necessary_fields vfields) necessary_fields) then
    raise (new_exn TypedloadValueError
             (Fmt "Value does not contain fields: %s which are necessary for type %s"
                [NameSet (names_diff necessary_fields vfields); Msg (tname type_)])
             (Some value) (Some type_) [])
  else
    items <- lift (py_items value) ;;
    params <- objloader_loop l load fields type_hints vfields type_ value items [] ;;
    construct type_ params.

(** [type_.__annotations__] and [type_._field_defaults]. *)
Definition annotations_of (t : ty) : outcome (list (string * ty)) :=
  match kind_of t with
  | KNamedTuple a _ | KTypedDict a _ _ => Ret a
  | _ => Raise (foreign AttributeError (Msg "__annotations__"))
  end.

Definition field_defaults_of (t : ty) : list (string * value) :=
  match kind_of t with
  | KNamedTuple _ d => d
  | _ => []
  end.

Definition _namedtupleload : loader_fn :=
  fun l load value type_ =>
    type_hints <- lift (annotations_of type_) ;;
    let fields := map fst type_hints in
    let optional_fields := map fst (field_defaults_of type_) in
    let necessary_fields := names_minus fields optional_fields in
    _objloader l load fields necessary_fields type_hints value type_.

Definition _typeddictload : loader_fn :=
  fun l load value type_ =>
    type_hints <- lift (annotations_of type_) ;;
    let fields := map fst type_hints in
    let necessary_fields :=
      match kind_of type_ with
      | KTypedDict _ (Some required_keys) _ => required_keys
      | KTypedDict _ None false => []
      | _ => fields
      end in
    _objloader l load fields necessary_fields type_hints value type_.

(** The two [except] clauses around [_mangle_names]. *)
Definition mangle_except (value : value) (type_ : ty) (e : exn) : exn :=
  if is_ValueError (e_class e) then
    new_exn TypedloadValueError (str_exn e) (Some value) (Some type_) []
  else if is_AttributeError (e_class e) then
    new_exn TypedloadAttributeError (str_exn e) (Some value) (Some type_) []
  else e.

(** [transforms[name] = pyname], for a hashable name. *)
Definition namesmap_set (name : value) (pyname : string)
    (m : outcome (list (value * value))) : outcome (list (value * value)) :=
  match m with
  | Ret d =>
      if hashable name then Ret (dict_set name (VStr pyname) d)
      else Raise (foreign TypeError
                    (Fmt "unhashable type: '%s'" [Msg (tname (type_of name))]))
  | other => other
  end.

(** The list of the needed name changes of a dataclass, the fields taken in
    the order of their declaration. *)
Definition dataclass_transforms (l : Loader) (flds : list dc_field)
  : outcome (list (value * value)) :=
  fold_left
    (fun m f =>
       match f_metadata f with
       | [] => m
       | md =>
           match assoc (mangle_key l) md with
           | Some name => if truthy name then namesmap_set name (f_name f) m else m
           | None => m
           end
       end)
    flds (Ret []).

Definition _dataclassload : loader_fn :=
  fun l load value type_ =>
    match kind_of type_ with
    | KDataclass flds =>
        let fields := map f_name flds in
        let necessary_fields :=
          map f_name
            (filter (fun v => f_init v
                              && match f_default v with None => true | _ => false end
                              && match f_default_factory v with
                                 | None => true
                                 | _ => false
                                 end) flds) in
        let type_hints := map (fun v => (f_name v, f_type v)) flds in
        transforms <- lift (dataclass_transforms l flds) ;;
        match _mangle_names transforms value (failonextra l) with
        | Ret value' =>
            _objloader l load fields necessary_fields type_hints value' type_
        | Raise e => raise (mangle_except value type_ e)
        | Undef => undef
        end
    | _ => raise (foreign AttributeError (Msg "__dataclass_fields__"))
    end.

(** The [namesmap] that the loop of [_attrload] over the attributes fills. *)
Definition attr_namesmap (l : Loader) (attrs : list attr_attribute)
  : outcome (list (value * value)) :=
  fold_left
    (fun m a =>
       match assoc (mangle_key l) (a_metadata a) with
       | Some name => namesmap_set name (a_name a) m
       | None => m
       end)
    attrs (Ret []).

(** [attribute.default is NOTHING], as [_attrload] asks it.  Its first
    line, [from attr._make import _Nothing as NOTHING], gives the name
    [NOTHING] to the class [_Nothing].  The default of an attribute is a
    value or, for an attribute without default, the marker [attr.NOTHING],
    which is the instance of that class ([None] here) and not the class:
    the test holds for neither. *)
Definition default_is_NOTHING (default : option value) : bool :=
  match default with
  | Some _ => false
  | None => false
  end.

Definition _attrload : loader_fn :=
  fun l load value type_ =>
    match kind_of type_ with
    | KAttrs attrs =>
        let fields := map a_name attrs in
        let type_hints := map (fun i => (a_name i, a_type i)) attrs in
        let necessary_fields :=
          map a_name
            (filter (fun attribute => default_is_NOTHING (a_default attribute)
                                      && a_init attribute) attrs) in
        namesmap <- lift (attr_namesmap l attrs) ;;
        match _mangle_names namesmap value (failonextra l) with
        | Ret value' =>
            _objloader l load fields necessary_fields type_hints value' type_
        | Raise e => raise (mangle_except value type_ e)
        | Undef => undef
        end
    | _ => raise (foreign AttributeError (Msg "__attrs_attrs__"))
    end.

(* --------------------------------------------------------------------- *)
(** ** Enumerations *)
(* --------------------------------------------------------------------- *)

(** The loop of [_enumload] over the type hints of the enumeration. *)
Fixpoint enum_hints_loop (load : load_t) (type_ : ty) (v : value)
    (hints : list (string * ty)) (exceptions : list exn)
  : M (value + list exn) :=
  match hints with
  | [] => ret (inr exceptions)
  | (_, t) :: hints' =>
      fun st =>
        match load v t (Some (UNION, OType t)) st with
        | (Ret r, st') =>
            match call type_ [r] [] with
            | CtorOk m => (Ret (inl m), st')
            | CtorRaise c msg =>
                enum_hints_loop load type_ v hints'
                  (exceptions ++ [foreign c msg])%list st'
            | CtorUndef => (Undef, st')
            end
        | (Raise e, st') =>
            enum_hints_loop load type_ v hints' (exceptions ++ [e])%list st'
        | (Undef, st') => (Undef, st')
        end
  end.

Definition _enumload : loader_fn :=
  fun l load value type_ =>
    match call type_ [value] [] with
    | CtorOk m => ret m
    | CtorUndef => undef
    | CtorRaise _ _ =>
        match kind_of type_ with
        | KEnum members hints =>
            r <- enum_hints_loop load type_ value hints [] ;;
            match r with
            | inl m => ret m
            | inr exceptions =>
                let lst :=
                  if (List.length members <=? 10)%nat
                     && forallb (fun i => ty_in (type_of (snd i)) (basictypes l))
                          members
                  then Cat (Fmt "\nValue %s not between: " [Repr value])
                           (Join ", " (map (fun i => Repr (snd i)) members))
                  else Msg "" in
                raise (new_exn TypedloadValueError
                         (Fmt "Value of %s could not be loaded into %s%s"
                            [Msg (tname (type_of value)); Msg (tname type_); lst])
                         (Some value) (Some type_) exceptions)
            end
        | _ => raise (foreign AttributeError (Msg "__members__"))
        end
    end.

(* --------------------------------------------------------------------- *)
(** ** Unions *)
(* --------------------------------------------------------------------- *)

(** [list.sort(key=...)] for a boolean key: a stable sort, [False] before
    [True].  An element is put before the first one whose key is not
    smaller, so that equal keys keep their order. *)
Fixpoint insert_by_key {A} (key : A -> bool) (x : A) (l : list A) : list A :=
  match l with
  | [] => [x]
  | y :: l' =>
      if implb (key x) (key y) then x :: y :: l'
      else y :: insert_by_key key x l'
  end.

Fixpoint sort_by_key {A} (key : A -> bool) (l : list A) : list A :=
  match l with
  | [] => []
  | x :: l' => insert_by_key key x (sort_by_key key l')
  end.

(** The [for t in sorted_args] loop of [_unionload], on the variables
    [r], [loaded_count] and [exceptions]. *)
Fixpoint union_loop (l : Loader) (load : load_t) (v : value) (ts : list ty)
    (acc : value * nat * list exn) : M (value * nat * list exn) :=
  match ts with
  | [] => ret acc
  | t :: ts' =>
      fun st =>
        let '(r, loaded_count, exceptions) := acc in
        match load v t (Some (UNION, OType t)) st with
        | (Ret r', st') =>
            if negb (uniondebugconflict l)
            then (Ret (r', S loaded_count, exceptions), st')
            else union_loop l load v ts' (r', S loaded_count, exceptions) st'
        | (Raise e, st') =>
            if recognized e
            then union_loop l load v ts' (r, loaded_count, (exceptions ++ [e])%list) st'
            else (Raise e, st')
        | (Undef, st') => (Undef, st')
        end
  end.

(** Loads a value into a union.  Basically this iterates all the types
    inside the union, until one that doesn't raise an exception is found. *)
Definition _unionload : loader_fn :=
  fun l load value type_ =>
    args <- lift (uniontypes type_) ;;
    let value_type := type_of value in
    if ty_in value_type (basictypes l) && ty_in value_type args then ret value
    else
      let sorted_args := sort_by_key (fun i => ty_in i (basictypes l)) args in
      acc <- union_loop l load value sorted_args (VNone, O, []) ;;
      let '(r, loaded_count, exceptions) := acc in
      if (loaded_count =? 1)%nat then ret r
      else if (loaded_count =? 0)%nat then
        raise (new_exn TypedloadValueError
                 (Fmt "Value of %s could not be loaded into %s"
                    [Msg (tname value_type); Msg (tname type_)])
                 (Some value) (Some type_) exceptions)
      else
        raise (new_exn TypedloadTypeError
                 (Fmt "Value of %s could be loaded into %s %d times"
                    [Msg (tname value_type); Msg (tname type_);
                     Num (Z.of_nat loaded_count)])
                 (Some value) (Some type_) exceptions).

(* ===================================================================== *)
(** * The dispatch table and the engine ([Loader.index], [Loader.load]) *)
(* ===================================================================== *)

(** [Loader.index]: the index in the handlers list that matches the type,
    counting from [i]. *)
Fixpoint index_from (l : Loader) (type_ : ty) (i : nat) (handlers : list handler)
  : outcome nat :=
  match handlers with
  | [] => Raise (foreign ValueError (Msg "No matching condition found"))
  | (cond, _) :: handlers' =>
      match cond l type_ with
      | Ret true => Ret i
      | Ret false => index_from l type_ (S i) handlers'
      | Raise e =>
          if raiseconditionerrors l then Raise e
          else index_from l type_ (S i) handlers'
      | Undef => Undef
      end
  end.

Definition index (l : Loader) (handlers : list handler) (type_ : ty)
  : outcome nat :=
  index_from l type_ 0 handlers.

(** [self._indexcache.get(type_)]. *)
Fixpoint cache_get (t : ty) (cache : list (ty * nat)) : option nat :=
  match cache with
  | [] => None
  | (t', i) :: cache' => if ty_eqb t t' then Some i else cache_get t cache'
  end.

(** [hasattr(type_, '__name__')] and the name: a class and a [NewType] have
    a name. *)
Definition type_name (t : ty) : option string :=
  match t with
  | TClass n => Some n
  | TNewType n _ => Some n
  | _ => None
  end.

(** Add type to known types, to resolve ForwardRef later on. *)
Definition register_fref (type_ : ty) (fr : option (list (string * ty)))
  : option (list (string * ty)) :=
  match fr, type_name type_ with
  | Some table, Some typename =>
      match assoc typename table with
      | Some _ => Some table
      | None => Some (table ++ [(typename, type_)])%list
      end
  | _, _ => fr
  end.

(** The [TypedloadTypeError] of [load] for a type no handler matches. *)
Definition cannot_deal (v : value) (type_ : ty) : exn :=
  new_exn TypedloadTypeError
    (Fmt "Cannot deal with value of type %s" [Msg (tname type_)])
    (Some v) (Some type_) [].

(** The [try] of [load] around the handler: a failure of the engine gets a
    trace entry in front; the [assert] fails on any other exception. *)
Definition run_handler (func : loader_fn) (l : Loader) (load : load_t)
    (v : value) (type_ : ty) (annotation : option Annotation) : M value :=
  fun st =>
    match func l load v type_ st with
    | (Ret r, st') => (Ret r, st')
    | (Raise e, st') =>
        if recognized e
        then (Raise (trace_insert0 (mkTraceItem v type_ annotation) e), st')
        else (Raise (foreign AssertionError (Msg "")), st')
    | (Undef, st') => (Undef, st')
    end.

(** The first half of [load]: the index of the handler, from the cache or
    from [index], with the updates of the cache and of the
    forward-reference table. *)
Definition find_index (l : Loader) (handlers : list handler) (v : value)
    (type_ : ty) : M nat :=
  fun st =>
    match cache_get type_ (_indexcache st) with
    | Some p_index => (Ret p_index, st)
    | None =>
        match index l handlers type_ with
        | Ret i =>
            (Ret i, mkState (register_fref type_ (frefs st))
                            ((type_, i) :: _indexcache st))
        | Raise e =>
            if is_ValueError (e_class e)
            then (Raise (cannot_deal v type_), st)
            else (Raise e, st)
        | Undef => (Undef, st)
        end
    end.

(** [Loader.load]: loads [value] into the typed data structure.  The
    recursion is bounded by [fuel]. *)
Fixpoint load (fuel : nat) (l : Loader) (handlers : list handler)
    (v : value) (type_ : ty) (annotation : option Annotation) : M value :=
  match fuel with
  | O => undef
  | S fuel' =>
      i <- find_index l handlers v type_ ;;
      match nth_error handlers i with
      | Some (_, func) =>
          run_handler func l (load fuel' l handlers) v type_ annotation
      | None =>
          raise (foreign (OtherError "IndexError") (Msg "list index out of range"))
      end
  end.

(** The handlers of a new [Loader], in their order. *)
Definition cond_of (p : ty -> bool) : cond_fn := fun _ t => Ret (p t).

Definition default_handlers : list handler :=
  [ (cond_of is_nonetype, _noneload);
    (cond_of is_union, _unionload);
    ((fun l type_ => Ret (ty_in type_ (basictypes l))), _basicload);
    (cond_of is_enum, _enumload);
    (cond_of is_tuple, _tupleload);
    (cond_of is_list, _listload);
    (cond_of is_dict, _dictload);
    (cond_of is_set, _setload);
    (cond_of is_frozenset, _frozensetload);
    (cond_of is_namedtuple, _namedtupleload);
    (cond_of is_dataclass, _dataclassload);
    (cond_of is_forwardref, _forwardrefload);
    (cond_of is_literal, _literalload);
    (cond_of is_typeddict, _typeddictload);
    ((fun _ type_ =>
        Ret (ty_in type_ [TClass "date"; TClass "time"; TClass "datetime"])),
     _datetimeload);
    ((fun l type_ => Ret (ty_in type_ (strconstructed l))), _strconstructload);
    (cond_of is_attrs, _attrload);
    (cond_of is_any, _anyload);
    (cond_of is_newtype, _newtypeload) ].

End WithClasses.

(** [Loader()]: the options of a new loader, and its state. *)
Definition default_loader : Loader :=
  {| basictypes := [Tint; Tbool; Tfloat; Tstr; NONETYPE];
     basiccast := true;
     failonextra := false;
     raiseconditionerrors := true;
     dictequivalence := true;
     mangle_key := "name";
     uniondebugconflict := false;
     strconstructed :=
       [TClass "Path"; TClass "IPv4Address"; TClass "IPv6Address";
        TClass "IPv4Network"; TClass "IPv6Network";
        TClass "IPv4Interface"; TClass "IPv6Interface"] |}.

Definition new_state : state := {| frefs := Some []; _indexcache := [] |}.

(** [typedload.load(value, type_)]: a new loader for every call. *)
Definition typedload_load (classes : class_table) (fuel : nat) (v : value)
    (type_ : ty) : outcome value :=
  fst (load fuel default_loader (default_handlers classes) v type_ None
         new_state).

(* ===================================================================== *)
(** * Record classes and their generated constructors *)
(* ===================================================================== *)

(** The constructors that [NamedTuple], [dataclass], [attr.s] and
    [TypedDict] generate, for a call with keyword arguments (the only call
    the record loader makes): an unknown keyword or a missing argument
    without default is a [TypeError]; the defaults fill the arguments left
    out; then the hook of the class ([__post_init__], a validator) may
    reject the instance with an exception of its own. *)
Module Records.

Definition hook_t : Type := list (string * value) -> option (exn_class * message).

Definition no_hook : hook_t := fun _ => None.

(** The parameters of [__init__] in order, each with its default. *)
Definition bind_kwargs (params : list (string * option value))
    (kwargs : list (string * value)) : list (string * value) + message :=
  match find (fun kv => negb (name_in (fst kv) (map fst params))) kwargs with
  | Some (k, _) =>
      inr (Fmt "__init__() got an unexpected keyword argument '%s'" [Msg k])
  | None =>
      match filter (fun p => match snd p with
                             | None => negb (name_in (fst p) (map fst kwargs))
                             | Some _ => false
                             end) params with
      | [] =>
          inl (map (fun p =>
                      (fst p,
                       match assoc (fst p) kwargs, snd p with
                       | Some v, _ => v
                       | None, Some d => d
                       | None, None => VNone
                       end)) params)
      | missing =>
          inr (Fmt "__init__() missing %d required positional arguments: %s"
                 [Num (Z.of_nat (List.length missing));
                  Join ", " (map (fun p => Msg (fst p)) missing)])
      end
  end.

(** An instance of class [cls]: the bound arguments, then the attributes
    that are not arguments of [__init__] and have a default. *)
Definition record_call (cls : string) (params : list (string * option value))
    (others : list (string * value)) (hook : hook_t)
  : list value -> list (string * value) -> ctor_result :=
  fun args kwargs =>
    match args with
    | [] =>
        match bind_kwargs params kwargs with
        | inl bound =>
            let attrs := (bound ++ others)%list in
            match hook attrs with
            | None => CtorOk (VObj cls attrs)
            | Some (c, m) => CtorRaise c m
            end
        | inr m => CtorRaise TypeError m
        end
    | _ => CtorUndef
    end.

Fixpoint defaults_of {A} (name : A -> string) (dflt : A -> option value)
    (l : list A) : list (string * value) :=
  match l with
  | [] => []
  | a :: l' =>
      match dflt a with
      | Some d => (name a, d) :: defaults_of name dflt l'
      | None => defaults_of name dflt l'
      end
  end.

(** [@attr.s class cls], with the attributes [attrs]. *)
Definition attrs_class (cls : string) (attrs : list attr_attribute)
    (hook : hook_t) : pyclass :=
  mkClass (KAttrs attrs) false
    (record_call cls
       (map (fun a => (a_name a, a_default a)) (filter a_init attrs))
       (defaults_of a_name a_default (filter (fun a => negb (a_init a)) attrs))
       hook).

(** [@dataclass class cls], with the fields [flds]. *)
Definition dc_default (f : dc_field) : option value :=
  match f_default f with
  | Some d => Some d
  | None => f_default_factory f
  end.

Definition dataclass_class (cls : string) (flds : list dc_field)
    (hook : hook_t) : pyclass :=
  mkClass (KDataclass flds) false
    (record_call cls
       (map (fun f => (f_name f, dc_default f)) (filter f_init flds))
       (defaults_of f_name dc_default (filter (fun f => negb (f_init f)) flds))
       hook).

(** [class cls(NamedTuple)], with its annotations and defaults.  The hash
    of a named tuple is that of its fields, which are taken to have one. *)
Definition namedtuple_class (cls : string) (annotations : list (string * ty))
    (field_defaults : list (string * value)) : pyclass :=
  mkClass (KNamedTuple annotations field_defaults) true
    (record_call cls
       (map (fun a => (fst a, assoc (fst a) field_defaults)) annotations)
       [] no_hook).

(** [class cls(TypedDict)]: calling it builds a dict. *)
Definition typeddict_class (annotations : list (string * ty))
    (required_keys : option (list string)) (total : bool) : pyclass :=
  mkClass (KTypedDict annotations required_keys total) false
    (fun args kwargs =>
       match args with
       | [] => CtorOk (VDict (map (fun kv => (VStr (fst kv), snd kv)) kwargs))
       | _ => CtorUndef
       end).

(** A class of which the model knows nothing but the name. *)
Definition opaque_class : pyclass :=
  mkClass KPlain true (fun _ _ => CtorUndef).

End Records.

(* ===================================================================== *)
(** * The classes of [tests/test_attrload.py] *)
(* ===================================================================== *)

Module TestAttrload.
Import Records.

Definition Optional (t : ty) : ty := TUnion [t; NONETYPE].

(** [class Person: name = attr.ib(default='Turiddu', type=str);
    address = attr.ib(type=Optional[str], default=None)]. *)
Definition Person_attrs : list attr_attribute :=
  [ mkAttribute "name" Tstr (Some (VStr "Turiddu")) true [];
    mkAttribute "address" (Optional Tstr) (Some VNone) true [] ].

(** [class Students: course = attr.ib(type=str);
    students = attr.ib(type=List[Person])]. *)
Definition Students_attrs : list attr_attribute :=
  [ mkAttribute "course" Tstr None true [];
    mkAttribute "students" (TList (TClass "Person")) None true [] ].

(** [class Mangle: value = attr.ib(type=int, metadata={'name': 'va.lue'})]. *)
Definition Mangle_attrs : list attr_attribute :=
  [ mkAttribute "value" Tint None true [("name", VStr "va.lue")] ].

Definition classes : class_table := fun n =>
  if String.eqb n "Person" then attrs_class "Person" Person_attrs no_hook
  else if String.eqb n "Students" then attrs_class "Students" Students_attrs no_hook
  else if String.eqb n "Mangle" then attrs_class "Mangle" Mangle_attrs no_hook
  else opaque_class.

Definition Person : ty := TClass "Person".
Definition Students : ty := TClass "Students".
Definition Mangle : ty := TClass "Mangle".

Definition str_key (s : string) : value := VStr s.

(** [{'course': 'x', 'students': [{'name': 'A'}, 3]}]. *)
Definition data : value :=
  VDict [ (VStr "course", VStr "x");
          (VStr "students",
           VList [ VDict [(VStr "name", VStr "A")]; VInt 3 ]) ].

End TestAttrload.


(* ===================================================================== *)
(** * The documented priority order *)
(* ===================================================================== *)





(** The cache agrees with [index] on a type: an entry, when there is one,
    holds the index [index] returns.  A new loader has no entry, and [load]
    only adds the entries [index] returned. *)
Definition cache_entry_ok (l : Loader) (handlers : list handler) (t : ty)
    (st : state) : Prop :=
  match cache_get t (_indexcache st) with
  | Some i => index l handlers t = Ret i
  | None => True
  end.

(** The state [load] leaves for the handler it has looked up. *)
Definition state_after_lookup (t : ty) (i : nat) (st : state) : state :=
  match cache_get t (_indexcache st) with
  | Some _ => st
  | None => mkState (register_fref t (frefs st)) ((t, i) :: _indexcache st)
  end.





(* ===================================================================== *)
(** * The attempts of the union resolver *)
(* ===================================================================== *)

(** What the attempts on the alternatives [ts] give, one after the other
    from the state [st]: for each alternative its result or its failure,
    and the state left.  There is no answer when an attempt ends otherwise
    (an exception that is not the engine's, or [Undef]). *)
Fixpoint try_all (load : load_t) (v : value) (ts : list ty) (st : state)
  : option (list (value + exn) * state) :=
  match ts with
  | [] => Some ([], st)
  | t :: ts' =>
      match load v t (Some (UNION, OType t)) st with
      | (Ret r, st') =>
          match try_all load v ts' st' with
          | Some (outs, st'') => Some (inl r :: outs, st'')
          | None => None
          end
      | (Raise e, st') =>
          if recognized e then
            match try_all load v ts' st' with
            | Some (outs, st'') => Some (inr e :: outs, st'')
            | None => None
            end
          else None
      | (Undef, _) => None
      end
  end.

Fixpoint successes (outs : list (value + exn)) : list value :=
  match outs with
  | [] => []
  | inl r :: outs' => r :: successes outs'
  | inr _ :: outs' => successes outs'
  end.

Fixpoint failures (outs : list (value + exn)) : list exn :=
  match outs with
  | [] => []
  | inl _ :: outs' => failures outs'
  | inr e :: outs' => e :: failures outs'
  end.

(** The order [_unionload] tries the alternatives in. *)
Definition sorted_args (l : Loader) (args : list ty) : list ty :=
  sort_by_key (fun i => ty_in i (basictypes l)) args.

(** The test of the first lines of [_unionload]. *)
Definition fast_path (l : Loader) (v : value) (args : list ty) : bool :=
  ty_in (type_of v) (basictypes l) && ty_in (type_of v) args.

(** The two failures of [_unionload]. *)
Definition union_no_match (v : value) (type_ : ty) (exceptions : list exn) : exn :=
  new_exn TypedloadValueError
    (Fmt "Value of %s could not be loaded into %s"
       [Msg (tname (type_of v)); Msg (tname type_)])
    (Some v) (Some type_) exceptions.

Definition union_conflict (v : value) (type_ : ty) (loaded_count : nat)
    (exceptions : list exn) : exn :=
  new_exn TypedloadTypeError
    (Fmt "Value of %s could be loaded into %s %d times"
       [Msg (tname (type_of v)); Msg (tname type_); Num (Z.of_nat loaded_count)])
    (Some v) (Some type_) exceptions.

(** A [load] that takes a list for a list type as it is and refuses
    everything else, to run the resolver on its own. *)
Definition list_only_load : load_t :=
  fun v t _ st =>
    match v, t with
    | VList _, TList _ => (Ret v, st)
    | _, _ => (Raise (new_exn TypedloadTypeError (Msg "not a list")
                        (Some v) (Some t) []), st)
    end.



(** The failure of [_literalload]. *)
Definition not_allowed (v : value) (type_ : ty) : exn :=
  new_exn TypedloadValueError
    (Fmt "Not one of the allowed values in %s" [Msg (tname type_)])
    (Some v) (Some type_) [].


(* ===================================================================== *)
(** * The record loaders, side by side *)
(* ===================================================================== *)

(** The fields a record kind requires, as each loader computes its
    [necessary_fields]: for a named tuple the fields without a default, for
    a dataclass the fields of [__init__] with neither default nor default
    factory, for a typed dict the required keys (all keys, or none for a
    non-total one, when the class does not list them), for an attrs class
    the attributes of [__init__] whose default passes the test
    [attribute.default is NOTHING] of [_attrload]. *)
Definition required_fields (k : class_kind) : list string :=
  match k with
  | KNamedTuple annotations field_defaults =>
      names_minus (map fst annotations) (map fst field_defaults)
  | KDataclass flds =>
      map f_name
        (filter (fun v => f_init v
                          && match f_default v with None => true | _ => false end
                          && match f_default_factory v with
                             | None => true
                             | _ => false
                             end) flds)
  | KTypedDict _ (Some required_keys) _ => required_keys
  | KTypedDict _ None false => []
  | KTypedDict annotations None true => map fst annotations
  | KAttrs attrs =>
      map a_name
        (filter (fun attribute => default_is_NOTHING (a_default attribute)
                                  && a_init attribute) attrs)
  | _ => []
  end.

(** The attributes an attrs class cannot be built without: those of
    [__init__] that have no default.  This is what the required fields of
    an attrs class are, whatever [_attrload] takes them to be. *)
Definition attrs_required (attrs : list attr_attribute) : list string :=
  map a_name
    (filter (fun a => match a_default a with None => true | _ => false end
                      && a_init a) attrs).

(** The input after the aliases of the fields are applied: a dataclass and
    an attrs class rename the keys, the other two kinds take the input as
    it is. *)
Definition aliased_input (classes : class_table) (l : Loader) (k : class_kind)
  : value -> outcome value := fun value =>
  match k with
  | KDataclass flds =>
      match dataclass_transforms classes l flds with
      | Ret transforms => _mangle_names transforms value (failonextra l)
      | Raise e => Raise e
      | Undef => Undef
      end
  | KAttrs attrs =>
      match attr_namesmap classes l attrs with
      | Ret namesmap => _mangle_names namesmap value (failonextra l)
      | Raise e => Raise e
      | Undef => Undef
      end
  | _ => Ret value
  end.

(** The loader of a record kind, and its place among the handlers. *)
Definition record_loader (classes : class_table) (k : class_kind) : loader_fn :=
  match k with
  | KNamedTuple _ _ => _namedtupleload classes
  | KDataclass _ => _dataclassload classes
  | KTypedDict _ _ _ => _typeddictload classes
  | KAttrs _ => _attrload classes
  | _ => _anyload
  end.

Definition record_index (k : class_kind) : nat :=
  match k with
  | KNamedTuple _ _ => 9
  | KDataclass _ => 10
  | KTypedDict _ _ _ => 13
  | KAttrs _ => 16
  | _ => 17
  end.

Definition is_record (k : class_kind) : bool :=
  match k with
  | KNamedTuple _ _ | KDataclass _ | KTypedDict _ _ _ | KAttrs _ => true
  | _ => false
  end.

(** The failure of [_objloader] for missing fields. *)
Definition missing_fields (necessary_fields : list string) (vfields : list value)
    (type_ : ty) (v : value) : exn :=
  new_exn TypedloadValueError
    (Fmt "Value does not contain fields: %s which are necessary for type %s"
       [NameSet (names_diff necessary_fields vfields); Msg (tname type_)])
    (Some v) (Some type_) [].

(** The failure of [_objloader] when the constructor of a generated
    [__init__] is called without the argument [name]: the [TypeError] of
    the call, as a [TypedloadTypeError] that holds neither value nor
    type. *)
Definition missing_argument (name : string) : exn :=
  new_exn TypedloadTypeError
    (OfExn TypeError
       (Fmt "__init__() missing %d required positional arguments: %s"
          [Num 1; Join ", " [Msg name]]))
    None None [].

(* ===================================================================== *)
(** * Records of each kind, for the examples *)
(* ===================================================================== *)

Module RecordExamples.
Import Records.

(** [class User(NamedTuple): username: str; shell: str = 'bash';
    sessions: List[str] = []], of the package's introduction. *)
Definition User_class : pyclass :=
  namedtuple_class "User"
    [("username", Tstr); ("shell", Tstr); ("sessions", TList Tstr)]
    [("shell", VStr "bash"); ("sessions", VList [])].

(** [@dataclass class Point: x: int; y: int = 0]. *)
Definition Point_class : pyclass :=
  dataclass_class "Point"
    [ mkField "x" Tint true None None [];
      mkField "y" Tint true (Some (VInt 0)) None [] ]
    no_hook.

(** [class Movie(TypedDict): title: str; year: int]. *)
Definition Movie_class : pyclass :=
  typeddict_class [("title", Tstr); ("year", Tint)]
    (Some ["title"; "year"]) true.

(** [@attr.s class Positive: n = attr.ib(type=int)], whose
    [__attrs_post_init__] raises [ArithmeticError] unless [n] is
    positive. *)
Definition Positive_hook : hook_t := fun attrs =>
  match assoc "n" attrs with
  | Some (VInt n) =>
      if 0 <? n then None
      else Some (OtherError "ArithmeticError", Msg "not positive")
  | _ => None
  end.

Definition Positive_class : pyclass :=
  attrs_class "Positive" [mkAttribute "n" Tint None true []] Positive_hook.

Definition classes : class_table := fun n =>
  if String.eqb n "User" then User_class
  else if String.eqb n "Point" then Point_class
  else if String.eqb n "Movie" then Movie_class
  else if String.eqb n "Positive" then Positive_class
  else TestAttrload.classes n.

End RecordExamples.


(* ===================================================================== *)
(** * The caller's mapping as an object *)
(* ===================================================================== *)

(** To tell a dict that is written to from a copy of it, the dicts the
    attribute loader handles are objects of a heap, known by their
    address: the caller's mapping, and the dictionary [r] that
    [_mangle_names] creates and fills. *)
Definition heap : Type := list (list (value * value)).

Definition heap_get (h : heap) (a : nat) : option (list (value * value)) :=
  nth_error h a.

(** A new object, at the first free address. *)
Definition heap_alloc (d : list (value * value)) (h : heap) : nat * heap :=
  (List.length h, (h ++ [d])%list).

(** The object at an address replaced; the other objects stay. *)
Fixpoint heap_set (h : heap) (a : nat) (d : list (value * value)) : heap :=
  match h, a with
  | [], _ => []
  | _ :: h', O => d :: h'
  | x :: h', S a' => x :: heap_set h' a' d
  end.

(** The objects a computation found in the heap are still what they
    were. *)
Definition heap_frame (h h' : heap) : Prop :=
  forall b, (b < List.length h)%nat -> heap_get h' b = heap_get h b.

(** The loop of [_mangle_names], with [r[k] = v] written to the object at
    the address [r]. *)
Fixpoint mangle_loop_ref (namesmap : list (value * value)) (skip : list value)
    (failonextra : bool) (items : list (value * value)) (r : nat) (h : heap)
  : outcome nat * heap :=
  match items with
  | [] => (Ret r, h)
  | (k, v) :: items' =>
      if py_in k skip && negb (dict_has k namesmap) then
        if failonextra
        then (Raise (foreign ValueError (Fmt "Extra field: %s" [Str k])), h)
        else mangle_loop_ref namesmap skip failonextra items' r h
      else
        let k' := match dict_get k namesmap with
                  | Some pyname => pyname
                  | None => k
                  end in
        match heap_get h r with
        | Some d =>
            mangle_loop_ref namesmap skip failonextra items' r
              (heap_set h r (dict_set k' v d))
        | None => (Undef, h)
        end
  end.

(** [_mangle_names] on the address of the input: it returns the input
    itself when there is nothing to rename, and the address of [r]
    otherwise.  The items of the input are read once, as nothing writes to
    it during the loop. *)
Definition _mangle_names_ref (namesmap : list (value * value))
  : nat -> bool -> heap -> outcome nat * heap := fun value failonextra h =>
  match namesmap with
  | [] => (Ret value, h)
  | _ =>
      let '(r, h1) := heap_alloc [] h in
      let skip := map snd namesmap in
      match heap_get h1 value with
      | Some items => mangle_loop_ref namesmap skip failonextra items r h1
      | None => (Undef, h1)
      end
  end.

(** [_attrload] on the address of the input.  [_objloader] only reads the
    dict it is given, and the failures keep the input as their value. *)
Definition _attrload_ref (classes : class_table) (l : Loader) (load : load_t)
  : nat -> ty -> state * heap -> outcome value * (state * heap) :=
  fun value type_ sh =>
    let '(st, h) := sh in
    match heap_get h value with
    | None => (Undef, sh)
    | Some input =>
        match kind_of classes type_ with
        | KAttrs attrs =>
            let fields := map a_name attrs in
            let type_hints := map (fun i => (a_name i, a_type i)) attrs in
            let necessary_fields :=
              map a_name
                (filter (fun attribute => default_is_NOTHING (a_default attribute)
                                          && a_init attribute) attrs) in
            match attr_namesmap classes l attrs with
            | Ret namesmap =>
                match _mangle_names_ref namesmap value (failonextra l) h with
                | (Ret value', h') =>
                    match heap_get h' value' with
                    | Some d =>
                        let '(o, st') :=
                          _objloader classes l load fields necessary_fields
                            type_hints (VDict d) type_ st in
                        (o, (st', h'))
                    | None => (Undef, (st, h'))
                    end
                | (Raise e, h') =>
                    (Raise (mangle_except (VDict input) type_ e), (st, h'))
                | (Undef, h') => (Undef, (st, h'))
                end
            | Raise e => (Raise e, sh)
            | Undef => (Undef, sh)
            end
        | _ => (Raise (foreign AttributeError (Msg "__attrs_attrs__")), sh)
        end
    end.


(** A new loader with [uniondebugconflict] set. *)
Definition debug_loader : Loader :=
  {| basictypes := basictypes default_loader;
     basiccast := true;
     failonextra := false;
     raiseconditionerrors := true;
     dictequivalence := true;
     mangle_key := "name";
     uniondebugconflict := true;
     strconstructed := strconstructed default_loader |}.


(* ===================================================================== *)
(** * What a load does to the state *)
(* ===================================================================== *)

(** Every run of a computation takes the state to one related to it. *)
Definition steps (R : state -> state -> Prop) {A : Type} (m : M A) : Prop :=
  forall st, R st (snd (m st)).

(** A handler's function changes the state as the calls of [l.load] it
    makes do, and in no other way. *)
Definition handler_steps (R : state -> state -> Prop) (f : loader_fn) : Prop :=
  forall l load,
    (forall v t a, steps R (load v t a)) ->
    forall v t, steps R (f l load v t).

(** The cache agrees with [index] on every type. *)
Definition cache_ok (l : Loader) (handlers : list handler) (st : state) : Prop :=
  forall t, cache_entry_ok l handlers t st.

(** The state has grown: the entries of the cache and of the
    forward-reference table are kept, and a disabled table stays
    disabled. *)
Definition grows (st st' : state) : Prop :=
  (forall t i, cache_get t (_indexcache st) = Some i ->
               cache_get t (_indexcache st') = Some i)
  /\ match frefs st with
     | None => frefs st' = None
     | Some table =>
         exists table',
           frefs st' = Some table'
           /\ forall n t, assoc n table = Some t -> assoc n table' = Some t
     end.


(* ===================================================================== *)
(** * More loaders and classes for the examples *)
(* ===================================================================== *)

(** A new loader with [basiccast] cleared. *)
Definition nocast_loader : Loader :=
  {| basictypes := basictypes default_loader;
     basiccast := false;
     failonextra := false;
     raiseconditionerrors := true;
     dictequivalence := true;
     mangle_key := "name";
     uniondebugconflict := false;
     strconstructed := strconstructed default_loader |}.

(** A new loader with [failonextra] set. *)
Definition strict_loader : Loader :=
  {| basictypes := basictypes default_loader;
     basiccast := true;
     failonextra := true;
     raiseconditionerrors := true;
     dictequivalence := true;
     mangle_key := "name";
     uniondebugconflict := false;
     strconstructed := strconstructed default_loader |}.

Module MoreExamples.
Import Records.

(** [pathlib.Path], as far as the examples go: a path from a string, and
    the [TypeError] of [Path(3)]. *)
Definition Path_class : pyclass :=
  mkClass KPlain true
    (fun args kwargs =>
       match args, kwargs with
       | [VStr s], [] => CtorOk (VObj "Path" [("path", VStr s)])
       | [VInt _], [] =>
           CtorRaise TypeError
             (Msg "expected str, bytes or os.PathLike object, not int")
       | _, _ => CtorUndef
       end).

(** [class Color(Enum): RED = 1; GREEN = 2]: calling it looks a member up
    by its value. *)
Definition Color_members : list (string * value) :=
  [("RED", VInt 1); ("GREEN", VInt 2)].

Definition Color_class : pyclass :=
  mkClass (KEnum Color_members [("value", Tint)]) true
    (fun args kwargs =>
       match args, kwargs with
       | [v], [] =>
           match find (fun m => py_eq v (snd m)) Color_members with
           | Some (name, _) => CtorOk (VEnum "Color" name)
           | None =>
               CtorRaise ValueError (Fmt "%s is not a valid Color" [Repr v])
           end
       | _, _ => CtorUndef
       end).

Definition classes : class_table := fun n =>
  if String.eqb n "Path" then Path_class
  else if String.eqb n "Color" then Color_class
  else RecordExamples.classes n.

End MoreExamples.

(* ===================================================================== *)
(** * Name mangling and the extra fields, in words of their own *)
(* ===================================================================== *)

(** The name a key of the data gets: the name the map gives it, or
    itself. *)
Definition renamed (namesmap : list (value * value)) (k : value) : value :=
  match dict_get k namesmap with
  | Some pyname => pyname
  | None => k
  end.

(** A key of the data that is the Python name of an aliased field, and not
    an alias itself: [_mangle_names] does not take it. *)
Definition shadowed (namesmap : list (value * value)) (k : value) : bool :=
  py_in k (map snd namesmap) && negb (dict_has k namesmap).

(** The items of the data whose key is a field of the type. *)
Definition known_items (fields : list string) (d : list (value * value))
  : list (value * value) :=
  filter (fun kv => match field_name (fst kv) fields with
                    | Some _ => true
                    | None => false
                    end) d.


(** The call returned a result. *)
Definition returned {A : Type} (o : outcome A) : bool :=
  match o with
  | Ret _ => true
  | _ => false
  end.


(* ===================================================================== *)
(** * Properties of the dispatch table *)
(* ===================================================================== *)

Unset Implicit Arguments.
(* ===================================================================== *)

Section Dispatch.

Variable l : Loader.
Variable type_ : ty.

(** [index_from] returns the position of the first condition that holds:
    the conditions before it returned [False], or raised with
    [raiseconditionerrors] cleared. *)
Lemma index_from_first (hs : list handler) :
  forall i k, index_from l type_ i hs = Ret k ->
    exists j c f,
      k = (i + j)%nat /\ nth_error hs j = Some (c, f) /\ c l type_ = Ret true /\
      forall j' c' f', (j' < j)%nat -> nth_error hs j' = Some (c', f') ->
        c' l type_ <> Ret true.
Proof.
  induction hs as [|[c f] hs IH]; intros i k H; simpl in H.
  - discriminate.
  - assert (Hnext : c l type_ <> Ret true ->
                    index_from l type_ (S i) hs = Ret k ->
                    exists j c0 f0,
                      k = (i + j)%nat /\ nth_error ((c, f) :: hs) j = Some (c0, f0) /\
                      c0 l type_ = Ret true /\
                      forall j' c' f', (j' < j)%nat ->
                        nth_error ((c, f) :: hs) j' = Some (c', f') ->
                        c' l type_ <> Ret true).
    { intros Hc Hk. destruct (IH _ _ Hk) as (j & c0 & f0 & -> & Hn & Ht & Hbefore).
      exists (S j), c0, f0. repeat split; [lia | exact Hn | exact Ht |].
      intros [|j'] c' f' Hlt Hn'; simpl in Hn'.
      - inversion Hn'; subst. exact Hc.
      - apply (Hbefore j' c' f'); [lia | exact Hn']. }
    destruct (c l type_) as [[|]|e|] eqn:Ec.
    + inversion H; subst. exists 0%nat, c, f.
      repeat split; [lia | exact Ec |]. intros j' c' f' Hlt. lia.
    + apply Hnext; [discriminate | exact H].
    + destruct (raiseconditionerrors l); [discriminate|].
      apply Hnext; [discriminate | exact H].
    + discriminate.
Qed.




End Dispatch.

(* ===================================================================== *)
(** * Properties of the engine's lookup *)
(* ===================================================================== *)

(** [load] runs the handler at the index [index] returns, in the state the
    lookup leaves. *)
Lemma load_lookup (fuel : nat) (l : Loader) (hs : list handler) (v : value)
    (t : ty) (ann : option Annotation) (st : state) (i : nat)
    (c : cond_fn) (f : loader_fn) :
  cache_entry_ok l hs t st ->
  index l hs t = Ret i ->
  nth_error hs i = Some (c, f) ->
  load (S fuel) l hs v t ann st
  = run_handler f l (load fuel l hs) v t ann (state_after_lookup t i st).
Proof.
  intros Hok Hi Hn. unfold cache_entry_ok in Hok. unfold state_after_lookup.
  simpl. unfold bind, find_index.
  destruct (cache_get t (_indexcache st)) as [p|].
  - rewrite Hi in Hok. inversion Hok; subst p. rewrite Hn. reflexivity.
  - rewrite Hi, Hn. reflexivity.
Qed.







(** A [ValueError] raised by a condition does not come out of [load]: the
    [except ValueError] around [index] turns it into the type-support
    failure. *)
Remark load_masks_condition_ValueError (fuel : nat) (l : Loader)
    (hs : list handler) (v : value) (t : ty) (ann : option Annotation)
    (st : state) (e : exn) :
  cache_get t (_indexcache st) = None ->
  index l hs t = Raise e ->
  is_ValueError (e_class e) = true ->
  load (S fuel) l hs v t ann st = (Raise (cannot_deal v t), st).
Proof.
  intros Hcache Hidx He. simpl. unfold bind, find_index.
  rewrite Hcache, Hidx, He. reflexivity.
Qed.

(* ===================================================================== *)
(** * The catch-all routine *)
(* ===================================================================== *)

(** For a loader whose sets of basic and string-constructible types do not
    hold [Any], the catch-all is the handler of [Any]. *)
Lemma index_any (classes : class_table) (l : Loader) :
  ty_in TAny (basictypes l) = false ->
  ty_in TAny (strconstructed l) = false ->
  index l (default_handlers classes) TAny = Ret 17%nat.
Proof.
  intros Hb Hs. unfold index. simpl. unfold cond_of. simpl.
  rewrite Hb, Hs. reflexivity.
Qed.

(** C10.  The routine of [Any] returns its input as it is, whatever the
    loader, the type and the state, without a call to [load] and without a
    change of the state; and so does [load] on [Any], where the lookup
    leads to that routine. *)
Theorem anyload_identity :
  (forall l load v t st, _anyload l load v t st = (Ret v, st))
  /\ (forall classes fuel l v ann st,
        ty_in TAny (basictypes l) = false ->
        ty_in TAny (strconstructed l) = false ->
        cache_entry_ok l (default_handlers classes) TAny st ->
        load (S fuel) l (default_handlers classes) v TAny ann st
        = (Ret v, state_after_lookup TAny 17 st)).
Proof.
  split.
  - intros. reflexivity.
  - intros classes fuel l v ann st Hb Hs Hok.
    rewrite (load_lookup fuel l (default_handlers classes) v TAny ann st 17
               (cond_of is_any) _anyload Hok (index_any classes l Hb Hs) eq_refl).
    reflexivity.
Qed.

(** Loading a mapping against [Any] with a new loader gives it back. *)
Lemma anyload_identity_witness :
  load 1 default_loader (default_handlers TestAttrload.classes)
    TestAttrload.data TAny None new_state
  = (Ret TestAttrload.data, state_after_lookup TAny 17 new_state).
Proof.
  apply (proj2 anyload_identity TestAttrload.classes 0%nat default_loader
           TestAttrload.data None new_state).
  - reflexivity.
  - reflexivity.
  - exact I.
Defined.

(* ===================================================================== *)
(** * The union resolver *)
(* ===================================================================== *)

Section StableSort.

Context {A : Type} (key : A -> bool).

Lemma insert_by_key_false (x : A) (l : list A) :
  key x = false -> insert_by_key key x l = x :: l.
Proof.
  intros Hx. destruct l as [|y l]; simpl; [reflexivity|].
  rewrite Hx. reflexivity.
Qed.

Lemma insert_by_key_true (x : A) (F T : list A) :
  key x = true ->
  (forall y, In y F -> key y = false) ->
  (forall y, In y T -> key y = true) ->
  insert_by_key key x (F ++ T)%list = (F ++ x :: T)%list.
Proof.
  intros Hx HF HT. induction F as [|y F IH]; simpl.
  - destruct T as [|y T]; simpl; [reflexivity|].
    rewrite Hx, (HT y) by (left; reflexivity). reflexivity.
  - rewrite Hx, (HF y) by (left; reflexivity). simpl.
    f_equal. apply IH. intros z Hz. apply HF. right. exact Hz.
Qed.

(** The stable sort on a boolean key keeps the elements with key [False]
    in their order, then those with key [True] in theirs. *)
Lemma sort_by_key_partition (l : list A) :
  sort_by_key key l
  = (filter (fun x => negb (key x)) l ++ filter key l)%list.
Proof.
  induction l as [|x l IH]; simpl; [reflexivity|].
  rewrite IH. destruct (key x) eqn:Hx; simpl.
  - apply insert_by_key_true; [exact Hx | |].
    + intros y Hy. apply filter_In in Hy as [_ Hy].
      destruct (key y); [discriminate | reflexivity].
    + intros y Hy. apply filter_In in Hy as [_ Hy]. exact Hy.
  - apply insert_by_key_false. exact Hx.
Qed.

Lemma sort_by_key_length (l : list A) :
  List.length (sort_by_key key l) = List.length l.
Proof.
  rewrite sort_by_key_partition, length_app.
  induction l as [|x l IH]; simpl; [reflexivity|].
  destruct (key x); simpl; lia.
Qed.

End StableSort.

(** The last element of a list that has one does not depend on the
    default. *)
Lemma last_cons_default {A : Type} (xs : list A) :
  forall a d d', last (a :: xs) d = last (a :: xs) d'.
Proof.
  induction xs as [|x xs IH]; intros a d d'; [reflexivity|].
  change (last (x :: xs) d = last (x :: xs) d'). apply IH.
Qed.

Section UnionLoop.

Variable l : Loader.
Variable load : load_t.
Variable v : value.

Lemma try_all_length (ts : list ty) :
  forall st outs st',
    try_all load v ts st = Some (outs, st') ->
    List.length outs = List.length ts.
Proof.
  induction ts as [|t ts IH]; intros st outs st' H; simpl in H.
  - inversion H. reflexivity.
  - destruct (load v t (Some (UNION, OType t)) st) as [[r|e|] st1];
      [| destruct (recognized e) |]; try discriminate;
      destruct (try_all load v ts st1) as [[outs1 st2]|] eqn:E; try discriminate;
      inversion H; subst; simpl; f_equal; eapply IH; eassumption.
Qed.

Lemma failures_all (outs : list (value + exn)) :
  successes outs = [] -> List.length (failures outs) = List.length outs.
Proof.
  induction outs as [|[r|e] outs IH]; simpl; intros H.
  - reflexivity.
  - discriminate.
  - f_equal. apply IH. exact H.
Qed.

(** When every attempt fails, the loop collects the failures in order and
    leaves [r] and [loaded_count] as they were. *)
Lemma union_loop_all_fail (ts : list ty) :
  forall st outs st' r n ex,
    try_all load v ts st = Some (outs, st') ->
    successes outs = [] ->
    union_loop l load v ts (r, n, ex) st
    = (Ret (r, n, (ex ++ failures outs)%list), st').
Proof.
  induction ts as [|t ts IH]; intros st outs st' r n ex H Hs; simpl in H |- *.
  - inversion H; subst. simpl. rewrite app_nil_r. reflexivity.
  - destruct (load v t (Some (UNION, OType t)) st) as [[r1|e|] st1];
      [| destruct (recognized e) |]; try discriminate;
      destruct (try_all load v ts st1) as [[outs1 st2]|] eqn:E; try discriminate;
      inversion H; subst; simpl in Hs; try discriminate.
    rewrite (IH st1 outs1 st' r n (ex ++ [e])%list E Hs).
    simpl. rewrite <- app_assoc. reflexivity.
Qed.

(** Outside debug mode the loop stops at the first alternative that loads,
    after the failures of those before it. *)
Lemma union_loop_first_success (pre post : list ty) (t : ty) :
  uniondebugconflict l = false ->
  forall st outs st1 r' st2 r n ex,
    try_all load v pre st = Some (outs, st1) ->
    successes outs = [] ->
    load v t (Some (UNION, OType t)) st1 = (Ret r', st2) ->
    union_loop l load v (pre ++ t :: post)%list (r, n, ex) st
    = (Ret (r', S n, (ex ++ failures outs)%list), st2).
Proof.
  intros Hflag. induction pre as [|t0 pre IH];
    intros st outs st1 r' st2 r n ex H Hs Ht; simpl in H |- *.
  - inversion H; subst. rewrite Ht, Hflag. simpl. rewrite app_nil_r. reflexivity.
  - destruct (load v t0 (Some (UNION, OType t0)) st) as [[r1|e|] st0];
      [| destruct (recognized e) |]; try discriminate;
      destruct (try_all load v pre st0) as [[outs1 st3]|] eqn:E; try discriminate;
      inversion H; subst; simpl in Hs; try discriminate.
    rewrite (IH st0 outs1 st1 r' st2 r n (ex ++ [e])%list E Hs Ht).
    simpl. rewrite <- app_assoc. reflexivity.
Qed.

(** In debug mode the loop makes every attempt: it counts the successes,
    keeps the last result and collects the failures. *)
Lemma union_loop_debug (ts : list ty) :
  uniondebugconflict l = true ->
  forall st outs st' r n ex,
    try_all load v ts st = Some (outs, st') ->
    union_loop l load v ts (r, n, ex) st
    = (Ret (last (successes outs) r, (n + List.length (successes outs))%nat,
            (ex ++ failures outs)%list), st').
Proof.
  intros Hflag. induction ts as [|t ts IH]; intros st outs st' r n ex H;
    simpl in H |- *.
  - inversion H; subst. simpl. rewrite app_nil_r, Nat.add_0_r. reflexivity.
  - destruct (load v t (Some (UNION, OType t)) st) as [[r1|e|] st1];
      [| destruct (recognized e) |]; try discriminate;
      destruct (try_all load v ts st1) as [[outs1 st2]|] eqn:E; try discriminate;
      inversion H; subst.
    + rewrite Hflag. simpl negb. cbv iota.
      rewrite (IH st1 outs1 st' r1 (S n) ex E).
      assert (Hlast : last (successes outs1) r1
                      = last (successes (inl r1 :: outs1)) r).
      { simpl. destruct (successes outs1) as [|r2 rs];
          [reflexivity | apply last_cons_default]. }
      rewrite Hlast. simpl successes. simpl failures. simpl List.length.
      rewrite Nat.add_succ_r. reflexivity.
    + rewrite (IH st1 outs1 st' r n (ex ++ [e])%list E).
      simpl. rewrite <- app_assoc. reflexivity.
Qed.

(** Outside debug mode, when some attempt would succeed, the loop ends with
    the first success and a count of one. *)
Lemma union_loop_nodebug_success (ts : list ty) :
  uniondebugconflict l = false ->
  forall st outs st' r' rest r n ex,
    try_all load v ts st = Some (outs, st') ->
    successes outs = r' :: rest ->
    exists ex' st'',
      union_loop l load v ts (r, n, ex) st = (Ret (r', S n, ex'), st'').
Proof.
  intros Hflag. induction ts as [|t ts IH];
    intros st outs st' r' rest r n ex H Hs; simpl in H |- *.
  - inversion H; subst. discriminate.
  - destruct (load v t (Some (UNION, OType t)) st) as [[r1|e|] st1];
      [| destruct (recognized e) |]; try discriminate;
      destruct (try_all load v ts st1) as [[outs1 st2]|] eqn:E; try discriminate;
      inversion H; subst; simpl in Hs.
    + inversion Hs; subst. rewrite Hflag. simpl. eauto.
    + eapply IH; eassumption.
Qed.

End UnionLoop.

(** [_unionload] past its first test: the outcome of the loop decides. *)
Lemma unionload_unfold (l : Loader) (load : load_t) (v : value)
    (args : list ty) (st : state) :
  fast_path l v args = false ->
  _unionload l load v (TUnion args) st
  = match union_loop l load v (sorted_args l args) (VNone, O, []) st with
    | (Ret (r, loaded_count, exceptions), st') =>
        if (loaded_count =? 1)%nat then (Ret r, st')
        else if (loaded_count =? 0)%nat
             then (Raise (union_no_match v (TUnion args) exceptions), st')
             else (Raise (union_conflict v (TUnion args) loaded_count exceptions), st')
    | (Raise e, st') => (Raise e, st')
    | (Undef, st') => (Undef, st')
    end.
Proof.
  intros Hfast. unfold fast_path in Hfast.
  unfold _unionload, bind, lift, uniontypes. rewrite Hfast.
  fold (sorted_args l args).
  destruct (union_loop l load v (sorted_args l args) (VNone, O, []) st)
    as [[[[r n] ex]|e|] st']; try reflexivity.
  destruct (n =? 1)%nat; [reflexivity|].
  destruct (n =? 0)%nat; reflexivity.
Qed.

(** The fast path: a value whose own type is basic and is an alternative
    comes back as it is. *)
Lemma unionload_fast_path (l : Loader) (load : load_t) (v : value)
    (args : list ty) (st : state) :
  fast_path l v args = true ->
  _unionload l load v (TUnion args) st = (Ret v, st).
Proof.
  intros Hfast. unfold fast_path in Hfast.
  unfold _unionload, bind, lift, uniontypes. rewrite Hfast. reflexivity.
Qed.

(** On a union, [load] runs [_unionload], the second handler of a new
    loader, and returns what it returns. *)
Lemma load_union (classes : class_table) (fuel : nat) (l : Loader) (v : value)
    (args : list ty) (ann : option Annotation) (st : state) :
  cache_entry_ok l (default_handlers classes) (TUnion args) st ->
  load (S fuel) l (default_handlers classes) v (TUnion args) ann st
  = run_handler _unionload l (load fuel l (default_handlers classes))
      v (TUnion args) ann (state_after_lookup (TUnion args) 1 st).
Proof.
  intros Hok.
  apply (load_lookup fuel l (default_handlers classes) v (TUnion args) ann st 1
           (cond_of is_union) _unionload Hok); reflexivity.
Qed.

Lemma run_handler_ret (f : loader_fn) (l : Loader) (load : load_t) (v : value)
    (t : ty) (ann : option Annotation) (st st' : state) (r : value) :
  f l load v t st = (Ret r, st') ->
  run_handler f l load v t ann st = (Ret r, st').
Proof.
  intros H. unfold run_handler. rewrite H. reflexivity.
Qed.

(** The fast path and the order of the attempts.  A value whose exact type
    is a basic type and one of the alternatives is returned unchanged.
    Otherwise the alternatives are tried in the order of a stable sort that
    keeps the non-basic ones, in their order, before the basic ones, in
    theirs; outside debug mode, when the alternatives tried first end in a
    failure of the engine, the result of the first alternative that loads
    is returned.  [load] on a union returns what [_unionload] returns. *)
Lemma unionload_first_success :
  (forall l load v args st,
      ty_in (type_of v) (basictypes l) = true ->
      ty_in (type_of v) args = true ->
      _unionload l load v (TUnion args) st = (Ret v, st))
  /\ (forall classes fuel l v args ann st r st',
        cache_entry_ok l (default_handlers classes) (TUnion args) st ->
        _unionload l (load fuel l (default_handlers classes)) v (TUnion args)
          (state_after_lookup (TUnion args) 1 st) = (Ret r, st') ->
        load (S fuel) l (default_handlers classes) v (TUnion args) ann st
        = (Ret r, st'))
  /\ (forall l args,
        sorted_args l args
        = (filter (fun t => negb (ty_in t (basictypes l))) args
           ++ filter (fun t => ty_in t (basictypes l)) args)%list)
  /\ (forall l load v args st pre t post outs st1 r st2,
        fast_path l v args = false ->
        uniondebugconflict l = false ->
        sorted_args l args = (pre ++ t :: post)%list ->
        try_all load v pre st = Some (outs, st1) ->
        successes outs = [] ->
        load v t (Some (UNION, OType t)) st1 = (Ret r, st2) ->
        _unionload l load v (TUnion args) st = (Ret r, st2)).
Proof.
  split; [|split; [|split]].
  - intros l load v args st Hb Ha. apply unionload_fast_path.
    unfold fast_path. rewrite Hb, Ha. reflexivity.
  - intros classes fuel l v args ann st r st' Hok Hr.
    rewrite (load_union classes fuel l v args ann st Hok).
    apply run_handler_ret. exact Hr.
  - intros l args. unfold sorted_args. apply sort_by_key_partition.
  - intros l load v args st pre t post outs st1 r st2 Hfast Hflag Hsort Hpre Hs Ht.
    rewrite (unionload_unfold _ _ _ _ _ Hfast), Hsort.
    rewrite (union_loop_first_success l load v pre post t Hflag
               st outs st1 r st2 VNone O [] Hpre Hs Ht).
    reflexivity.
Qed.

(** The three ends of [_unionload], when every attempt ends in a result or
    in a failure of the engine.  When no alternative loads, it raises a
    [TypedloadValueError] that carries the failure of every alternative, in
    the order of the attempts; in debug mode, when more than one loads, it
    raises a [TypedloadTypeError] with their number and the failures of the
    others; and when exactly one loads, its result is returned. *)
Lemma unionload_failures :
  (forall l load v args st outs st',
      fast_path l v args = false ->
      try_all load v (sorted_args l args) st = Some (outs, st') ->
      successes outs = [] ->
      _unionload l load v (TUnion args) st
      = (Raise (union_no_match v (TUnion args) (failures outs)), st')
      /\ e_class (union_no_match v (TUnion args) (failures outs))
         = TypedloadValueError
      /\ e_exceptions (union_no_match v (TUnion args) (failures outs))
         = failures outs
      /\ List.length (failures outs) = List.length args)
  /\ (forall l load v args st outs st',
        fast_path l v args = false ->
        uniondebugconflict l = true ->
        try_all load v (sorted_args l args) st = Some (outs, st') ->
        (2 <= List.length (successes outs))%nat ->
        _unionload l load v (TUnion args) st
        = (Raise (union_conflict v (TUnion args) (List.length (successes outs))
                    (failures outs)), st')
        /\ e_class (union_conflict v (TUnion args) (List.length (successes outs))
                      (failures outs)) = TypedloadTypeError
        /\ e_exceptions (union_conflict v (TUnion args)
                           (List.length (successes outs)) (failures outs))
           = failures outs)
  /\ (forall l load v args st outs st' r,
        fast_path l v args = false ->
        try_all load v (sorted_args l args) st = Some (outs, st') ->
        successes outs = [r] ->
        exists st'', _unionload l load v (TUnion args) st = (Ret r, st'')).
Proof.
  split; [|split].
  - intros l load v args st outs st' Hfast Hall Hs.
    rewrite (unionload_unfold _ _ _ _ _ Hfast).
    rewrite (union_loop_all_fail l load v _ st outs st' VNone O [] Hall Hs).
    simpl. repeat split.
    rewrite (failures_all outs Hs), (try_all_length load v _ _ _ _ Hall).
    apply sort_by_key_length.
  - intros l load v args st outs st' Hfast Hflag Hall Hn.
    rewrite (unionload_unfold _ _ _ _ _ Hfast).
    rewrite (union_loop_debug l load v _ Hflag st outs st' VNone O [] Hall).
    simpl. destruct (List.length (successes outs)) as [|[|n]]; try lia.
    repeat split.
  - intros l load v args st outs st' r Hfast Hall Hs.
    rewrite (unionload_unfold _ _ _ _ _ Hfast).
    destruct (uniondebugconflict l) eqn:Hflag.
    + rewrite (union_loop_debug l load v _ Hflag st outs st' VNone O [] Hall).
      rewrite Hs. simpl. eauto.
    + destruct (union_loop_nodebug_success l load v _ Hflag st outs st' r []
                  VNone O [] Hall Hs) as (ex' & st'' & E).
      rewrite E. simpl. eauto.
Qed.

(** [Union[int, List[int], Person]] on [{'name': 'A'}] with a new loader:
    the alternatives are tried in the order [List[int]], [Person], [int];
    the list fails, and the result is the [Person]. *)
Example union_of_int_list_Person :
  exists st2,
    _unionload default_loader
      (load 3 default_loader (default_handlers TestAttrload.classes))
      (VDict [(VStr "name", VStr "A")])
      (TUnion [Tint; TList Tint; TestAttrload.Person]) new_state
    = (Ret (VObj "Person" [("name", VStr "A"); ("address", VNone)]), st2).
Proof.
  eexists.
  eapply (proj2 (proj2 (proj2 unionload_first_success))
            default_loader
            (load 3 default_loader (default_handlers TestAttrload.classes))
            (VDict [(VStr "name", VStr "A")])
            [Tint; TList Tint; TestAttrload.Person] new_state
            [TList Tint] TestAttrload.Person [Tint]).
  - reflexivity.
  - reflexivity.
  - reflexivity.
  - vm_compute. reflexivity.
  - reflexivity.
  - vm_compute. reflexivity.
Qed.

(** [Union[Dict[str, int], List[int]]] on [1] with a new loader: both
    alternatives fail, the dict for want of [items] and the list for want
    of an iteration, and the failure of the union carries the two. *)
Example union_of_dict_list_on_1 :
  exists e1 e2 st',
    _unionload default_loader
      (load 2 default_loader (default_handlers TestAttrload.classes))
      (VInt 1) (TUnion [TDict Tstr Tint; TList Tint]) new_state
    = (Raise (union_no_match (VInt 1) (TUnion [TDict Tstr Tint; TList Tint])
                [e1; e2]), st')
    /\ e_class e1 = TypedloadAttributeError
    /\ e_class e2 = TypedloadTypeError.
Proof.
  do 3 eexists. split; [vm_compute; reflexivity|]. split; reflexivity.
Qed.

(** C1, the failing input.  [3] loads into [Literal[3]], the second
    alternative of [Union[Set[int], Literal[3]]], and not into [Set[int]],
    which is tried first: iterating over [3] raises a [TypeError] that
    [_setload] does not catch, the [assert] of [load] fails on it, and an
    [AssertionError] is no failure that [_unionload] catches.  The load of
    the union ends with it, and not with the result of the alternative
    that loads, which the same union gives when [Literal[3]] comes
    first. *)
Theorem unionload_first_success_lost :
  fast_path default_loader (VInt 3) [TSet Tint; TLiteral [VInt 3]] = false
  /\ sorted_args default_loader [TSet Tint; TLiteral [VInt 3]]
     = [TSet Tint; TLiteral [VInt 3]]
  /\ (forall fuel,
        typedload_load TestAttrload.classes (1 + fuel) (VInt 3)
          (TLiteral [VInt 3])
        = Ret (VInt 3))
  /\ (forall fuel,
        typedload_load TestAttrload.classes (1 + fuel) (VInt 3) (TSet Tint)
        = Raise (foreign AssertionError (Msg "")))
  /\ recognized (foreign AssertionError (Msg "")) = false
  /\ (forall fuel,
        typedload_load TestAttrload.classes (2 + fuel) (VInt 3)
          (TUnion [TSet Tint; TLiteral [VInt 3]])
        = Raise (foreign AssertionError (Msg "")))
  /\ (forall fuel,
        typedload_load TestAttrload.classes (2 + fuel) (VInt 3)
          (TUnion [TLiteral [VInt 3]; TSet Tint])
        = Ret (VInt 3)).
Proof.
  repeat split; intros; vm_compute; reflexivity.
Qed.

(** C4, the failing input.  [3] loads into neither alternative of
    [Optional[Set[int]]]: [Set[int]] ends in the [AssertionError] of
    [load], [None] in a [TypedloadValueError].  The load of the union ends
    with the [AssertionError] of the first attempt, which carries no
    nested failure, and not with the [TypedloadValueError] that carries
    the failures of the two; so does [Union[Set[int], FrozenSet[int]]].
    In debug mode [Union[Literal[3], Set[int]]] has exactly one
    alternative that loads [3], and ends with the [AssertionError] of the
    other instead of that result. *)
Theorem unionload_failures_lost :
  (forall fuel,
      typedload_load TestAttrload.classes (1 + fuel) (VInt 3) (TSet Tint)
      = Raise (foreign AssertionError (Msg "")))
  /\ (forall fuel,
        typedload_load TestAttrload.classes (1 + fuel) (VInt 3) NONETYPE
        = Raise (trace_insert0 (mkTraceItem (VInt 3) NONETYPE None)
                   (new_exn TypedloadValueError (Msg "Not None")
                      (Some (VInt 3)) (Some NONETYPE) [])))
  /\ (forall fuel,
        typedload_load TestAttrload.classes (2 + fuel) (VInt 3)
          (TestAttrload.Optional (TSet Tint))
        = Raise (foreign AssertionError (Msg "")))
  /\ recognized (foreign AssertionError (Msg "")) = false
  /\ e_exceptions (foreign AssertionError (Msg "")) = []
  /\ (forall fuel,
        typedload_load TestAttrload.classes (2 + fuel) (VInt 3)
          (TUnion [TSet Tint; TFrozenSet Tint])
        = Raise (foreign AssertionError (Msg "")))
  /\ (forall fuel,
        fst (load (1 + fuel) debug_loader (default_handlers TestAttrload.classes)
               (VInt 3) (TLiteral [VInt 3]) None new_state)
        = Ret (VInt 3))
  /\ (forall fuel,
        fst (load (2 + fuel) debug_loader (default_handlers TestAttrload.classes)
               (VInt 3) (TUnion [TLiteral [VInt 3]; TSet Tint]) None new_state)
        = Raise (foreign AssertionError (Msg ""))).
Proof.
  repeat split; intros; vm_compute; reflexivity.
Qed.

(* ===================================================================== *)
(** * The trace *)
(* ===================================================================== *)

(** A failure of the engine raised by the routine leaves [load] with one
    more entry, in front of its trace. *)
Lemma run_handler_raise (f : loader_fn) (l : Loader) (load : load_t) (v : value)
    (t : ty) (ann : option Annotation) (st st' : state) (e0 : exn) :
  f l load v t st = (Raise e0, st') ->
  recognized e0 = true ->
  run_handler f l load v t ann st
  = (Raise (trace_insert0 (mkTraceItem v t ann) e0), st').
Proof.
  intros H Hrec. unfold run_handler. rewrite H, Hrec. reflexivity.
Qed.






(** In a list of an unsupported type the position of the element is lost:
    the only entry of the trace is the one of the list. *)
Example load_list_of_unsupported :
  typedload_load TestAttrload.classes 2 (VList [VInt 1]) (TList (TClass "Foo"))
  = Raise
      (trace_insert0
         (mkTraceItem (VList [VInt 1]) (TList (TClass "Foo")) None)
         (cannot_deal (VInt 1) (TClass "Foo"))).
Proof. reflexivity. Qed.

(* ===================================================================== *)
(** * Literals *)
(* ===================================================================== *)

(** Induction on values, through the lists they hold. *)
Section ValueInduction.

Variable P : value -> Prop.
Hypothesis HNone : P VNone.
Hypothesis HBool : forall b, P (VBool b).
Hypothesis HInt : forall n, P (VInt n).
Hypothesis HFloat : forall m e, P (VFloat m e).
Hypothesis HStr : forall s, P (VStr s).
Hypothesis HList : forall l, Forall P l -> P (VList l).
Hypothesis HTuple : forall l, Forall P l -> P (VTuple l).
Hypothesis HSet : forall l, Forall P l -> P (VSet l).
Hypothesis HFrozenSet : forall l, Forall P l -> P (VFrozenSet l).
Hypothesis HDict :
  forall d, Forall (fun kv => P (fst kv) /\ P (snd kv)) d -> P (VDict d).
Hypothesis HEnum : forall c m, P (VEnum c m).
Hypothesis HObj : forall c a, Forall (fun kv => P (snd kv)) a -> P (VObj c a).
Hypothesis HNamespace : forall a, Forall (fun kv => P (snd kv)) a -> P (VNamespace a).

Fixpoint value_nested_ind (v : value) : P v :=
  let all :=
    fix all (l : list value) : Forall P l :=
      match l with
      | [] => Forall_nil _
      | x :: xs => Forall_cons x (value_nested_ind x) (all xs)
      end in
  let all_snd :=
    fix all_snd (a : list (string * value)) : Forall (fun kv => P (snd kv)) a :=
      match a with
      | [] => Forall_nil _
      | (n, x) :: xs => Forall_cons (n, x) (value_nested_ind x) (all_snd xs)
      end in
  match v with
  | VNone => HNone
  | VBool b => HBool b
  | VInt n => HInt n
  | VFloat m e => HFloat m e
  | VStr s => HStr s
  | VList l => HList l (all l)
  | VTuple l => HTuple l (all l)
  | VSet l => HSet l (all l)
  | VFrozenSet l => HFrozenSet l (all l)
  | VDict d =>
      HDict d
        ((fix all_kv (d : list (value * value))
            : Forall (fun kv => P (fst kv) /\ P (snd kv)) d :=
            match d with
            | [] => Forall_nil _
            | (k, x) :: xs =>
                Forall_cons (k, x)
                  (conj (value_nested_ind k) (value_nested_ind x)) (all_kv xs)
            end) d)
  | VEnum c m => HEnum c m
  | VObj c a => HObj c a (all_snd a)
  | VNamespace a => HNamespace a (all_snd a)
  end.

End ValueInduction.

(** A value equals itself. *)
Lemma py_eq_refl (v : value) : py_eq v v = true.
Proof.
  induction v using value_nested_ind; try reflexivity.
  - simpl. destruct b; reflexivity.
  - simpl. apply Z.eqb_refl.
  - simpl. apply Z.eqb_refl.
  - simpl. apply String.eqb_refl.
  - simpl. induction H as [|x xs Hx _ IH]; [reflexivity|].
    rewrite Hx. exact IH.
  - simpl. induction H as [|x xs Hx _ IH]; [reflexivity|].
    rewrite Hx. exact IH.
  - simpl. rewrite Nat.eqb_refl. simpl.
    match goal with
    | |- ?F l l = true =>
        assert (Hsub : forall l0 l',
                   (forall x, In x l0 -> existsb (py_eq x) l' = true) ->
                   F l0 l' = true)
    end.
    { induction l0 as [|x xs IH]; intros l' Hin; [reflexivity|].
      rewrite (Hin x) by (left; reflexivity). simpl.
      apply IH. intros y Hy. apply Hin. right. exact Hy. }
    apply Hsub. intros x Hx. apply existsb_exists. exists x.
    split; [exact Hx|]. rewrite Forall_forall in H. apply H. exact Hx.
  - simpl. rewrite Nat.eqb_refl. simpl.
    match goal with
    | |- ?F l l = true =>
        assert (Hsub : forall l0 l',
                   (forall x, In x l0 -> existsb (py_eq x) l' = true) ->
                   F l0 l' = true)
    end.
    { induction l0 as [|x xs IH]; intros l' Hin; [reflexivity|].
      rewrite (Hin x) by (left; reflexivity). simpl.
      apply IH. intros y Hy. apply Hin. right. exact Hy. }
    apply Hsub. intros x Hx. apply existsb_exists. exists x.
    split; [exact Hx|]. rewrite Forall_forall in H. apply H. exact Hx.
  - simpl. rewrite Nat.eqb_refl. simpl.
    match goal with
    | |- ?F d d = true =>
        assert (Hsub : forall d0 d',
                   (forall kv, In kv d0 ->
                      existsb (fun kv' => py_eq (fst kv) (fst kv')
                                          && py_eq (snd kv) (snd kv')) d' = true) ->
                   F d0 d' = true)
    end.
    { induction d0 as [|[k x] xs IH]; intros d' Hin; [reflexivity|].
      pose proof (Hin (k, x) (or_introl eq_refl)) as Hkx. simpl in Hkx.
      rewrite Hkx. simpl.
      apply IH. intros y Hy. apply Hin. right. exact Hy. }
    apply Hsub. intros kv Hkv. apply existsb_exists. exists kv.
    split; [exact Hkv|]. rewrite Forall_forall in H.
    destruct (H kv Hkv) as [Hk Hx]. rewrite Hk, Hx. reflexivity.
  - simpl. rewrite !String.eqb_refl. reflexivity.
  - simpl. rewrite String.eqb_refl. simpl.
    induction H as [|[n x] xs Hx _ IH]; [reflexivity|].
    simpl in Hx. rewrite String.eqb_refl, Hx. exact IH.
  - simpl. induction H as [|[n x] xs Hx _ IH]; [reflexivity|].
    simpl in Hx. rewrite String.eqb_refl, Hx. exact IH.
Qed.

(** A declared value is in the set of the declared values. *)
Lemma py_in_member (v : value) (vals : list value) :
  In v vals -> py_in v vals = true.
Proof.
  intros Hin. apply existsb_exists. exists v. split; [exact Hin|].
  apply py_eq_refl.
Qed.

(** A set can be made of values that all have a hash. *)
Lemma set_of_hashable (classes : class_table) (vals : list value) :
  forallb (hashable classes) vals = true -> set_of classes vals = Ret vals.
Proof.
  intros Hall. unfold set_of.
  assert (Hfind : find (fun v => negb (hashable classes v)) vals = None).
  { induction vals as [|x vals IH]; [reflexivity|].
    simpl in Hall |- *. apply andb_true_iff in Hall as [Hx Hrest].
    rewrite Hx. simpl. apply IH. exact Hrest. }
  rewrite Hfind. reflexivity.
Qed.

(** What [_literalload] does with a value that has a hash: the value when
    it equals a declared value, the failure otherwise; nothing else
    happens. *)
Lemma literalload_spec (classes : class_table) (l : Loader) (load : load_t)
    (v : value) (vals : list value) (st : state) :
  forallb (hashable classes) vals = true ->
  hashable classes v = true ->
  _literalload classes l load v (TLiteral vals) st
  = if py_in v vals then (Ret v, st)
    else (Raise (not_allowed v (TLiteral vals)), st).
Proof.
  intros Hvals Hv.
  unfold _literalload, bind, lift, literalvalues, set_contains.
  rewrite (set_of_hashable classes vals Hvals), Hv.
  destruct (py_in v vals); reflexivity.
Qed.

(** A literal type that is not made a basic type goes to [_literalload]. *)
Lemma index_literal (classes : class_table) (l : Loader) (vals : list value) :
  ty_in (TLiteral vals) (basictypes l) = false ->
  index l (default_handlers classes) (TLiteral vals) = Ret 12%nat.
Proof.
  intros Hb. unfold index. simpl. unfold cond_of. simpl.
  rewrite Hb. reflexivity.
Qed.

(** C7, amended.  For a value that has a hash, loading into a literal type
    succeeds exactly when the value equals, by Python's [==], one of the
    declared values, as every declared value does; the result is then the
    value itself, without any coercion; any other value that has a hash is
    refused with a [TypedloadValueError].  Since [True == 1], [True] is
    taken for [Literal[1]]. *)
Theorem literalload_membership :
  (forall classes l load v vals st,
      forallb (hashable classes) vals = true ->
      hashable classes v = true ->
      _literalload classes l load v (TLiteral vals) st
      = if py_in v vals then (Ret v, st)
        else (Raise (not_allowed v (TLiteral vals)), st))
  /\ (forall v vals, In v vals -> py_in v vals = true)
  /\ (forall classes fuel l v vals ann st,
        forallb (hashable classes) vals = true ->
        hashable classes v = true ->
        ty_in (TLiteral vals) (basictypes l) = false ->
        cache_entry_ok l (default_handlers classes) (TLiteral vals) st ->
        load (S fuel) l (default_handlers classes) v (TLiteral vals) ann st
        = if py_in v vals
          then (Ret v, state_after_lookup (TLiteral vals) 12 st)
          else (Raise (trace_insert0 (mkTraceItem v (TLiteral vals) ann)
                         (not_allowed v (TLiteral vals))),
                state_after_lookup (TLiteral vals) 12 st))
  /\ (forall v vals, e_class (not_allowed v (TLiteral vals)) = TypedloadValueError)
  /\ py_in (VBool true) [VInt 1] = true.
Proof.
  split; [|split; [|split; [|split]]].
  - apply literalload_spec.
  - apply py_in_member.
  - intros classes fuel l v vals ann st Hvals Hv Hb Hok.
    rewrite (load_lookup fuel l (default_handlers classes) v (TLiteral vals) ann
               st 12 (cond_of is_literal) (_literalload classes) Hok
               (index_literal classes l vals Hb) eq_refl).
    unfold run_handler. rewrite (literalload_spec classes _ _ _ _ _ Hvals Hv).
    destruct (py_in v vals); reflexivity.
  - reflexivity.
  - reflexivity.
Qed.

(** With a new loader, [Literal[1, 'a']] takes ['a'] and refuses ['b']. *)
Lemma literalload_membership_witness :
  load 1 default_loader (default_handlers TestAttrload.classes)
    (VStr "a") (TLiteral [VInt 1; VStr "a"]) None new_state
  = (if py_in (VStr "a") [VInt 1; VStr "a"]
     then (Ret (VStr "a"),
           state_after_lookup (TLiteral [VInt 1; VStr "a"]) 12 new_state)
     else (Raise (trace_insert0
                    (mkTraceItem (VStr "a") (TLiteral [VInt 1; VStr "a"]) None)
                    (not_allowed (VStr "a") (TLiteral [VInt 1; VStr "a"]))),
           state_after_lookup (TLiteral [VInt 1; VStr "a"]) 12 new_state))
  /\ py_in (VStr "a") [VInt 1; VStr "a"] = true.
Proof.
  split.
  - apply (proj1 (proj2 (proj2 literalload_membership)) TestAttrload.classes
             0%nat default_loader (VStr "a") [VInt 1; VStr "a"] None new_state).
    + reflexivity.
    + reflexivity.
    + reflexivity.
    + exact I.
  - apply (proj1 (proj2 literalload_membership)). right. left. reflexivity.
Defined.

(** C7 as stated fails: [True] is loaded into [Literal[1]], of which it is
    not one of the declared values. *)
Lemma literalload_bool_counterexample :
  ~ (forall classes l load v vals st r st',
        _literalload classes l load v (TLiteral vals) st = (Ret r, st') ->
        In v vals).
Proof.
  intros H.
  destruct (H TestAttrload.classes default_loader list_only_load (VBool true)
              [VInt 1] new_state (VBool true) new_state eq_refl) as [Heq | []].
  discriminate Heq.
Qed.

(** The same through [typedload.load]. *)
Example load_True_as_Literal_1 :
  typedload_load TestAttrload.classes 1 (VBool true) (TLiteral [VInt 1])
  = Ret (VBool true).
Proof. reflexivity. Qed.

(** A value without a hash, a list for one, is not looked up at all: the
    [TypeError] of hashing it leaves [_literalload] as it is. *)
Remark literalload_unhashable_value (classes : class_table) (l : Loader)
    (load : load_t) (v : value) (vals : list value) (st : state) :
  forallb (hashable classes) vals = true ->
  hashable classes v = false ->
  _literalload classes l load v (TLiteral vals) st = (Raise (unhashable v), st).
Proof.
  intros Hvals Hv.
  unfold _literalload, bind, lift, literalvalues, set_contains.
  rewrite (set_of_hashable classes vals Hvals), Hv. reflexivity.
Qed.

(* ===================================================================== *)
(** * Records: required fields *)
(* ===================================================================== *)

Lemma name_in_In (n : string) (s : list string) :
  name_in n s = true <-> In n s.
Proof.
  unfold name_in. rewrite existsb_exists. split.
  - intros (m & Hm & Heq). apply String.eqb_eq in Heq. subst. exact Hm.
  - intros Hin. exists n. split; [exact Hin | apply String.eqb_refl].
Qed.

(** The names the failure lists are the required fields the input lacks. *)
Lemma names_diff_In (necessary : list string) (keys : list value) (n : string) :
  In n (names_diff necessary keys)
  <-> In n necessary /\ py_in (VStr n) keys = false.
Proof.
  unfold names_diff. rewrite filter_In. split; intros [H1 H2]; split;
    try exact H1; destruct (py_in (VStr n) keys); simpl in *; congruence.
Qed.

(** The test of [_objloader] fails as soon as one required field is not a
    key of the input. *)
Lemma names_inter_missing (necessary : list string) (keys : list value)
    (n : string) :
  In n necessary ->
  py_in (VStr n) keys = false ->
  names_eqb (names_inter necessary keys) necessary = false.
Proof.
  intros Hin Hmiss. unfold names_eqb.
  apply andb_false_iff. right.
  apply not_true_is_false. intros Hall.
  rewrite forallb_forall in Hall. specialize (Hall n Hin).
  apply name_in_In in Hall. unfold names_inter in Hall.
  apply filter_In in Hall as [_ Hp]. congruence.
Qed.

(** And it passes when every required field is a key. *)
Lemma names_inter_complete (necessary : list string) (keys : list value) :
  (forall n, In n necessary -> py_in (VStr n) keys = true) ->
  names_eqb (names_inter necessary keys) necessary = true.
Proof.
  intros Hall. unfold names_eqb, names_inter.
  apply andb_true_iff. split; apply forallb_forall; intros n Hn.
  - apply name_in_In. apply filter_In in Hn as [Hn _]. exact Hn.
  - apply name_in_In. apply filter_In. split; [exact Hn | apply Hall; exact Hn].
Qed.

Section ObjLoader.

Variable classes : class_table.
Variable l : Loader.
Variable load : load_t.

(** [_objloader] on a dict that lacks a required field. *)
Lemma objloader_missing (fields necessary : list string)
    (type_hints : list (string * ty)) (d : list (value * value)) (type_ : ty)
    (n : string) (st : state) :
  In n necessary ->
  py_in (VStr n) (map fst d) = false ->
  _objloader classes l load fields necessary type_hints (VDict d) type_ st
  = (Raise (missing_fields necessary (map fst d) type_ (VDict d)), st).
Proof.
  intros Hin Hmiss. unfold _objloader, bind, lift. simpl.
  rewrite (names_inter_missing necessary (map fst d) n Hin Hmiss).
  reflexivity.
Qed.

(** Each record loader hands the aliased input and the required fields of
    its kind to [_objloader]. *)
Lemma record_loader_objloader (c : string) (v v' : value) (st : state) :
  is_record (c_kind (classes c)) = true ->
  aliased_input classes l (c_kind (classes c)) v = Ret v' ->
  exists fields type_hints,
    record_loader classes (c_kind (classes c)) l load v (TClass c) st
    = _objloader classes l load fields (required_fields (c_kind (classes c)))
        type_hints v' (TClass c) st.
Proof.
  intros Hrec Halias.
  destruct (c_kind (classes c)) as [| ms hs | ann dflt | flds | ann req tot | attrs]
    eqn:Hk; try discriminate; simpl in Halias |- *.
  - inversion Halias; subst v'.
    unfold _namedtupleload, bind, lift, annotations_of, field_defaults_of, kind_of.
    rewrite Hk. eauto.
  - unfold _dataclassload, bind, lift, kind_of. rewrite Hk.
    destruct (dataclass_transforms classes l flds) as [m|e|]; try discriminate.
    rewrite Halias. eauto.
  - inversion Halias; subst v'.
    unfold _typeddictload, bind, lift, annotations_of, kind_of. rewrite Hk.
    destruct req as [req|]; [|destruct tot]; eauto.
  - unfold _attrload, bind, lift, kind_of. rewrite Hk.
    destruct (attr_namesmap classes l attrs) as [m|e|]; try discriminate.
    rewrite Halias. eauto.
Qed.

(** A record class that is not taken for something else goes to the loader
    of its kind. *)
Lemma index_record (c : string) :
  is_record (c_kind (classes c)) = true ->
  is_nonetype (TClass c) = false ->
  ty_in (TClass c) (basictypes l) = false ->
  ty_in (TClass c) [TClass "date"; TClass "time"; TClass "datetime"] = false ->
  ty_in (TClass c) (strconstructed l) = false ->
  index l (default_handlers classes) (TClass c)
  = Ret (record_index (c_kind (classes c)))
  /\ exists cond,
       nth_error (default_handlers classes) (record_index (c_kind (classes c)))
       = Some (cond, record_loader classes (c_kind (classes c))).
Proof.
  intros Hrec Hnone Hbasic Hdate Hstr.
  unfold index, default_handlers, cond_of.
  cbn -[ty_in is_nonetype is_enum is_namedtuple is_dataclass is_typeddict
        is_attrs nth_error].
  rewrite Hnone, Hbasic, Hdate, Hstr.
  unfold is_enum, is_namedtuple, is_dataclass, is_typeddict, is_attrs, kind_of.
  destruct (c_kind (classes c)); try discriminate; simpl; eauto.
Qed.

End ObjLoader.

(** Where the required fields are checked.  For a record type, when a
    field its loader takes as required is not among the keys of the aliased
    input, the loader of the kind, and [load] through it, raises a
    [TypedloadValueError] whose description names the required fields that
    are missing, and those only, and the type.  Loading [{}] into a named
    tuple, a dataclass or a typed dict with a required field fails naming
    that field; loading [{}] into [Person], whose fields all have defaults,
    gives the defaults. *)
Lemma record_required_fields :
  (forall classes l load c v d' n st,
      is_record (c_kind (classes c)) = true ->
      aliased_input classes l (c_kind (classes c)) v = Ret (VDict d') ->
      In n (required_fields (c_kind (classes c))) ->
      py_in (VStr n) (map fst d') = false ->
      record_loader classes (c_kind (classes c)) l load v (TClass c) st
      = (Raise (missing_fields (required_fields (c_kind (classes c)))
                  (map fst d') (TClass c) (VDict d')), st))
  /\ (forall classes fuel l c v d' n ann st,
        is_record (c_kind (classes c)) = true ->
        aliased_input classes l (c_kind (classes c)) v = Ret (VDict d') ->
        In n (required_fields (c_kind (classes c))) ->
        py_in (VStr n) (map fst d') = false ->
        is_nonetype (TClass c) = false ->
        ty_in (TClass c) (basictypes l) = false ->
        ty_in (TClass c) [TClass "date"; TClass "time"; TClass "datetime"] = false ->
        ty_in (TClass c) (strconstructed l) = false ->
        cache_entry_ok l (default_handlers classes) (TClass c) st ->
        load (S fuel) l (default_handlers classes) v (TClass c) ann st
        = (Raise (trace_insert0 (mkTraceItem v (TClass c) ann)
                    (missing_fields (required_fields (c_kind (classes c)))
                       (map fst d') (TClass c) (VDict d'))),
           state_after_lookup (TClass c) (record_index (c_kind (classes c))) st))
  /\ (forall necessary vfields c v,
        e_class (missing_fields necessary vfields (TClass c) v)
        = TypedloadValueError
        /\ e_descr (missing_fields necessary vfields (TClass c) v)
           = Fmt "Value does not contain fields: %s which are necessary for type %s"
               [NameSet (names_diff necessary vfields); Msg c]
        /\ forall m, In m (names_diff necessary vfields)
                     <-> In m necessary /\ py_in (VStr m) vfields = false)
  /\ (forall fuel,
        typedload_load RecordExamples.classes (1 + fuel) (VDict []) (TClass "User")
        = Raise (trace_insert0 (mkTraceItem (VDict []) (TClass "User") None)
                   (missing_fields ["username"] [] (TClass "User") (VDict [])))
        /\ typedload_load RecordExamples.classes (1 + fuel) (VDict [])
             (TClass "Point")
           = Raise (trace_insert0 (mkTraceItem (VDict []) (TClass "Point") None)
                      (missing_fields ["x"] [] (TClass "Point") (VDict [])))
        /\ typedload_load RecordExamples.classes (1 + fuel) (VDict [])
             (TClass "Movie")
           = Raise (trace_insert0 (mkTraceItem (VDict []) (TClass "Movie") None)
                      (missing_fields ["title"; "year"] [] (TClass "Movie")
                         (VDict [])))
        /\ typedload_load TestAttrload.classes (1 + fuel) (VDict [])
             TestAttrload.Person
           = Ret (VObj "Person" [("name", VStr "Turiddu"); ("address", VNone)])).
Proof.
  split; [|split; [|split]].
  - intros classes l load c v d' n st Hrec Halias Hin Hmiss.
    destruct (record_loader_objloader classes l load c v (VDict d') st Hrec Halias)
      as (fields & hints & ->).
    apply objloader_missing with (n := n); assumption.
  - intros classes fuel l c v d' n ann st Hrec Halias Hin Hmiss
      Hnone Hbasic Hdate Hstr Hok.
    destruct (index_record classes l c Hrec Hnone Hbasic Hdate Hstr)
      as [Hidx [cond Hnth]].
    rewrite (load_lookup fuel l (default_handlers classes) v (TClass c) ann st
               _ cond _ Hok Hidx Hnth).
    apply run_handler_raise; [|reflexivity].
    destruct (record_loader_objloader classes l
                (load fuel l (default_handlers classes)) c v (VDict d')
                (state_after_lookup (TClass c)
                   (record_index (c_kind (classes c))) st) Hrec Halias)
      as (fields & hints & ->).
    apply objloader_missing with (n := n); assumption.
  - intros necessary vfields c v. split; [reflexivity|]. split; [reflexivity|].
    intros m. apply names_diff_In.
  - intros fuel. repeat split; vm_compute; reflexivity.
Qed.

(** [_attrload] takes no attribute as required, whatever the class: the
    test on the default never holds. *)
Lemma attrs_necessary_fields_empty (attrs : list attr_attribute) :
  required_fields (KAttrs attrs) = [].
Proof.
  simpl. induction attrs as [|a attrs IH]; [reflexivity|].
  simpl. destruct (a_default a); simpl; exact IH.
Qed.

(** C5, the failing input.  The attribute [value] of [Mangle] has no
    default, so [Mangle] cannot be built without it; [_attrload] takes no
    attribute as required, the test of [_objloader] for missing fields
    passes on [{}], and the load fails only when the constructor is called
    without its argument: with a [TypedloadTypeError] that holds neither the
    value nor the type and names no missing field, where the dataclass
    [Point] gets the [TypedloadValueError] that names its missing field. *)
Theorem attrload_required_fields_unchecked :
  attrs_required TestAttrload.Mangle_attrs = ["value"]
  /\ (forall attrs, required_fields (KAttrs attrs) = [])
  /\ (forall fuel,
        typedload_load TestAttrload.classes (1 + fuel) (VDict [])
          TestAttrload.Mangle
        = Raise (trace_insert0 (mkTraceItem (VDict []) TestAttrload.Mangle None)
                   (missing_argument "value")))
  /\ e_class (missing_argument "value") = TypedloadTypeError
  /\ (forall fuel,
        typedload_load RecordExamples.classes (1 + fuel) (VDict []) (TClass "Point")
        = Raise (trace_insert0 (mkTraceItem (VDict []) (TClass "Point") None)
                   (missing_fields ["x"] [] (TClass "Point") (VDict [])))).
Proof.
  split; [reflexivity|]. split; [apply attrs_necessary_fields_empty|].
  split; [intros fuel; vm_compute; reflexivity|].
  split; [reflexivity|].
  intros fuel; vm_compute; reflexivity.
Qed.

(** [{'shell': 'zsh'}] lacks the [username] of a [User]. *)
Example User_without_username :
  record_loader RecordExamples.classes
    (c_kind (RecordExamples.classes "User")) default_loader list_only_load
    (VDict [(VStr "shell", VStr "zsh")]) (TClass "User") new_state
  = (Raise (missing_fields
              (required_fields (c_kind (RecordExamples.classes "User")))
              (map fst [(VStr "shell", VStr "zsh")]) (TClass "User")
              (VDict [(VStr "shell", VStr "zsh")])), new_state)
  /\ required_fields (c_kind (RecordExamples.classes "User")) = ["username"].
Proof.
  split.
  - apply (proj1 record_required_fields RecordExamples.classes default_loader
             list_only_load "User" (VDict [(VStr "shell", VStr "zsh")])
             [(VStr "shell", VStr "zsh")] "username" new_state).
    + reflexivity.
    + reflexivity.
    + left. reflexivity.
    + reflexivity.
  - reflexivity.
Qed.

(* ===================================================================== *)
(** * Name mangling leaves the input alone *)
(* ===================================================================== *)

Lemma heap_set_length (h : heap) :
  forall a d, List.length (heap_set h a d) = List.length h.
Proof.
  induction h as [|x h IH]; intros [|a] d; simpl; try reflexivity.
  f_equal. apply IH.
Qed.

Lemma heap_get_set_other (h : heap) :
  forall a b d, a <> b -> heap_get (heap_set h a d) b = heap_get h b.
Proof.
  unfold heap_get. induction h as [|x h IH]; intros [|a] [|b] d Hne; simpl;
    try reflexivity; try congruence.
  apply IH. congruence.
Qed.

Lemma heap_get_set_same (h : heap) :
  forall a d, (a < List.length h)%nat -> heap_get (heap_set h a d) a = Some d.
Proof.
  unfold heap_get. induction h as [|x h IH]; intros [|a] d Hlt; simpl in *;
    try lia; [reflexivity|].
  apply IH. lia.
Qed.

Lemma heap_get_Some_lt (h : heap) (a : nat) (d : list (value * value)) :
  heap_get h a = Some d -> (a < List.length h)%nat.
Proof.
  unfold heap_get. intros H. apply nth_error_Some. congruence.
Qed.

Section ManglingRef.

Variable namesmap : list (value * value).
Variable skip : list value.
Variable failonextra' : bool.

(** The loop writes to [r] what the loop of [_mangle_names] computes, and
    to no other object. *)
Lemma mangle_loop_ref_spec (items : list (value * value)) (r : nat) :
  forall h d0,
    heap_get h r = Some d0 ->
    exists h',
      List.length h' = List.length h
      /\ (forall b, b <> r -> heap_get h' b = heap_get h b)
      /\ match mangle_loop namesmap skip failonextra' items d0 with
         | Ret d' =>
             mangle_loop_ref namesmap skip failonextra' items r h = (Ret r, h')
             /\ heap_get h' r = Some d'
         | Raise e =>
             mangle_loop_ref namesmap skip failonextra' items r h = (Raise e, h')
         | Undef => False
         end.
Proof.
  induction items as [|[k v] items IH]; intros h d0 Hr; simpl.
  - exists h. repeat split; try reflexivity. exact Hr.
  - destruct (py_in k skip && negb (dict_has k namesmap)).
    + destruct failonextra'.
      * exists h. repeat split; reflexivity.
      * apply IH. exact Hr.
    + rewrite Hr.
      set (k' := match dict_get k namesmap with
                 | Some pyname => pyname
                 | None => k
                 end).
      destruct (IH (heap_set h r (dict_set k' v d0)) (dict_set k' v d0))
        as (h' & Hlen & Hother & Hres).
      { apply heap_get_set_same. eapply heap_get_Some_lt. exact Hr. }
      exists h'. split; [|split].
      * rewrite Hlen. apply heap_set_length.
      * intros b Hb. rewrite (Hother b Hb). apply heap_get_set_other. congruence.
      * exact Hres.
Qed.

End ManglingRef.

(** [_mangle_names] on an address gives what [_mangle_names] gives on the
    dict at that address, in an object of its own when there are names to
    change, and leaves the objects of the heap as they were. *)
Lemma mangle_names_ref_spec (namesmap : list (value * value)) (a : nat)
    (fo : bool) (h : heap) (d : list (value * value)) :
  heap_get h a = Some d ->
  exists h',
    heap_frame h h'
    /\ match _mangle_names namesmap (VDict d) fo with
       | Ret v' =>
           exists a' d',
             v' = VDict d'
             /\ _mangle_names_ref namesmap a fo h = (Ret a', h')
             /\ heap_get h' a' = Some d'
             /\ (namesmap <> [] -> a' = List.length h)
       | Raise e => _mangle_names_ref namesmap a fo h = (Raise e, h')
       | Undef => False
       end.
Proof.
  intros Ha. destruct namesmap as [|nm namesmap'] eqn:Hnm.
  - exists h. split; [intros b _; reflexivity|].
    simpl. exists a, d. repeat split; try assumption. congruence.
  - rewrite <- Hnm. unfold _mangle_names, _mangle_names_ref, heap_alloc.
    rewrite Hnm. rewrite <- Hnm. simpl py_items.
    assert (Hlt : (a < List.length h)%nat) by (eapply heap_get_Some_lt; exact Ha).
    assert (Ha1 : heap_get (h ++ [[]])%list a = Some d).
    { unfold heap_get. rewrite nth_error_app1 by exact Hlt. exact Ha. }
    rewrite Ha1.
    destruct (mangle_loop_ref_spec namesmap (map snd namesmap) fo d
                (List.length h) (h ++ [[]])%list [])
      as (h' & Hlen & Hother & Hres).
    { unfold heap_get. rewrite nth_error_app2 by lia.
      rewrite Nat.sub_diag. reflexivity. }
    exists h'. split.
    + intros b Hb. rewrite (Hother b) by lia.
      unfold heap_get. apply nth_error_app1. exact Hb.
    + destruct (mangle_loop namesmap (map snd namesmap) fo d []) as [d'|e|].
      * destruct Hres as [Hrun Hget].
        exists (List.length h), d'. repeat split; assumption.
      * exact Hres.
      * exact Hres.
Qed.

(** [_attrload] on the address of the input gives what [_attrload] gives on
    the dict at that address, and leaves the objects of the heap, the input
    among them, as they were. *)
Lemma attrload_ref_spec (classes : class_table) (l : Loader) (load : load_t)
    (a : nat) (type_ : ty) (st : state) (h : heap) (d : list (value * value)) :
  heap_get h a = Some d ->
  exists h',
    _attrload_ref classes l load a type_ (st, h)
    = (fst (_attrload classes l load (VDict d) type_ st),
       (snd (_attrload classes l load (VDict d) type_ st), h'))
    /\ heap_frame h h'.
Proof.
  intros Ha. unfold _attrload_ref, _attrload, bind, lift. rewrite Ha.
  destruct (kind_of classes type_) as [| | | | |attrs];
    try (exists h; split; [reflexivity | intros b _; reflexivity]).
  destruct (attr_namesmap classes l attrs) as [namesmap|e|];
    try (exists h; split; [reflexivity | intros b _; reflexivity]).
  destruct (mangle_names_ref_spec namesmap a (failonextra l) h d Ha)
    as (h' & Hframe & Hres).
  exists h'. split; [|exact Hframe].
  destruct (_mangle_names namesmap (VDict d) (failonextra l)) as [v'|e|].
  - destruct Hres as (a' & d' & -> & Hrun & Hget & _).
    rewrite Hrun, Hget.
    destruct (_objloader classes l load (map a_name attrs) _ _ (VDict d') type_ st)
      as [o st']. reflexivity.
  - rewrite Hres. reflexivity.
  - destruct Hres.
Qed.

(** C8.  Loading [{'va.lue': 12}] into [Mangle], whose field [value] has
    the alias [va.lue], gives [Mangle(value=12)].  The attribute loader run
    on the address of the caller's mapping computes what it computes on its
    content and leaves every object of the heap, that mapping among them,
    as it was: when there are names to change, [_mangle_names] writes to a
    dictionary of its own. *)
Theorem mangle_load_leaves_input :
  (forall fuel,
      typedload_load TestAttrload.classes (2 + fuel)
        (VDict [(VStr "va.lue", VInt 12)]) TestAttrload.Mangle
      = Ret (VObj "Mangle" [("value", VInt 12)]))
  /\ (forall classes l load a type_ st h d,
        heap_get h a = Some d ->
        exists h',
          _attrload_ref classes l load a type_ (st, h)
          = (fst (_attrload classes l load (VDict d) type_ st),
             (snd (_attrload classes l load (VDict d) type_ st), h'))
          /\ heap_frame h h'
          /\ heap_get h' a = Some d)
  /\ (forall namesmap a fo h d a' h',
        heap_get h a = Some d ->
        namesmap <> [] ->
        _mangle_names_ref namesmap a fo h = (Ret a', h') ->
        a' <> a /\ heap_get h' a = Some d)
  /\ (exists st',
        _attrload_ref TestAttrload.classes default_loader
          (load 1 default_loader (default_handlers TestAttrload.classes))
          0 TestAttrload.Mangle
          (new_state, [[(VStr "va.lue", VInt 12)]])
        = (Ret (VObj "Mangle" [("value", VInt 12)]),
           (st', [[(VStr "va.lue", VInt 12)]; [(VStr "value", VInt 12)]]))).
Proof.
  split; [|split; [|split]].
  - intros fuel. vm_compute. reflexivity.
  - intros classes l load a type_ st h d Ha.
    destruct (attrload_ref_spec classes l load a type_ st h d Ha)
      as (h' & Hrun & Hframe).
    exists h'. repeat split; try assumption.
    rewrite (Hframe a) by (eapply heap_get_Some_lt; exact Ha). exact Ha.
  - intros namesmap a fo h d a' h' Ha Hne Hrun.
    assert (Hlt : (a < List.length h)%nat) by (eapply heap_get_Some_lt; exact Ha).
    destruct (mangle_names_ref_spec namesmap a fo h d Ha) as (h'' & Hframe & Hres).
    destruct (_mangle_names namesmap (VDict d) fo) as [v'|e|].
    + destruct Hres as (a'' & d'' & _ & Hrun' & _ & Hfresh).
      rewrite Hrun in Hrun'. inversion Hrun'; subst a'' h''.
      split; [rewrite (Hfresh Hne); lia|].
      rewrite (Hframe a Hlt). exact Ha.
    + rewrite Hrun in Hres. discriminate.
    + destruct Hres.
  - eexists. vm_compute. reflexivity.
Qed.

(** The heap that holds the mapping of the test, [a = {'va.lue': 12}]. *)
Lemma mangle_load_leaves_input_witness :
  exists h',
    _attrload_ref TestAttrload.classes default_loader
      (load 1 default_loader (default_handlers TestAttrload.classes))
      0 TestAttrload.Mangle (new_state, [[(VStr "va.lue", VInt 12)]])
    = (fst (_attrload TestAttrload.classes default_loader
              (load 1 default_loader (default_handlers TestAttrload.classes))
              (VDict [(VStr "va.lue", VInt 12)]) TestAttrload.Mangle new_state),
       (snd (_attrload TestAttrload.classes default_loader
               (load 1 default_loader (default_handlers TestAttrload.classes))
               (VDict [(VStr "va.lue", VInt 12)]) TestAttrload.Mangle new_state),
        h'))
    /\ heap_frame [[(VStr "va.lue", VInt 12)]] h'
    /\ heap_get h' 0 = Some [(VStr "va.lue", VInt 12)].
Proof.
  apply (proj1 (proj2 mangle_load_leaves_input) TestAttrload.classes
           default_loader
           (load 1 default_loader (default_handlers TestAttrload.classes))
           0%nat TestAttrload.Mangle new_state
           [[(VStr "va.lue", VInt 12)]] [(VStr "va.lue", VInt 12)]).
  reflexivity.
Defined.

(* ===================================================================== *)
(** * Records: the constructor *)
(* ===================================================================== *)

(** A [TypeError] or a [ValueError] of the constructor becomes a failure of
    the engine. *)
Lemma construct_remaps (classes : class_table) (type_ : ty)
    (params : list (string * value)) (st : state) (c : exn_class) (m : message) :
  call classes type_ [] params = CtorRaise c m ->
  is_TypeError c || is_ValueError c = true ->
  exists e, construct classes type_ params st = (Raise e, st)
            /\ recognized e = true.
Proof.
  intros Hcall Hc. unfold construct, raise. rewrite Hcall.
  destruct (is_TypeError c); [eexists; split; reflexivity|].
  destruct (is_ValueError c); [eexists; split; reflexivity | discriminate].
Qed.

(** Any other exception of the constructor leaves [_objloader] as it is. *)
Lemma construct_passes_on (classes : class_table) (type_ : ty)
    (params : list (string * value)) (st : state) (c : exn_class) (m : message) :
  call classes type_ [] params = CtorRaise c m ->
  is_TypeError c = false ->
  is_ValueError c = false ->
  construct classes type_ params st = (Raise (foreign c m), st).
Proof.
  intros Hcall Ht Hv. unfold construct, raise. rewrite Hcall, Ht, Hv.
  reflexivity.
Qed.

(** C6, the failing input.  The constructor of [Positive] raises
    [ArithmeticError] on [{'n': 0}]: the exception leaves the record loader
    as it is, not as a failure of the engine, and the [assert] of [load]
    fails on it. *)
Theorem construct_foreign_exception_escapes :
  _attrload RecordExamples.classes default_loader
    (load 1 default_loader (default_handlers RecordExamples.classes))
    (VDict [(VStr "n", VInt 0)]) (TClass "Positive")
    (state_after_lookup (TClass "Positive") 16 new_state)
  = (Raise (foreign (OtherError "ArithmeticError") (Msg "not positive")),
     state_after_lookup Tint 2
       (state_after_lookup (TClass "Positive") 16 new_state))
  /\ recognized (foreign (OtherError "ArithmeticError") (Msg "not positive"))
     = false
  /\ typedload_load RecordExamples.classes 2 (VDict [(VStr "n", VInt 0)])
       (TClass "Positive")
     = Raise (foreign AssertionError (Msg "")).
Proof.
  repeat split; vm_compute; reflexivity.
Qed.

(* ===================================================================== *)
(** * Equality of values and of types *)
(* ===================================================================== *)

(** [value_eqb] holds of equal values only. *)
Lemma value_eqb_eq (a : value) : forall b, value_eqb a b = true -> a = b.
Proof.
  induction a using value_nested_ind; intros b' Hb; destruct b'; simpl in Hb;
    try discriminate.
  - reflexivity.
  - apply Bool.eqb_prop in Hb. congruence.
  - apply Z.eqb_eq in Hb. congruence.
  - apply andb_true_iff in Hb as [H1 H2].
    apply Z.eqb_eq in H1, H2. congruence.
  - apply String.eqb_eq in Hb. congruence.
  - f_equal. revert l0 Hb.
    induction H as [|x xs Hx _ IH]; intros [|y ys] Hb; try discriminate;
      [reflexivity|].
    apply andb_true_iff in Hb as [H1 H2]. f_equal; [apply Hx, H1 | apply IH, H2].
  - f_equal. revert l0 Hb.
    induction H as [|x xs Hx _ IH]; intros [|y ys] Hb; try discriminate;
      [reflexivity|].
    apply andb_true_iff in Hb as [H1 H2]. f_equal; [apply Hx, H1 | apply IH, H2].
  - f_equal. revert l0 Hb.
    induction H as [|x xs Hx _ IH]; intros [|y ys] Hb; try discriminate;
      [reflexivity|].
    apply andb_true_iff in Hb as [H1 H2]. f_equal; [apply Hx, H1 | apply IH, H2].
  - f_equal. revert l0 Hb.
    induction H as [|x xs Hx _ IH]; intros [|y ys] Hb; try discriminate;
      [reflexivity|].
    apply andb_true_iff in Hb as [H1 H2]. f_equal; [apply Hx, H1 | apply IH, H2].
  - f_equal. revert d0 Hb.
    induction H as [|[k x] xs [Hk Hx] _ IH]; intros [|[k' y] ys] Hb;
      try discriminate; [reflexivity|].
    simpl in Hk, Hx.
    apply andb_true_iff in Hb as [H12 H3].
    apply andb_true_iff in H12 as [H1 H2].
    f_equal; [f_equal; [apply Hk, H1 | apply Hx, H2] | apply IH, H3].
  - apply andb_true_iff in Hb as [H1 H2].
    apply String.eqb_eq in H1, H2. congruence.
  - apply andb_true_iff in Hb as [H1 H2]. apply String.eqb_eq in H1. subst.
    f_equal. revert attrs H2.
    induction H as [|[n x] xs Hx _ IH]; intros [|[n' y] ys] Hb;
      try discriminate; [reflexivity|].
    simpl in Hx.
    apply andb_true_iff in Hb as [H12 H3].
    apply andb_true_iff in H12 as [H1 H2]. apply String.eqb_eq in H1. subst.
    f_equal; [f_equal; apply Hx, H2 | apply IH, H3].
  - f_equal. revert kwargs Hb.
    induction H as [|[n x] xs Hx _ IH]; intros [|[n' y] ys] Hb;
      try discriminate; [reflexivity|].
    simpl in Hx.
    apply andb_true_iff in Hb as [H12 H3].
    apply andb_true_iff in H12 as [H1 H2]. apply String.eqb_eq in H1. subst.
    f_equal; [f_equal; apply Hx, H2 | apply IH, H3].
Qed.

(** Induction on types, through the lists of their arguments. *)
Section TypeInduction.

Variable P : ty -> Prop.
Hypothesis HClass : forall n, P (TClass n).
Hypothesis HAny : P TAny.
Hypothesis HEllipsis : P TEllipsis.
Hypothesis HUnion : forall l, Forall P l -> P (TUnion l).
Hypothesis HTuple : forall l, Forall P l -> P (TTuple l).
Hypothesis HList : forall t, P t -> P (TList t).
Hypothesis HDict : forall k v, P k -> P v -> P (TDict k v).
Hypothesis HSet : forall t, P t -> P (TSet t).
Hypothesis HFrozenSet : forall t, P t -> P (TFrozenSet t).
Hypothesis HForwardRef : forall n, P (TForwardRef n).
Hypothesis HLiteral : forall vs, P (TLiteral vs).
Hypothesis HNewType : forall n t, P t -> P (TNewType n t).

Fixpoint ty_nested_ind (t : ty) : P t :=
  let all :=
    fix all (l : list ty) : Forall P l :=
      match l with
      | [] => Forall_nil _
      | x :: xs => Forall_cons x (ty_nested_ind x) (all xs)
      end in
  match t with
  | TClass n => HClass n
  | TAny => HAny
  | TEllipsis => HEllipsis
  | TUnion l => HUnion l (all l)
  | TTuple l => HTuple l (all l)
  | TList t' => HList t' (ty_nested_ind t')
  | TDict k v => HDict k v (ty_nested_ind k) (ty_nested_ind v)
  | TSet t' => HSet t' (ty_nested_ind t')
  | TFrozenSet t' => HFrozenSet t' (ty_nested_ind t')
  | TForwardRef n => HForwardRef n
  | TLiteral vs => HLiteral vs
  | TNewType n t' => HNewType n t' (ty_nested_ind t')
  end.

End TypeInduction.

(** [ty_eqb] holds of equal types only: a key of the cache stands for one
    type. *)
Lemma ty_eqb_eq (a : ty) : forall b, ty_eqb a b = true -> a = b.
Proof.
  induction a using ty_nested_ind; intros b' Hb; destruct b'; simpl in Hb;
    try discriminate.
  - apply String.eqb_eq in Hb. congruence.
  - reflexivity.
  - reflexivity.
  - f_equal. revert args Hb.
    induction H as [|x xs Hx _ IH]; intros [|y ys] Hb; try discriminate;
      [reflexivity|].
    apply andb_true_iff in Hb as [H1 H2]. f_equal; [apply Hx, H1 | apply IH, H2].
  - f_equal. revert args Hb.
    induction H as [|x xs Hx _ IH]; intros [|y ys] Hb; try discriminate;
      [reflexivity|].
    apply andb_true_iff in Hb as [H1 H2]. f_equal; [apply Hx, H1 | apply IH, H2].
  - f_equal. apply IHa, Hb.
  - apply andb_true_iff in Hb as [H1 H2]. f_equal; [apply IHa1, H1 | apply IHa2, H2].
  - f_equal. apply IHa, Hb.
  - f_equal. apply IHa, Hb.
  - apply String.eqb_eq in Hb. congruence.
  - f_equal. revert vals Hb.
    induction vs as [|x xs IH]; intros [|y ys] Hb; try discriminate;
      [reflexivity|].
    apply andb_true_iff in Hb as [H1 H2].
    f_equal; [apply value_eqb_eq, H1 | apply IH, H2].
  - apply andb_true_iff in Hb as [H1 H2]. apply String.eqb_eq in H1.
    f_equal; [exact H1 | apply IHa, H2].
Qed.

(* ===================================================================== *)
(** * The state changes through [load] only *)
(* ===================================================================== *)

Section Steps.

Variable R : state -> state -> Prop.
Hypothesis R_refl : forall st, R st st.
Hypothesis R_trans : forall a b c, R a b -> R b c -> R a c.

Lemma steps_ret {A : Type} (a : A) : steps R (ret a).
Proof. intros st. apply R_refl. Qed.

Lemma steps_raise {A : Type} (e : exn) : steps R (@raise A e).
Proof. intros st. apply R_refl. Qed.

Lemma steps_undef {A : Type} : steps R (@undef A).
Proof. intros st. apply R_refl. Qed.

Lemma steps_lift {A : Type} (o : outcome A) : steps R (lift o).
Proof. intros st. apply R_refl. Qed.

Lemma steps_get_state : steps R get_state.
Proof. intros st. apply R_refl. Qed.

Lemma steps_bind {A B : Type} (m : M A) (k : A -> M B) :
  steps R m -> (forall a, steps R (k a)) -> steps R (bind m k).
Proof.
  intros Hm Hk st. unfold bind. pose proof (Hm st) as H1.
  destruct (m st) as [[a|e|] st1]; simpl in *; try exact H1.
  eapply R_trans; [exact H1 | apply Hk].
Qed.

(** A [try] around a computation that only looks at its outcome. *)
Lemma steps_catch {A B : Type} (m : M A) (k : outcome A -> outcome B) :
  steps R m -> steps R (fun st => (k (fst (m st)), snd (m st))).
Proof.
  intros Hm st. simpl. apply Hm.
Qed.

Ltac steps_tac :=
  repeat first
    [ apply steps_ret | apply steps_raise | apply steps_undef
    | apply steps_lift | apply steps_get_state
    | assumption
    | apply steps_bind; [| intros ?]
    | match goal with
      | H : forall v t a, steps R (?load v t a) |- steps R (?load _ _ _) => apply H
      | |- steps R (if ?b then _ else _) => destruct b
      | |- steps R (match ?x with _ => _ end) => destruct x
      end ].

Section WithLoad.

Variable classes : class_table.
Variable l : Loader.
Variable load : load_t.
Hypothesis Hload : forall v t a, steps R (load v t a).

Lemma steps_load_each (t : ty) (vs : list value) :
  forall i, steps R (load_each load t i vs).
Proof.
  induction vs as [|v vs IH]; intros i; simpl; steps_tac. apply IH.
Qed.

Lemma steps_load_each_set (t : ty) (vs : list value) :
  forall i acc, steps R (load_each_set classes load t i vs acc).
Proof.
  induction vs as [|v vs IH]; intros i acc; simpl; steps_tac. apply IH.
Qed.

Lemma steps_load_zip (vs : list value) :
  forall i ts, steps R (load_zip load i vs ts).
Proof.
  induction vs as [|v vs IH]; intros i [|t ts]; simpl; steps_tac. apply IH.
Qed.

Lemma steps_load_items (kt vt : ty) (items : list (value * value)) :
  forall acc, steps R (load_items classes load kt vt items acc).
Proof.
  induction items as [|[k v] items IH]; intros acc; simpl; steps_tac. apply IH.
Qed.

Lemma steps_objloader_loop (fields : list string)
    (type_hints : list (string * ty)) (vfields : list value) (type_ : ty)
    (v0 : value) (items : list (value * value)) :
  forall params,
    steps R (objloader_loop l load fields type_hints vfields type_ v0 items params).
Proof.
  induction items as [|[k v] items IH]; intros params; simpl; steps_tac;
    apply IH.
Qed.

Lemma steps_construct (type_ : ty) (params : list (string * value)) :
  steps R (construct classes type_ params).
Proof.
  unfold construct. steps_tac.
Qed.

Lemma steps_objloader (fields necessary : list string)
    (type_hints : list (string * ty)) (v : value) (type_ : ty) :
  steps R (_objloader classes l load fields necessary type_hints v type_).
Proof.
  unfold _objloader. steps_tac.
  - apply steps_objloader_loop.
  - apply steps_construct.
Qed.

Lemma steps_enum_hints_loop (type_ : ty) (v : value)
    (hints : list (string * ty)) :
  forall exceptions,
    steps R (enum_hints_loop classes load type_ v hints exceptions).
Proof.
  induction hints as [|[n t] hints IH]; intros exceptions; simpl; steps_tac.
  intros st. pose proof (Hload v t (Some (UNION, OType t)) st) as H1.
  destruct (load v t (Some (UNION, OType t)) st) as [[r|e|] st1]; simpl in *.
  - destruct (call classes type_ [r] []); simpl; try exact H1.
    eapply R_trans; [exact H1 | apply IH].
  - eapply R_trans; [exact H1 | apply IH].
  - exact H1.
Qed.

Lemma steps_union_loop (v : value) (ts : list ty) :
  forall acc, steps R (union_loop l load v ts acc).
Proof.
  induction ts as [|t ts IH]; intros [[r n] ex]; simpl; steps_tac.
  intros st. pose proof (Hload v t (Some (UNION, OType t)) st) as H1.
  destruct (load v t (Some (UNION, OType t)) st) as [[r'|e|] st1]; simpl in *.
  - destruct (negb (uniondebugconflict l)); simpl; try exact H1.
    eapply R_trans; [exact H1 | apply IH].
  - destruct (recognized e); simpl; try exact H1.
    eapply R_trans; [exact H1 | apply IH].
  - exact H1.
Qed.

End WithLoad.

(** The handlers of a new loader. *)
Lemma default_handlers_step (classes : class_table) :
  forall c f, In (c, f) (default_handlers classes) -> handler_steps R f.
Proof.
  intros c f Hin. simpl in Hin.
  repeat (destruct Hin as [Hin|Hin];
          [inversion Hin; subst c f; clear Hin; intros l load Hload v t|]);
    try destruct Hin.
  - unfold _noneload. steps_tac.
  - unfold _unionload. steps_tac. apply steps_union_loop. exact Hload.
  - unfold _basicload. steps_tac.
  - unfold _enumload. steps_tac.
    apply steps_enum_hints_loop. exact Hload.
  - unfold _tupleload. steps_tac.
    + apply steps_load_each. exact Hload.
    + apply steps_load_zip. exact Hload.
  - unfold _listload. steps_tac.
    intros st.
    match goal with
    | |- R st (snd (match ?m st with _ => _ end)) =>
        assert (H1 : R st (snd (m st)));
        [| destruct (m st) as [[r|e|] st1]; exact H1]
    end.
    revert st. change (steps R (vs <- lift (iterate v) ;; load_each load a 0 vs)).
    steps_tac. apply steps_load_each. exact Hload.
  - unfold _dictload. steps_tac.
    intros st.
    match goal with
    | |- R st (snd (match ?m st with _ => _ end)) =>
        assert (H1 : R st (snd (m st)));
        [| destruct (m st) as [[r|e|] st1]; simpl in *; try exact H1;
           destruct (is_AttributeError (e_class e)); exact H1]
    end.
    revert st.
    match goal with
    | |- forall st, R st (snd (?m st)) => change (steps R m)
    end.
    steps_tac. apply steps_load_items. exact Hload.
  - unfold _setload. steps_tac. apply steps_load_each_set. exact Hload.
  - unfold _frozensetload. steps_tac. apply steps_load_each_set. exact Hload.
  - unfold _namedtupleload. steps_tac;
      first [apply steps_objloader_loop; exact Hload | apply steps_construct].
  - unfold _dataclassload. steps_tac;
      first [apply steps_objloader_loop; exact Hload | apply steps_construct].
  - unfold _forwardrefload. steps_tac.
  - unfold _literalload. steps_tac.
  - unfold _typeddictload. steps_tac;
      first [apply steps_objloader_loop; exact Hload | apply steps_construct].
  - unfold _datetimeload. steps_tac.
  - unfold _strconstructload. steps_tac.
  - unfold _attrload. steps_tac;
      first [apply steps_objloader_loop; exact Hload | apply steps_construct].
  - unfold _anyload. steps_tac.
  - unfold _newtypeload. steps_tac.
Qed.

(** [load] itself, when its lookup and its handlers do. *)
Lemma steps_load (l : Loader) (hs : list handler) :
  (forall v t, steps R (find_index l hs v t)) ->
  (forall c f, In (c, f) hs -> handler_steps R f) ->
  forall fuel v t ann, steps R (load fuel l hs v t ann).
Proof.
  intros Hfind Hhs. induction fuel as [|fuel IH]; intros v t ann; simpl.
  - apply steps_undef.
  - apply steps_bind; [apply Hfind|]. intros i.
    destruct (nth_error hs i) as [[c f]|] eqn:En; [|apply steps_raise].
    apply nth_error_In in En.
    intros st. unfold run_handler.
    pose proof (Hhs c f En l (load fuel l hs) IH v t st) as H1.
    destruct (f l (load fuel l hs) v t st) as [[r|e|] st1]; simpl in *;
      try exact H1.
    destruct (recognized e); exact H1.
Qed.

End Steps.

(* ===================================================================== *)
(** * The cache and the forward-reference table *)
(* ===================================================================== *)

Lemma grows_refl (st : state) : grows st st.
Proof.
  split; [auto|]. destruct (frefs st) as [table|]; [|reflexivity].
  exists table. split; [reflexivity | auto].
Qed.

Lemma grows_trans (a b c : state) : grows a b -> grows b c -> grows a c.
Proof.
  intros [Hc1 Hf1] [Hc2 Hf2]. split; [auto|].
  destruct (frefs a) as [ta|].
  - destruct Hf1 as (tb & Hb & Hab). rewrite Hb in Hf2.
    destruct Hf2 as (tc & Hc & Hbc). exists tc. split; [exact Hc | auto].
  - rewrite Hf1 in Hf2. exact Hf2.
Qed.

Lemma assoc_app_Some {A : Type} (n : string) (m m' : list (string * A)) (a : A) :
  assoc n m = Some a -> assoc n (m ++ m')%list = Some a.
Proof.
  induction m as [|[k x] m IH]; simpl; [discriminate|].
  destruct (String.eqb n k); [auto | exact IH].
Qed.

(** Registering a type keeps the entries of the table, and does not
    replace the entry of a name that has one. *)
Lemma register_fref_grows (t : ty) (table : list (string * ty)) :
  exists table',
    register_fref t (Some table) = Some table'
    /\ forall n t0, assoc n table = Some t0 -> assoc n table' = Some t0.
Proof.
  unfold register_fref. destruct (type_name t) as [name|].
  - destruct (assoc name table) as [t1|] eqn:E.
    + exists table. split; [reflexivity | auto].
    + exists (table ++ [(name, t)])%list. split; [reflexivity|].
      intros n t0 H. apply assoc_app_Some. exact H.
  - exists table. split; [reflexivity | auto].
Qed.

(** The lookup of [load] adds to the state and takes nothing away. *)
Lemma find_index_grows (l : Loader) (hs : list handler) (v : value) (t : ty) :
  steps grows (find_index l hs v t).
Proof.
  intros st. unfold find_index.
  destruct (cache_get t (_indexcache st)) as [p|] eqn:Ec; [apply grows_refl|].
  destruct (index l hs t) as [i|e|]; simpl;
    [| destruct (is_ValueError (e_class e)); apply grows_refl | apply grows_refl].
  split; simpl.
  - intros t' j Hj. destruct (ty_eqb t' t) eqn:Eq; [|exact Hj].
    apply ty_eqb_eq in Eq. subst t'. congruence.
  - destruct (frefs st) as [table|]; [|reflexivity].
    apply register_fref_grows.
Qed.

(** The lookup of [load] keeps the cache in agreement with [index]. *)
Lemma find_index_cache_ok (l : Loader) (hs : list handler) (v : value) (t : ty) :
  steps (fun st st' => cache_ok l hs st -> cache_ok l hs st')
    (find_index l hs v t).
Proof.
  intros st Hok. unfold find_index.
  destruct (cache_get t (_indexcache st)) as [p|] eqn:Ec; [exact Hok|].
  destruct (index l hs t) as [i|e|] eqn:Ei; simpl;
    [| destruct (is_ValueError (e_class e)); exact Hok | exact Hok].
  intros t'. unfold cache_entry_ok. simpl.
  destruct (ty_eqb t' t) eqn:Eq.
  - apply ty_eqb_eq in Eq. subst t'. exact Ei.
  - apply (Hok t').
Qed.

(** X2.  A load never takes an entry out of the handler cache or out of
    the forward-reference table, never replaces one, and never enables a
    table that is disabled. *)
Theorem load_state_grows (classes : class_table) (fuel : nat) (l : Loader)
    (v : value) (t : ty) (ann : option Annotation) (st : state) :
  grows st (snd (load fuel l (default_handlers classes) v t ann st)).
Proof.
  apply (steps_load grows grows_refl grows_trans l (default_handlers classes)).
  - intros v' t'. apply find_index_grows.
  - apply default_handlers_step; [apply grows_refl | apply grows_trans].
Qed.

(** X1.  A load leaves the cache in agreement with [index]: every entry
    holds the index of the first handler that matches its type.  The cache
    of a new loader, which is empty, is in agreement. *)
Theorem load_keeps_cache_ok (classes : class_table) (fuel : nat) (l : Loader)
    (v : value) (t : ty) (ann : option Annotation) (st : state) :
  cache_ok l (default_handlers classes) st ->
  cache_ok l (default_handlers classes)
    (snd (load fuel l (default_handlers classes) v t ann st)).
Proof.
  apply (steps_load
           (fun st st' => cache_ok l (default_handlers classes) st ->
                          cache_ok l (default_handlers classes) st')).
  - auto.
  - auto.
  - intros v' t'. apply find_index_cache_ok.
  - apply default_handlers_step; auto.
Qed.

(** After loading [data] into [Students] with a new loader. *)
Lemma load_keeps_cache_ok_witness :
  cache_entry_ok default_loader (default_handlers TestAttrload.classes)
    TestAttrload.Person
    (snd (load 5 default_loader (default_handlers TestAttrload.classes)
            TestAttrload.data TestAttrload.Students None new_state)).
Proof.
  apply (load_keeps_cache_ok TestAttrload.classes 5 default_loader
           TestAttrload.data TestAttrload.Students None new_state
           (fun t => I) TestAttrload.Person).
Defined.

(* ===================================================================== *)
(** * The exceptions that leave [load] *)
(* ===================================================================== *)






(* ===================================================================== *)
(** * The scalar routines *)
(* ===================================================================== *)



(** X5.  With [basiccast] cleared, [_basicload] returns a value only when
    its type is the target type itself, and then it is the value it was
    given: nothing is converted. *)
Theorem basicload_nocast (classes : class_table) (l : Loader)
    (load : load_t) (v : value) (t : ty) (st st' : state) (r : value) :
  basiccast l = false ->
  _basicload classes l load v t st = (Ret r, st') ->
  r = v /\ type_of v = t /\ st' = st.
Proof.
  unfold _basicload, ret, raise. intros Hcast H. rewrite Hcast in H.
  destruct (ty_eqb (type_of v) t) eqn:Eq; simpl in H; [|discriminate].
  inversion H; subst. repeat split. apply ty_eqb_eq. exact Eq.
Qed.

Lemma basicload_nocast_witness :
  VStr "x" = VStr "x" /\ type_of (VStr "x") = Tstr /\ new_state = new_state.
Proof.
  apply (basicload_nocast TestAttrload.classes nocast_loader list_only_load
           (VStr "x") Tstr new_state new_state (VStr "x")).
  - reflexivity.
  - reflexivity.
Defined.



(* ===================================================================== *)
(** * Sequences and tuples *)
(* ===================================================================== *)

Section Sequences.

Variable load : load_t.

Lemma load_each_length (t : ty) (vs : list value) :
  forall i st rs st',
    load_each load t i vs st = (Ret rs, st') ->
    List.length rs = List.length vs.
Proof.
  induction vs as [|v vs IH]; intros i st rs st' H; simpl in H.
  - inversion H. reflexivity.
  - unfold bind in H.
    destruct (load v t (index_annotation i) st) as [[r|e|] st1]; try discriminate.
    destruct (load_each load t (S i) vs st1) as [[rs1|e|] st2] eqn:E;
      try discriminate.
    inversion H; subst. simpl. f_equal. eapply IH. exact E.
Qed.

Lemma load_zip_length (vs : list value) :
  forall i ts st rs st',
    load_zip load i vs ts st = (Ret rs, st') ->
    List.length rs = Nat.min (List.length vs) (List.length ts).
Proof.
  induction vs as [|v vs IH]; intros i [|t ts] st rs st' H; simpl in H;
    try (inversion H; reflexivity).
  unfold bind in H.
  destruct (load v t (index_annotation i) st) as [[r|e|] st1]; try discriminate.
  destruct (load_zip load (S i) vs ts st1) as [[rs1|e|] st2] eqn:E;
    try discriminate.
  inversion H; subst. simpl. f_equal. eapply IH. exact E.
Qed.

(** The exceptions of the loops are those of [load]. *)
Lemma load_each_raise (t : ty) (vs : list value) :
  forall i st e st',
    load_each load t i vs st = (Raise e, st') ->
    exists v a st0 st1, load v t a st0 = (Raise e, st1).
Proof.
  induction vs as [|v vs IH]; intros i st e st' H; simpl in H.
  - discriminate.
  - unfold bind in H.
    destruct (load v t (index_annotation i) st) as [[r|e1|] st1] eqn:E1;
      try discriminate.
    + destruct (load_each load t (S i) vs st1) as [[rs1|e2|] st2] eqn:E;
        try discriminate.
      inversion H; subst. eapply IH. exact E.
    + inversion H; subst. eauto.
Qed.

End Sequences.

Lemma chars_length (s : string) : List.length (chars s) = String.length s.
Proof.
  induction s as [|c s IH]; simpl; [reflexivity | f_equal; exact IH].
Qed.

(** For a value that is no dict, [len(value)] is the number of the items
    the iteration gives. *)
Lemma py_len_iterate (v : value) (n : nat) (vs : list value) :
  is_dict_instance v = false ->
  py_len v = Ret n -> iterate v = Ret vs -> List.length vs = n.
Proof.
  intros Hd Hn Hi. destruct v; simpl in *; try discriminate;
    inversion Hn; inversion Hi; subst; try reflexivity.
  apply chars_length.
Qed.

(** X7.  A list that [_listload] returns has one element for each item of
    the input, which is no dict; a string counts as the list of its
    characters. *)
Theorem listload_length (l : Loader) (load : load_t) (v : value) (t : ty)
    (st st' : state) (r : value) :
  _listload l load v (TList t) st = (Ret r, st') ->
  is_dict_instance v = false
  /\ exists vs rs,
       iterate v = Ret vs /\ r = VList rs
       /\ List.length rs = List.length vs.
Proof.
  unfold _listload, bind, lift, raise. intros H.
  destruct (is_dict_instance v); [discriminate|]. split; [reflexivity|].
  simpl in H.
  destruct (iterate v) as [vs|e|]; try discriminate.
  destruct (load_each load t 0 vs st) as [[rs|e|] st1] eqn:E; try discriminate.
  inversion H; subst. exists vs, rs. repeat split.
  eapply load_each_length. exact E.
Qed.

(** The string ["ab"] as a list of anything. *)
Lemma listload_length_witness :
  is_dict_instance (VStr "ab") = false
  /\ exists vs rs,
       iterate (VStr "ab") = Ret vs /\ VList [VStr "a"; VStr "b"] = VList rs
       /\ List.length rs = List.length vs.
Proof.
  apply (listload_length default_loader
           (load 1 default_loader (default_handlers TestAttrload.classes))
           (VStr "ab") TAny new_state
           (state_after_lookup TAny 17 new_state)).
  vm_compute. reflexivity.
Defined.

(** X8.  An exception that [_listload] raises is a failure of the engine,
    or it is one that a call of [load] on an item raised and that is no
    [TypeError]: the [TypeError] of a value that cannot be iterated is made
    a failure of the engine, and [_listload] adds no exception of another
    kind. *)
Theorem listload_raises_recognized (l : Loader) (load : load_t) (v : value)
    (t : ty) (st st' : state) (e : exn) :
  _listload l load v (TList t) st = (Raise e, st') ->
  recognized e = true
  \/ (is_TypeError (e_class e) = false
      /\ exists v0 a st0 st1, load v0 t a st0 = (Raise e, st1)).
Proof.
  unfold _listload, bind, lift, raise. intros H.
  destruct (is_dict_instance v); [inversion H; left; reflexivity|].
  simpl in H.
  destruct (iterate v) as [vs|e1|] eqn:Ei.
  - destruct (load_each load t 0 vs st) as [[rs|e1|] st1] eqn:E;
      try discriminate.
    inversion H; subst.
    pose proof (load_each_raise load t vs 0 st e1 st' E) as Hr.
    unfold listload_except.
    destruct (is_TypeError (e_class e1)) eqn:Ht.
    + left. destruct (recognized e1) eqn:Hrec; [exact Hrec | reflexivity].
    + right. split; [exact Ht | exact Hr].
  - inversion H; subst. left. unfold listload_except.
    destruct v; simpl in Ei; try discriminate; inversion Ei; reflexivity.
  - discriminate.
Qed.

(** [3] is no list: [_listload] raises a [TypedloadTypeError]. *)
Lemma listload_raises_recognized_witness :
  recognized
    (new_exn TypedloadTypeError
       (Fmt "'%s' object is not iterable" [Msg "int"])
       (Some (VInt 3)) (Some (TList Tint)) []) = true
  \/ (is_TypeError
        (e_class
           (new_exn TypedloadTypeError
              (Fmt "'%s' object is not iterable" [Msg "int"])
              (Some (VInt 3)) (Some (TList Tint)) [])) = false
      /\ exists v0 a st0 st1,
           list_only_load v0 Tint a st0
           = (Raise
                (new_exn TypedloadTypeError
                   (Fmt "'%s' object is not iterable" [Msg "int"])
                   (Some (VInt 3)) (Some (TList Tint)) []), st1)).
Proof.
  apply (listload_raises_recognized default_loader list_only_load (VInt 3) Tint
           new_state new_state).
  reflexivity.
Defined.

(** X9.  A tuple that [_tupleload] returns for [Tuple[X, ...]] has one
    element for each item of the input; for a tuple type of fixed arity it
    has exactly as many elements as the type has arguments, the items of
    the input beyond them being left out, and with [failonextra] set the
    input has no such item. *)
Theorem tupleload_arity (l : Loader) (load : load_t) (v : value)
    (args : list ty) (st st' : state) (r : value) :
  _tupleload l load v (TTuple args) st = (Ret r, st') ->
  match is_variadic args with
  | Some _ =>
      exists vs rs,
        iterate v = Ret vs /\ r = VTuple rs /\ List.length rs = List.length vs
  | None =>
      exists n rs,
        py_len v = Ret n /\ r = VTuple rs
        /\ List.length rs = List.length args
        /\ (List.length args <= n)%nat
        /\ (failonextra l = true -> n = List.length args)
  end.
Proof.
  unfold _tupleload, bind, lift, raise. intros H.
  destruct (is_dict_instance v) eqn:Hd; [discriminate|].
  simpl in H. destruct (is_variadic args) as [a|].
  - destruct (iterate v) as [vs|e|]; try discriminate.
    destruct (load_each load a 0 vs st) as [[rs|e|] st1] eqn:E; try discriminate.
    inversion H; subst. exists vs, rs. repeat split.
    eapply load_each_length. exact E.
  - destruct (py_len v) as [n|e|] eqn:Hn; try discriminate.
    destruct (failonextra l && (List.length args <? n)%nat) eqn:Hlong;
      [discriminate|].
    destruct (n <? List.length args)%nat eqn:Hshort; [discriminate|].
    destruct (iterate v) as [vs|e|] eqn:Hi; try discriminate.
    destruct (load_zip load 0 vs args st) as [[rs|e|] st1] eqn:E;
      try discriminate.
    inversion H; subst. apply Nat.ltb_ge in Hshort.
    exists n, rs. repeat split; try assumption.
    + rewrite (load_zip_length load vs 0 args st rs st' E).
      rewrite (py_len_iterate v n vs Hd Hn Hi). lia.
    + intros Hf. rewrite Hf in Hlong. simpl in Hlong.
      apply Nat.ltb_ge in Hlong. lia.
Qed.

(** [[1, 'a', None]] as a [Tuple[Any, Any]]: the third item is left out. *)
Lemma tupleload_arity_witness :
  exists n rs,
    py_len (VList [VInt 1; VStr "a"; VNone]) = Ret n
    /\ VTuple [VInt 1; VStr "a"] = VTuple rs
    /\ List.length rs = List.length [TAny; TAny]
    /\ (List.length [TAny; TAny] <= n)%nat
    /\ (failonextra default_loader = true -> n = List.length [TAny; TAny]).
Proof.
  apply (tupleload_arity default_loader
           (load 1 default_loader (default_handlers TestAttrload.classes))
           (VList [VInt 1; VStr "a"; VNone]) [TAny; TAny] new_state
           (state_after_lookup TAny 17 new_state)).
  vm_compute. reflexivity.
Defined.

(* ===================================================================== *)
(** * Name mangling *)
(* ===================================================================== *)

Lemma dict_set_keys (k v : value) (d : list (value * value)) :
  forall k', In k' (map fst (dict_set k v d)) -> In k' (map fst d) \/ k' = k.
Proof.
  induction d as [|[k0 v0] d IH]; intros k' H; simpl in *.
  - destruct H as [H|[]]. right. congruence.
  - destruct (py_eq k k0); simpl in H.
    + left. exact H.
    + destruct H as [H|H]; [left; left; exact H|].
      destruct (IH k' H) as [H1|H1]; [left; right; exact H1 | right; exact H1].
Qed.

Lemma dict_set_keeps (k v : value) (d : list (value * value)) (x : value) :
  py_in x (map fst d) = true -> py_in x (map fst (dict_set k v d)) = true.
Proof.
  unfold py_in. induction d as [|[k0 v0] d IH]; simpl; [discriminate|].
  intros H. destruct (py_eq k k0); simpl; [exact H|].
  destruct (py_eq x k0); [reflexivity|]. simpl in *. apply IH. exact H.
Qed.

Lemma dict_set_has (k v : value) (d : list (value * value)) :
  py_in k (map fst (dict_set k v d)) = true.
Proof.
  unfold py_in. induction d as [|[k0 v0] d IH]; simpl.
  - rewrite py_eq_refl. reflexivity.
  - destruct (py_eq k k0) eqn:E; simpl; [rewrite E; reflexivity|].
    rewrite E. exact IH.
Qed.

Lemma dict_set_length (k v : value) (d : list (value * value)) :
  (List.length (dict_set k v d) <= S (List.length d))%nat.
Proof.
  induction d as [|[k0 v0] d IH]; simpl; [lia|].
  destruct (py_eq k k0); simpl; lia.
Qed.

Section Mangling.

Variable namesmap : list (value * value).

(** Without [failonextra] the loop ends with a dictionary: its keys are
    those of [r] and the names of the keys it took, and it has the name of
    every key it took. *)
Lemma mangle_loop_lenient (items : list (value * value)) :
  forall r,
    exists r',
      mangle_loop namesmap (map snd namesmap) false items r = Ret r'
      /\ (forall k', In k' (map fst r') ->
            In k' (map fst r)
            \/ exists k, In k (map fst items) /\ shadowed namesmap k = false
                         /\ k' = renamed namesmap k)
      /\ (forall x, py_in x (map fst r) = true -> py_in x (map fst r') = true)
      /\ (forall k, In k (map fst items) -> shadowed namesmap k = false ->
            py_in (renamed namesmap k) (map fst r') = true)
      /\ (List.length r' <= List.length r + List.length items)%nat.
Proof.
  induction items as [|[k v] items IH]; intros r; simpl.
  - exists r. repeat split; auto; try lia; try (intros k []).
  - fold (shadowed namesmap k). fold (renamed namesmap k).
    destruct (shadowed namesmap k) eqn:Hs.
    + destruct (IH r) as (r' & Hrun & Hkeys & Hkeep & Hhas & Hlen).
      exists r'. repeat split; try assumption; try lia.
      * intros k' Hk'. destruct (Hkeys k' Hk') as [H|(k0 & Hin & Hs0 & Heq)];
          [left; exact H | right; exists k0; auto].
      * intros k0 [Hk0|Hk0] Hs0; [congruence | apply Hhas; assumption].
    + destruct (IH (dict_set (renamed namesmap k) v r))
        as (r' & Hrun & Hkeys & Hkeep & Hhas & Hlen).
      exists r'. repeat split; try assumption.
      * intros k' Hk'. destruct (Hkeys k' Hk') as [H|(k0 & Hin & Hs0 & Heq)].
        -- apply dict_set_keys in H as [H|H]; [left; exact H|].
           right. exists k. auto.
        -- right. exists k0. auto.
      * intros x Hx. apply Hkeep. apply dict_set_keeps. exact Hx.
      * intros k0 [Hk0|Hk0] Hs0.
        -- subst k0. apply Hkeep. apply dict_set_has.
        -- apply Hhas; assumption.
      * pose proof (dict_set_length (renamed namesmap k) v r). lia.
Qed.

(** With [failonextra] the loop fails at the first key that is the Python
    name of an aliased field and no alias; without such a key it does what
    it does without [failonextra]. *)
Lemma mangle_loop_strict (items : list (value * value)) :
  forall r,
    match find (shadowed namesmap) (map fst items) with
    | Some k =>
        mangle_loop namesmap (map snd namesmap) true items r
        = Raise (foreign ValueError (Fmt "Extra field: %s" [Str k]))
    | None =>
        mangle_loop namesmap (map snd namesmap) true items r
        = mangle_loop namesmap (map snd namesmap) false items r
    end.
Proof.
  induction items as [|[k v] items IH]; intros r; simpl; [reflexivity|].
  fold (shadowed namesmap k).
  destruct (shadowed namesmap k); [reflexivity | apply IH].
Qed.

End Mangling.

(** X10.  Without [failonextra], [_mangle_names] turns a dict into a dict
    and never fails.  Every key of the result is the name, under the map,
    of a key of the input that is not the Python name of an aliased field
    (unless it is an alias itself); the name of every such key is a key of
    the result; and the result has no more items than the input. *)
Theorem mangle_names_lenient (namesmap d : list (value * value)) :
  exists d',
    _mangle_names namesmap (VDict d) false = Ret (VDict d')
    /\ (forall k', In k' (map fst d') ->
          exists k, In k (map fst d) /\ shadowed namesmap k = false
                    /\ k' = renamed namesmap k)
    /\ (forall k, In k (map fst d) -> shadowed namesmap k = false ->
          py_in (renamed namesmap k) (map fst d') = true)
    /\ (List.length d' <= List.length d)%nat.
Proof.
  destruct namesmap as [|nm namesmap'] eqn:Hnm.
  - exists d. simpl. repeat split; auto.
    + intros k' Hk'. exists k'. repeat split; assumption.
    + intros k Hk _. unfold renamed. simpl. unfold py_in.
      apply existsb_exists. exists k. split; [exact Hk | apply py_eq_refl].
  - rewrite <- Hnm. unfold _mangle_names. rewrite Hnm. rewrite <- Hnm.
    simpl py_items.
    destruct (mangle_loop_lenient namesmap d [])
      as (r' & Hrun & Hkeys & _ & Hhas & Hlen).
    rewrite Hrun. exists r'. repeat split; try assumption.
    intros k' Hk'. destruct (Hkeys k' Hk') as [[]|H]. exact H.
Qed.

(** X11.  With [failonextra], [_mangle_names] fails on a dict exactly when
    one of its keys is the Python name of an aliased field and no alias
    itself: it raises [ValueError] for the first such key; on any other
    dict it returns what it returns without [failonextra]. *)
Theorem mangle_names_strict (namesmap d : list (value * value)) :
  match find (shadowed namesmap) (map fst d) with
  | Some k =>
      _mangle_names namesmap (VDict d) true
      = Raise (foreign ValueError (Fmt "Extra field: %s" [Str k]))
  | None =>
      _mangle_names namesmap (VDict d) true
      = _mangle_names namesmap (VDict d) false
  end.
Proof.
  destruct namesmap as [|nm namesmap'] eqn:Hnm.
  - assert (Hnone : find (shadowed []) (map fst d) = None).
    { induction (map fst d) as [|k ks IH]; [reflexivity | exact IH]. }
    rewrite Hnone. reflexivity.
  - rewrite <- Hnm. unfold _mangle_names. rewrite Hnm. rewrite <- Hnm.
    simpl py_items.
    pose proof (mangle_loop_strict namesmap d []) as H.
    destruct (find (shadowed namesmap) (map fst d)) as [k|]; rewrite H;
      reflexivity.
Qed.

(** With the map of [Mangle], [{'value': 1}] uses the Python name of the
    field: it is left out without [failonextra], and refused with it. *)
Example mangle_names_python_name :
  _mangle_names [(VStr "va.lue", VStr "value")] (VDict [(VStr "value", VInt 1)])
    false = Ret (VDict [])
  /\ _mangle_names [(VStr "va.lue", VStr "value")]
       (VDict [(VStr "value", VInt 1)]) true
     = Raise (foreign ValueError (Fmt "Extra field: %s" [Str (VStr "value")])).
Proof. split; reflexivity. Qed.

(* ===================================================================== *)
(** * Records: the keys that are no fields *)
(* ===================================================================== *)

Lemma py_eq_VStr (s : string) (k : value) :
  py_eq (VStr s) k = true -> k = VStr s.
Proof.
  destruct k; simpl; try discriminate.
  intros H. apply String.eqb_eq in H. congruence.
Qed.

(** A field is a key of the data as soon as it is a key of the known
    items of the data. *)
Lemma py_in_known_items (fields : list string) (n : string)
    (d : list (value * value)) :
  In n fields ->
  py_in (VStr n) (map fst (known_items fields d))
  = py_in (VStr n) (map fst d).
Proof.
  intros Hn. unfold py_in, known_items.
  induction d as [|[k v] d IH]; [reflexivity|].
  cbn -[py_eq field_name].
  destruct (py_eq (VStr n) k) eqn:E.
  - apply py_eq_VStr in E. subst k.
    assert (Hf : field_name (VStr n) fields = Some n).
    { simpl. apply name_in_In in Hn. rewrite Hn. reflexivity. }
    rewrite Hf. cbn -[py_eq]. rewrite py_eq_refl. reflexivity.
  - destruct (field_name k fields); cbn -[py_eq]; [rewrite E|]; exact IH.
Qed.

Lemma names_inter_known (fields necessary : list string)
    (d : list (value * value)) :
  (forall n, In n necessary -> In n fields) ->
  names_inter necessary (map fst (known_items fields d))
  = names_inter necessary (map fst d).
Proof.
  intros Hsub. unfold names_inter. apply filter_ext_in.
  intros n Hn. apply py_in_known_items. apply Hsub. exact Hn.
Qed.

Section ExtraFields.

Variable classes : class_table.
Variable l : Loader.
Variable load : load_t.
Variable fields : list string.
Variable type_hints : list (string * ty).
Variable type_ : ty.

(** Without [failonextra] the loop passes over the keys that are no
    fields. *)
Lemma objloader_loop_lenient (vfields vfields' : list value) (v0 v0' : value)
    (items : list (value * value)) :
  failonextra l = false ->
  forall params st,
    objloader_loop l load fields type_hints vfields type_ v0 items params st
    = objloader_loop l load fields type_hints vfields' type_ v0'
        (known_items fields items) params st.
Proof.
  intros Hf. induction items as [|[k v] items IH]; intros params st; simpl;
    [reflexivity|].
  destruct (field_name k fields) as [name|] eqn:Ek; simpl.
  - rewrite Ek. destruct (assoc name type_hints) as [t|]; [|reflexivity].
    unfold bind.
    destruct (load v t (Some (FIELD, OVal k)) st) as [[r|e|] st1];
      try reflexivity.
    apply IH.
  - rewrite Hf. apply IH.
Qed.

End ExtraFields.

Section ExtraFieldsStrict.

Variable l : Loader.
Variable load : load_t.
Variable fields : list string.
Variable type_hints : list (string * ty).
Variable type_ : ty.

(** With [failonextra] the loop does not get past a key that is no
    field. *)
Lemma objloader_loop_strict (vfields : list value) (v0 : value)
    (items : list (value * value)) (k : value) :
  failonextra l = true ->
  In k (map fst items) ->
  field_name k fields = None ->
  forall params st r st',
    objloader_loop l load fields type_hints vfields type_ v0 items params st
    <> (Ret r, st').
Proof.
  intros Hf Hin Hk. induction items as [|[k0 v] items IH];
    intros params st r st'; simpl in *; [destruct Hin|].
  destruct (field_name k0 fields) as [name|] eqn:Ek.
  - destruct Hin as [Hin|Hin]; [congruence|].
    destruct (assoc name type_hints) as [t|]; [|discriminate].
    unfold bind.
    destruct (load v t (Some (FIELD, OVal k0)) st) as [[r1|e|] st1];
      try discriminate.
    apply IH. exact Hin.
  - rewrite Hf.
    destruct (join_names _); discriminate.
Qed.

End ExtraFieldsStrict.

(** X12.  Without [failonextra], the keys of the data that are no fields
    of the type have no part in the record that [_objloader] builds: it is
    the record built from the data without them, and the state left is the
    same. *)
Theorem objloader_ignores_extra (classes : class_table) (l : Loader)
    (load : load_t) (fields necessary : list string)
    (type_hints : list (string * ty)) (d : list (value * value)) (type_ : ty)
    (st st' : state) (r : value) :
  failonextra l = false ->
  (forall n, In n necessary -> In n fields) ->
  _objloader classes l load fields necessary type_hints (VDict d) type_ st
  = (Ret r, st')
  <-> _objloader classes l load fields necessary type_hints
        (VDict (known_items fields d)) type_ st
      = (Ret r, st').
Proof.
  intros Hf Hsub. unfold _objloader, bind, lift. simpl.
  rewrite (names_inter_known fields necessary d Hsub).
  destruct (negb (names_eqb (names_inter necessary (map fst d)) necessary)).
  - split; discriminate.
  - rewrite (objloader_loop_lenient l load fields type_hints type_
               (map fst d) (map fst (known_items fields d))
               (VDict d) (VDict (known_items fields d)) d Hf [] st).
    assert (Hidem : known_items fields (known_items fields d)
                    = known_items fields d).
    { unfold known_items. induction d as [|[k v] d IH]; simpl; [reflexivity|].
      destruct (field_name k fields) eqn:Ek; simpl; [rewrite Ek|];
        simpl; congruence. }
    rewrite (objloader_loop_lenient l load fields type_hints type_
               (map fst (known_items fields d))
               (map fst (known_items fields d))
               (VDict (known_items fields d)) (VDict (known_items fields d))
               (known_items fields d) Hf [] st).
    rewrite Hidem. reflexivity.
Qed.

(** [{'name': 'A', 'age': 3}] as a [Person]: the age has no part in it. *)
Lemma objloader_ignores_extra_witness :
  _objloader TestAttrload.classes default_loader
    (load 2 default_loader (default_handlers TestAttrload.classes))
    ["name"; "address"] []
    [("name", Tstr); ("address", TestAttrload.Optional Tstr)]
    (VDict [(VStr "name", VStr "A"); (VStr "age", VInt 3)])
    TestAttrload.Person new_state
  = (Ret (VObj "Person" [("name", VStr "A"); ("address", VNone)]),
     state_after_lookup Tstr 2 new_state)
  <-> _objloader TestAttrload.classes default_loader
        (load 2 default_loader (default_handlers TestAttrload.classes))
        ["name"; "address"] []
        [("name", Tstr); ("address", TestAttrload.Optional Tstr)]
        (VDict (known_items ["name"; "address"]
                  [(VStr "name", VStr "A"); (VStr "age", VInt 3)]))
        TestAttrload.Person new_state
      = (Ret (VObj "Person" [("name", VStr "A"); ("address", VNone)]),
         state_after_lookup Tstr 2 new_state).
Proof.
  apply (objloader_ignores_extra TestAttrload.classes default_loader
           (load 2 default_loader (default_handlers TestAttrload.classes))
           ["name"; "address"] []
           [("name", Tstr); ("address", TestAttrload.Optional Tstr)]
           [(VStr "name", VStr "A"); (VStr "age", VInt 3)]
           TestAttrload.Person new_state
           (state_after_lookup Tstr 2 new_state)
           (VObj "Person" [("name", VStr "A"); ("address", VNone)])).
  - reflexivity.
  - intros n [].
Defined.

(** The record of the witness is indeed what [_objloader] builds. *)
Example objloader_ignores_age :
  _objloader TestAttrload.classes default_loader
    (load 2 default_loader (default_handlers TestAttrload.classes))
    ["name"; "address"] []
    [("name", Tstr); ("address", TestAttrload.Optional Tstr)]
    (VDict [(VStr "name", VStr "A"); (VStr "age", VInt 3)])
    TestAttrload.Person new_state
  = (Ret (VObj "Person" [("name", VStr "A"); ("address", VNone)]),
     state_after_lookup Tstr 2 new_state).
Proof. vm_compute. reflexivity. Qed.

(** X13.  With [failonextra], [_objloader] builds no record from data that
    has a key that is no field of the type. *)
Theorem objloader_refuses_extra (classes : class_table) (l : Loader)
    (load : load_t) (fields necessary : list string)
    (type_hints : list (string * ty)) (d : list (value * value)) (type_ : ty)
    (k : value) (st : state) :
  failonextra l = true ->
  In k (map fst d) ->
  field_name k fields = None ->
  returned
    (fst (_objloader classes l load fields necessary type_hints (VDict d)
            type_ st))
  = false.
Proof.
  intros Hf Hin Hk. unfold _objloader, bind, lift. simpl.
  destruct (negb (names_eqb (names_inter necessary (map fst d)) necessary));
    [reflexivity|].
  destruct (objloader_loop l load fields type_hints (map fst d) type_ (VDict d)
              d [] st) as [[params|e|] st1] eqn:E; try reflexivity.
  exfalso.
  exact (objloader_loop_strict l load fields type_hints type_ (map fst d)
           (VDict d) d k Hf Hin Hk [] st params st1 E).
Qed.

(** [{'name': 'A', 'age': 3}] is no [Person] for a strict loader. *)
Lemma objloader_refuses_extra_witness :
  returned
    (fst (_objloader TestAttrload.classes strict_loader
            (load 2 strict_loader (default_handlers TestAttrload.classes))
            ["name"; "address"] []
            [("name", Tstr); ("address", TestAttrload.Optional Tstr)]
            (VDict [(VStr "name", VStr "A"); (VStr "age", VInt 3)])
            TestAttrload.Person new_state))
  = false.
Proof.
  apply (objloader_refuses_extra TestAttrload.classes strict_loader
           (load 2 strict_loader (default_handlers TestAttrload.classes))
           ["name"; "address"] []
           [("name", Tstr); ("address", TestAttrload.Optional Tstr)]
           [(VStr "name", VStr "A"); (VStr "age", VInt 3)]
           TestAttrload.Person (VStr "age") new_state).
  - reflexivity.
  - right. left. reflexivity.
  - reflexivity.
Defined.

(* ===================================================================== *)
(** * Forward references *)
(* ===================================================================== *)

Lemma assoc_app_None {A : Type} (n : string) (m : list (string * A)) (a : A) :
  assoc n m = None -> assoc n (m ++ [(n, a)])%list = Some a.
Proof.
  induction m as [|[k x] m IH]; simpl.
  - rewrite String.eqb_refl. reflexivity.
  - destruct (String.eqb n k); [discriminate | exact IH].
Qed.

Lemma run_handler_snd (f : loader_fn) (l : Loader) (load : load_t) (v : value)
    (t : ty) (ann : option Annotation) (st : state) :
  snd (run_handler f l load v t ann st) = snd (f l load v t st).
Proof.
  unfold run_handler. destruct (f l load v t st) as [[r|e|] st1]; try reflexivity.
  destruct (recognized e); reflexivity.
Qed.

(** A forward reference that is not made a basic type goes to
    [_forwardrefload]. *)
Lemma index_forwardref (classes : class_table) (l : Loader) (n : string) :
  ty_in (TForwardRef n) (basictypes l) = false ->
  index l (default_handlers classes) (TForwardRef n) = Ret 11%nat.
Proof.
  intros Hb. unfold index. simpl. unfold cond_of. simpl.
  rewrite Hb. reflexivity.
Qed.

(** The lookup of a type without a name leaves the table as it is. *)
Lemma state_after_lookup_frefs (t : ty) (i : nat) (st : state) :
  type_name t = None ->
  frefs (state_after_lookup t i st) = frefs st.
Proof.
  intros Hn. unfold state_after_lookup.
  destruct (cache_get t (_indexcache st)); [reflexivity|].
  simpl. unfold register_fref. rewrite Hn.
  destruct (frefs st); reflexivity.
Qed.

(** What [_forwardrefload] does with a table that has the name. *)
Lemma forwardrefload_known (l : Loader) (load : load_t) (v : value)
    (n : string) (st : state) (table : list (string * ty)) (t : ty) :
  frefs st = Some table ->
  assoc n table = Some t ->
  _forwardrefload l load v (TForwardRef n) st
  = load v t (Some (FORWARDREF, OVal (VStr n))) st.
Proof.
  intros Hf Ha. unfold _forwardrefload, bind, get_state. rewrite Hf, Ha.
  reflexivity.
Qed.

(** The first load of a class puts it in the table under its name, where
    it stays. *)
Lemma load_registers_class (classes : class_table) (fuel : nat) (l : Loader)
    (v : value) (c : string) (ann : option Annotation) (st : state)
    (table : list (string * ty)) (i : nat) :
  frefs st = Some table ->
  assoc c table = None ->
  cache_get (TClass c) (_indexcache st) = None ->
  index l (default_handlers classes) (TClass c) = Ret i ->
  exists table',
    frefs (snd (load (S fuel) l (default_handlers classes) v (TClass c) ann st))
    = Some table'
    /\ assoc c table' = Some (TClass c).
Proof.
  intros Hf Ha Hc Hi.
  destruct (index_from_first l (TClass c) (default_handlers classes) 0 i Hi)
    as (j & cond & f & Hij & Hn & _). simpl in Hij. subst j.
  assert (Hok : cache_entry_ok l (default_handlers classes) (TClass c) st)
    by (unfold cache_entry_ok; rewrite Hc; exact I).
  rewrite (load_lookup fuel l (default_handlers classes) v (TClass c) ann st
             i cond f Hok Hi Hn).
  rewrite run_handler_snd.
  set (st1 := state_after_lookup (TClass c) i st).
  assert (H1 : frefs st1 = Some (table ++ [(c, TClass c)])%list).
  { unfold st1, state_after_lookup. rewrite Hc. simpl. rewrite Hf.
    unfold register_fref. simpl. rewrite Ha. reflexivity. }
  pose proof (default_handlers_step grows grows_refl grows_trans classes
                cond f (nth_error_In _ _ Hn) l
                (load fuel l (default_handlers classes))
                (steps_load grows grows_refl grows_trans l
                   (default_handlers classes)
                   (fun v' t' => find_index_grows l _ v' t')
                   (default_handlers_step grows grows_refl grows_trans classes)
                   fuel)
                v (TClass c) st1) as [_ Hg].
  rewrite H1 in Hg. destruct Hg as (table' & Ht' & Hkeep).
  exists table'. split; [exact Ht'|].
  apply Hkeep. apply assoc_app_None. exact Ha.
Qed.

(** X14.  Once a loader has loaded into a class, a forward reference to the
    name of the class is loaded as the class is: the first load registers
    the class under its name, no later step removes it, and
    [_forwardrefload] passes the value on to [load] with the class,
    annotated with the name. *)
Theorem forwardref_resolves_loaded_class (classes : class_table)
    (fuel fuel' : nat) (l : Loader) (v v' : value) (c : string)
    (ann ann' : option Annotation) (st : state) (table : list (string * ty))
    (i : nat) :
  cache_ok l (default_handlers classes) st ->
  frefs st = Some table ->
  assoc c table = None ->
  cache_get (TClass c) (_indexcache st) = None ->
  index l (default_handlers classes) (TClass c) = Ret i ->
  ty_in (TForwardRef c) (basictypes l) = false ->
  let st' := snd (load (S fuel) l (default_handlers classes) v (TClass c) ann st) in
  load (S fuel') l (default_handlers classes) v' (TForwardRef c) ann' st'
  = run_handler
      (fun _ load0 v0 _ => load0 v0 (TClass c) (Some (FORWARDREF, OVal (VStr c))))
      l (load fuel' l (default_handlers classes)) v' (TForwardRef c) ann'
      (state_after_lookup (TForwardRef c) 11 st').
Proof.
  intros Hok Hf Ha Hc Hi Hb st'.
  destruct (load_registers_class classes fuel l v c ann st table i Hf Ha Hc Hi)
    as (table' & Ht' & Hreg). fold st' in Ht'.
  assert (Hok' : cache_ok l (default_handlers classes) st')
    by (apply load_keeps_cache_ok; exact Hok).
  rewrite (load_lookup fuel' l (default_handlers classes) v' (TForwardRef c)
             ann' st' 11 (cond_of is_forwardref) _forwardrefload
             (Hok' (TForwardRef c)) (index_forwardref classes l c Hb) eq_refl).
  unfold run_handler.
  rewrite (forwardrefload_known l (load fuel' l (default_handlers classes)) v' c
             (state_after_lookup (TForwardRef c) 11 st') table' (TClass c)).
  - reflexivity.
  - rewrite state_after_lookup_frefs by reflexivity. exact Ht'.
  - exact Hreg.
Qed.

(** After [load({}, Person)], [ForwardRef('Person')] is the [Person]. *)
Lemma forwardref_resolves_loaded_class_witness :
  let st' := snd (load 3 default_loader (default_handlers TestAttrload.classes)
                    (VDict []) TestAttrload.Person None new_state) in
  load 4 default_loader (default_handlers TestAttrload.classes)
    (VDict [(VStr "name", VStr "B")]) (TForwardRef "Person") None st'
  = run_handler
      (fun _ load0 v0 _ =>
         load0 v0 (TClass "Person") (Some (FORWARDREF, OVal (VStr "Person"))))
      default_loader
      (load 3 default_loader (default_handlers TestAttrload.classes))
      (VDict [(VStr "name", VStr "B")]) (TForwardRef "Person") None
      (state_after_lookup (TForwardRef "Person") 11 st').
Proof.
  apply (forwardref_resolves_loaded_class TestAttrload.classes 2 3
           default_loader (VDict []) (VDict [(VStr "name", VStr "B")]) "Person"
           None None new_state [] 16%nat).
  - intros t. exact I.
  - reflexivity.
  - reflexivity.
  - reflexivity.
  - reflexivity.
  - reflexivity.
Defined.

(** And the value of that load. *)
Example forwardref_Person :
  fst (load 4 default_loader (default_handlers TestAttrload.classes)
         (VDict [(VStr "name", VStr "B")]) (TForwardRef "Person") None
         (snd (load 3 default_loader (default_handlers TestAttrload.classes)
                 (VDict []) TestAttrload.Person None new_state)))
  = Ret (VObj "Person" [("name", VStr "B"); ("address", VNone)]).
Proof. vm_compute. reflexivity. Qed.

(* ===================================================================== *)
(** * Enumerations *)
(* ===================================================================== *)

Section EnumLoop.

Variable classes : class_table.
Variable load : load_t.
Variable type_ : ty.
Variable v : value.


End EnumLoop.



(* ===================================================================== *)
(** * Objects that are as good as dicts *)
(* ===================================================================== *)

(** X16.  With [dictequivalence], an [argparse.Namespace] is loaded as the
    dict of its attributes is, into a record and into a dict; without it,
    a record cannot be loaded from a [Namespace]: the failure is a
    [TypedloadAttributeError]. *)
Theorem namespace_as_dict (classes : class_table) (l : Loader) (load : load_t)
    (kw : list (string * value)) (st : state) :
  (dictequivalence l = true ->
     (forall fields necessary type_hints type_,
         _objloader classes l load fields necessary type_hints
           (VNamespace kw) type_ st
         = _objloader classes l load fields necessary type_hints
             (VDict (map (fun kv => (VStr (fst kv), snd kv)) kw)) type_ st)
     /\ (forall type_,
           _dictload classes l load (VNamespace kw) type_ st
           = _dictload classes l load
               (VDict (map (fun kv => (VStr (fst kv), snd kv)) kw)) type_ st))
  /\ (dictequivalence l = false ->
        forall fields necessary type_hints type_,
          exists e,
            _objloader classes l load fields necessary type_hints
              (VNamespace kw) type_ st = (Raise e, st)
            /\ e_class e = TypedloadAttributeError
            /\ e_value e = Some (VNamespace kw)).
Proof.
  split.
  - intros Hd. split.
    + intros fields necessary type_hints type_.
      unfold _objloader, bind, lift. simpl. rewrite Hd. reflexivity.
    + intros type_. unfold _dictload, bind, lift. simpl. rewrite Hd.
      reflexivity.
  - intros Hd fields necessary type_hints type_.
    unfold _objloader, bind, lift. simpl. rewrite Hd. simpl.
    eexists. repeat split.
Qed.

(** [Namespace(name='A')] as a [Person]. *)
Example namespace_as_Person :
  typedload_load TestAttrload.classes 2 (VNamespace [("name", VStr "A")])
    TestAttrload.Person
  = Ret (VObj "Person" [("name", VStr "A"); ("address", VNone)]).
Proof. vm_compute. reflexivity. Qed.

(* ===================================================================== *)
(** * The cache after a load *)
(* ===================================================================== *)

Lemma value_eqb_refl (a : value) : value_eqb a a = true.
Proof.
  induction a using value_nested_ind; simpl;
    try reflexivity;
    try (apply Z.eqb_refl); try (apply String.eqb_refl).
  - destruct b; reflexivity.
  - rewrite !Z.eqb_refl. reflexivity.
  - induction H as [|x xs Hx _ IH]; [reflexivity | rewrite Hx; exact IH].
  - induction H as [|x xs Hx _ IH]; [reflexivity | rewrite Hx; exact IH].
  - induction H as [|x xs Hx _ IH]; [reflexivity | rewrite Hx; exact IH].
  - induction H as [|x xs Hx _ IH]; [reflexivity | rewrite Hx; exact IH].
  - induction H as [|[k x] xs [Hk Hx] _ IH]; [reflexivity|].
    simpl in Hk, Hx. rewrite Hk, Hx. exact IH.
  - rewrite !String.eqb_refl. reflexivity.
  - rewrite String.eqb_refl. simpl.
    induction H as [|[n x] xs Hx _ IH]; [reflexivity|].
    simpl in Hx. rewrite String.eqb_refl, Hx. exact IH.
  - induction H as [|[n x] xs Hx _ IH]; [reflexivity|].
    simpl in Hx. rewrite String.eqb_refl, Hx. exact IH.
Qed.

Lemma ty_eqb_refl (a : ty) : ty_eqb a a = true.
Proof.
  induction a using ty_nested_ind; simpl; try reflexivity;
    try (apply String.eqb_refl); try assumption.
  - induction H as [|x xs Hx _ IH]; [reflexivity | rewrite Hx; exact IH].
  - induction H as [|x xs Hx _ IH]; [reflexivity | rewrite Hx; exact IH].
  - rewrite IHa1, IHa2. reflexivity.
  - induction vs as [|x xs IH]; [reflexivity|].
    rewrite value_eqb_refl. exact IH.
  - rewrite String.eqb_refl, IHa. reflexivity.
Qed.

(** X17.  After a load into a type that a handler matches, the cache holds
    the index of that handler for the type, so that the next load into the
    type does not go through the conditions again. *)
Theorem load_caches_index (classes : class_table) (fuel : nat) (l : Loader)
    (v : value) (t : ty) (ann : option Annotation) (st : state) (i : nat) :
  cache_entry_ok l (default_handlers classes) t st ->
  index l (default_handlers classes) t = Ret i ->
  cache_get t
    (_indexcache (snd (load (S fuel) l (default_handlers classes) v t ann st)))
  = Some i.
Proof.
  intros Hok Hi.
  destruct (index_from_first l t (default_handlers classes) 0 i Hi)
    as (j & cond & f & Hij & Hn & _). simpl in Hij. subst j.
  rewrite (load_lookup fuel l (default_handlers classes) v t ann st
             i cond f Hok Hi Hn).
  rewrite run_handler_snd.
  pose proof (default_handlers_step grows grows_refl grows_trans classes
                cond f (nth_error_In _ _ Hn) l
                (load fuel l (default_handlers classes))
                (steps_load grows grows_refl grows_trans l
                   (default_handlers classes)
                   (fun v' t' => find_index_grows l _ v' t')
                   (default_handlers_step grows grows_refl grows_trans classes)
                   fuel)
                v t (state_after_lookup t i st)) as [Hg _].
  apply Hg. unfold state_after_lookup, cache_entry_ok in *.
  destruct (cache_get t (_indexcache st)) as [p|] eqn:Ec.
  - rewrite Ec. congruence.
  - simpl. rewrite ty_eqb_refl. reflexivity.
Qed.

(** After [load(data, Students)] the cache knows the handler of
    [Students]. *)
Lemma load_caches_index_witness :
  cache_get TestAttrload.Students
    (_indexcache
       (snd (load 5 default_loader (default_handlers TestAttrload.classes)
               TestAttrload.data TestAttrload.Students None new_state)))
  = Some 16%nat.
Proof.
  apply (load_caches_index TestAttrload.classes 4 default_loader
           TestAttrload.data TestAttrload.Students None new_state 16).
  - exact I.
  - reflexivity.
Defined.

(* ===================================================================== *)
(** * Sets *)
(* ===================================================================== *)

(** A set type that is not made a basic type goes to its routine. *)
Lemma index_set (classes : class_table) (l : Loader) (t : ty) :
  ty_in (TSet t) (basictypes l) = false ->
  index l (default_handlers classes) (TSet t) = Ret 7%nat.
Proof.
  intros Hb. unfold index. simpl. unfold cond_of. simpl.
  rewrite Hb. reflexivity.
Qed.

Lemma index_frozenset (classes : class_table) (l : Loader) (t : ty) :
  ty_in (TFrozenSet t) (basictypes l) = false ->
  index l (default_handlers classes) (TFrozenSet t) = Ret 8%nat.
Proof.
  intros Hb. unfold index. simpl. unfold cond_of. simpl.
  rewrite Hb. reflexivity.
Qed.

(** What cannot be iterated raises a [TypeError] that is no failure of the
    engine, and is no dict. *)
Lemma iterate_raise_inv (v : value) (e : exn) :
  iterate v = Raise e -> recognized e = false /\ is_dict_instance v = false.
Proof.
  destruct v; simpl; intros H; inversion H; split; reflexivity.
Qed.

(** X18.  [_setload] and [_frozensetload] have no [except] around the
    iteration: for a value that cannot be iterated, such as a number or
    [None], the [TypeError] leaves them as it is, and what [load] raises is
    the [AssertionError] of its [assert], where [_listload] makes it a
    failure of the engine. *)
Theorem setload_not_iterable (classes : class_table) (fuel : nat) (l : Loader)
    (v : value) (t : ty) (ann : option Annotation) (st : state) (e : exn) :
  iterate v = Raise e ->
  (ty_in (TSet t) (basictypes l) = false ->
   cache_entry_ok l (default_handlers classes) (TSet t) st ->
   _setload classes l (load fuel l (default_handlers classes)) v (TSet t)
     (state_after_lookup (TSet t) 7 st)
   = (Raise e, state_after_lookup (TSet t) 7 st)
   /\ load (S fuel) l (default_handlers classes) v (TSet t) ann st
      = (Raise (foreign AssertionError (Msg "")),
         state_after_lookup (TSet t) 7 st))
  /\ (ty_in (TFrozenSet t) (basictypes l) = false ->
      cache_entry_ok l (default_handlers classes) (TFrozenSet t) st ->
      _frozensetload classes l (load fuel l (default_handlers classes)) v
        (TFrozenSet t) (state_after_lookup (TFrozenSet t) 8 st)
      = (Raise e, state_after_lookup (TFrozenSet t) 8 st)
      /\ load (S fuel) l (default_handlers classes) v (TFrozenSet t) ann st
         = (Raise (foreign AssertionError (Msg "")),
            state_after_lookup (TFrozenSet t) 8 st)).
Proof.
  intros Hi. destruct (iterate_raise_inv v e Hi) as [Hrec Hd]. split.
  - intros Hb Hok.
    assert (Hset : forall st0,
               _setload classes l (load fuel l (default_handlers classes)) v
                 (TSet t) st0 = (Raise e, st0)).
    { intros st0. unfold _setload, bind, lift. rewrite Hd. simpl.
      rewrite Hi. reflexivity. }
    split; [apply Hset|].
    rewrite (load_lookup fuel l (default_handlers classes) v (TSet t) ann st 7
               (cond_of is_set) (_setload classes) Hok
               (index_set classes l t Hb) eq_refl).
    unfold run_handler. rewrite Hset, Hrec. reflexivity.
  - intros Hb Hok.
    assert (Hset : forall st0,
               _frozensetload classes l (load fuel l (default_handlers classes))
                 v (TFrozenSet t) st0 = (Raise e, st0)).
    { intros st0. unfold _frozensetload, bind, lift. rewrite Hd. simpl.
      rewrite Hi. reflexivity. }
    split; [apply Hset|].
    rewrite (load_lookup fuel l (default_handlers classes) v (TFrozenSet t) ann
               st 8 (cond_of is_frozenset) (_frozensetload classes) Hok
               (index_frozenset classes l t Hb) eq_refl).
    unfold run_handler. rewrite Hset, Hrec. reflexivity.
Qed.

(** [load(3, Set[int])] ends in an [AssertionError]. *)
Lemma setload_not_iterable_witness :
  load 1 default_loader (default_handlers TestAttrload.classes) (VInt 3)
    (TSet Tint) None new_state
  = (Raise (foreign AssertionError (Msg "")),
     state_after_lookup (TSet Tint) 7 new_state).
Proof.
  apply (proj1 (setload_not_iterable TestAttrload.classes 0 default_loader
                  (VInt 3) Tint None new_state
                  (foreign TypeError
                     (Fmt "'%s' object is not iterable" [Msg "int"]))
                  eq_refl)).
  - reflexivity.
  - exact I.
Defined.
